(** * LinkedIn job filter: the content script's classification and
      reordering engine, embedded from [content.ts] and [types.ts], and
      the popup that drives it, embedded from [popup.ts].

    The embedding follows the content script function by function, in the
    revision that parses relative times ("2 hours ago"); the places where
    the revision that reads the [datetime] attribute differs, and the
    handlers of its floating panel, are embedded next to it.  The popup
    follows in a module of its own.  The browser side is modelled as far
    as the scripts query it:
    - text is a sequence of UTF-16 code units; the model carries the code
      units below 256, on which [trim], [toLowerCase] and the regular
      expression classes are written out exactly;
    - numbers are exact integers extended with the two infinities and NaN;
      a [Date] is a clipped time value or an invalid date;
    - an element is a tree node; a job card is a tree together with its
      identity (DOM elements are compared by reference);
    - the document is the list of job cards in document order, all of them
      children of one list element, none nested in another;
    - the clock is read by every [getJobStatus]: [now] is a reading, in
      milliseconds.  A pass and [sortJobs] are embedded at a clock that
      stands at [now] while they run; the comparator is embedded with the
      two readings of each call apart ([compareJobsAt]), and [sortJobsMay]
      is [sortJobs] on a clock that moves during the sort;
    - [sort] is embedded twice: as one stable sort, [Array_sort], and as
      what the language fixes for every engine, [mayReturn]; they agree
      whenever the comparator orders the elements consistently;
    - the event loop runs one task at a time and hands the queued mutation
      records to the observer when the task ends. *)

From Stdlib Require Import ZArith String Ascii List Bool Lia Permutation.
From stdpp Require Import gmap strings list fin_maps sorting pretty.
Import ListNotations.

Local Open Scope string_scope.
Local Open Scope Z_scope.

(** ** Numbers *)

(** A JavaScript number as far as the script can produce one: an integer,
    an infinity or NaN.  Doubles are exact on the integers below 2^53, and
    every time value of a valid date is below 8.64e15 < 2^53. *)
Inductive Number : Type :=
| Num (z : Z)
| PosInfinity
| NegInfinity
| NaN.

(** [a - b] on numbers. *)
Definition Number_sub (a b : Number) : Number :=
  match a, b with
  | NaN, _ | _, NaN => NaN
  | Num x, Num y => Num (x - y)
  | Num _, PosInfinity => NegInfinity
  | Num _, NegInfinity => PosInfinity
  | PosInfinity, PosInfinity => NaN
  | PosInfinity, _ => PosInfinity
  | NegInfinity, NegInfinity => NaN
  | NegInfinity, _ => NegInfinity
  end.

(** [v > 0] and [v < 0]; both are false on NaN. *)
Definition Number_pos (v : Number) : bool :=
  match v with
  | Num z => 0 <? z
  | PosInfinity => true
  | _ => false
  end.

Definition Number_neg (v : Number) : bool :=
  match v with
  | Num z => z <? 0
  | NegInfinity => true
  | _ => false
  end.

(** ** Strings *)

Definition code (c : ascii) : N := N_of_ascii c.

Definition LF : ascii := ascii_of_N 10.

(** WhiteSpace and LineTerminator code units: TAB, LF, VT, FF, CR, SP and
    NBSP.  [String.prototype.trim] strips them and [\s] matches them. *)
Definition isWhiteSpace (c : ascii) : bool :=
  existsb (N.eqb (code c)) [9; 10; 11; 12; 13; 32; 160]%N.

(** [\d] matches the ASCII digits only. *)
Definition isDigit (c : ascii) : bool :=
  ((48 <=? code c) && (code c <=? 57))%N.

(** Upper case letters with a lower case partner: A-Z and the Latin-1
    capitals other than the multiplication sign. *)
Definition isUpper (c : ascii) : bool :=
  (((65 <=? code c) && (code c <=? 90))
   || ((192 <=? code c) && (code c <=? 222) && negb (code c =? 215)))%N.

Definition toLowerChar (c : ascii) : ascii :=
  if isUpper c then ascii_of_N (code c + 32) else c.

(** [String.prototype.toLowerCase]. *)
Fixpoint toLowerCase (s : string) : string :=
  match s with
  | EmptyString => EmptyString
  | String c s' => String (toLowerChar c) (toLowerCase s')
  end.

(** The canonical form the regular expression flag [i] compares.  The
    engine compares upper case forms; two code units below 256 have the same
    upper case form exactly when they have the same lower case form, so the
    lower case form serves as the canonical one. *)
Definition canonicalize (c : ascii) : ascii := toLowerChar c.

Fixpoint trimStart (s : string) : string :=
  match s with
  | EmptyString => EmptyString
  | String c s' => if isWhiteSpace c then trimStart s' else s
  end.

Fixpoint trimEnd (s : string) : string :=
  match s with
  | EmptyString => EmptyString
  | String c s' =>
      match trimEnd s' with
      | EmptyString => if isWhiteSpace c then EmptyString else String c EmptyString
      | t => String c t
      end
  end.

(** [String.prototype.trim]. *)
Definition trim (s : string) : string := trimEnd (trimStart s).

(** [s.startsWith(needle)]. *)
Fixpoint startsWith (s needle : string) : bool :=
  match needle, s with
  | EmptyString, _ => true
  | String _ _, EmptyString => false
  | String c needle', String c' s' => Ascii.eqb c c' && startsWith s' needle'
  end.

(** [s.includes(needle)]: [needle] starts at some position of [s]. *)
Fixpoint includes (s needle : string) : bool :=
  startsWith s needle
  || match s with
     | EmptyString => false
     | String _ s' => includes s' needle
     end.

(** [s.split(sep)] for a separator of one code unit; the result is never
    empty. *)
Fixpoint split (sep : ascii) (s : string) : list string :=
  match s with
  | EmptyString => [EmptyString]
  | String c s' =>
      if Ascii.eqb c sep then EmptyString :: split sep s'
      else match split sep s' with
           | [] => [String c EmptyString]
           | l :: ls => String c l :: ls
           end
  end.

(** [parseInt(s, 10)] on a string of decimal digits. *)
Definition digitValue (c : ascii) : Z := Z.of_N (code c) - 48.

Fixpoint parseDigits (acc : Z) (s : string) : Z :=
  match s with
  | EmptyString => acc
  | String c s' => if isDigit c then parseDigits (10 * acc + digitValue c) s' else acc
  end.

Definition parseInt (s : string) : Z := parseDigits 0 s.

(** ** Regular expressions

    The fragment of the pattern language the script uses, with the
    backtracking semantics of the engine: quantifiers are greedy,
    alternatives are tried left to right, a search tries every start
    position from the left. *)

Inductive CharClass : Type :=
| Lit (c : ascii)
| ClassDigit
| ClassSpace.

Inductive Regex : Type :=
| Empty
| Chr (cc : CharClass)
| Seq (r1 r2 : Regex)
| Alt (r1 r2 : Regex)
| Plus (cc : CharClass)
| Opt (r : Regex)
| Group (r : Regex).

(** One code unit against a class, under the flag [i] when [ic] is set. *)
Definition classMatches (ic : bool) (cc : CharClass) (c : ascii) : bool :=
  match cc with
  | Lit p => if ic then Ascii.eqb (canonicalize p) (canonicalize c) else Ascii.eqb p c
  | ClassDigit => isDigit c
  | ClassSpace => isWhiteSpace c
  end.

(** The part of [s] consumed when the rest is [rest]. *)
Definition consumed (s rest : string) : string :=
  substring 0 (String.length s - String.length rest) s.

Section Matcher.
Context {R : Type}.
Variable ic : bool.

(** [cc+]: as many code units as possible, giving them back one by one
    while the continuation fails. *)
Fixpoint matchPlus (cc : CharClass) (s : string) (k : string -> option R) : option R :=
  match s with
  | EmptyString => None
  | String c s' =>
      if classMatches ic cc c then
        match matchPlus cc s' k with
        | Some x => Some x
        | None => k s'
        end
      else None
  end.

(** [matchRegex r s caps k]: match [r] at the start of [s] and continue
    with the rest and the captures of the groups closed so far. *)
Fixpoint matchRegex (r : Regex) (s : string) (caps : list string)
    (k : string -> list string -> option R) : option R :=
  match r with
  | Empty => k s caps
  | Chr cc =>
      match s with
      | String c s' => if classMatches ic cc c then k s' caps else None
      | EmptyString => None
      end
  | Seq r1 r2 => matchRegex r1 s caps (fun s' caps' => matchRegex r2 s' caps' k)
  | Alt r1 r2 =>
      match matchRegex r1 s caps k with
      | Some x => Some x
      | None => matchRegex r2 s caps k
      end
  | Plus cc => matchPlus cc s (fun s' => k s' caps)
  | Opt r' =>
      match matchRegex r' s caps k with
      | Some x => Some x
      | None => k s caps
      end
  | Group r' => matchRegex r' s caps (fun s' caps' => k s' (caps' ++ [consumed s s'])%list)
  end.
End Matcher.

(** [s.match(r)] for a pattern without the flag [g]: the captures of the
    leftmost match, or nothing. *)
Fixpoint regexMatch (ic : bool) (r : Regex) (s : string) : option (list string) :=
  match matchRegex ic r s [] (fun _ caps => Some caps) with
  | Some caps => Some caps
  | None =>
      match s with
      | EmptyString => None
      | String _ s' => regexMatch ic r s'
      end
  end.

(** A word as a sequence of literals. *)
Fixpoint word (w : string) : Regex :=
  match w with
  | EmptyString => Empty
  | String c w' => Seq (Chr (Lit c)) (word w')
  end.

(** ** The document *)

(** A node of the page: a text node or an element with its local name, its
    class list (an ordered set of tokens), its other attributes and its
    children. *)
#[warnings="-register-all"]
Inductive Node : Type :=
| TextNode (data : string)
| ElementNode (localName : string) (classes : list string)
    (attributes : list (string * string)) (childNodes : list Node).

(** The selectors of the script: [.c], [[a]], [t] and [t[a]]. *)
Inductive Selector : Type :=
| ByClass (c : string)
| ByAttribute (a : string)
| ByType (t : string)
| ByTypeAttribute (t a : string).

Definition hasToken (token : string) (tokens : list string) : bool :=
  existsb (String.eqb token) tokens.

Definition getAttribute (a : string) (n : Node) : option string :=
  match n with
  | TextNode _ => None
  | ElementNode _ _ attrs _ =>
      match List.find (fun kv => String.eqb (fst kv) a) attrs with
      | Some kv => Some (snd kv)
      | None => None
      end
  end.

Definition hasAttribute (a : string) (n : Node) : bool :=
  match getAttribute a n with Some _ => true | None => false end.

(** [nodeType]: 1 for an element, 3 for a text node. *)
Definition nodeType (n : Node) : nat :=
  match n with
  | TextNode _ => 3
  | ElementNode _ _ _ _ => 1
  end.

(** [element.matches(selector)]. *)
Definition matches (sel : Selector) (n : Node) : bool :=
  match n with
  | TextNode _ => false
  | ElementNode name cl _ _ =>
      match sel with
      | ByClass c => hasToken c cl
      | ByAttribute a => hasAttribute a n
      | ByType t => String.eqb name t
      | ByTypeAttribute t a => String.eqb name t && hasAttribute a n
      end
  end.

(** [element.querySelector(selector)]: the first descendant, in document
    order, that matches; the element itself is not a candidate. *)
Fixpoint querySelector (sel : Selector) (n : Node) : option Node :=
  match n with
  | TextNode _ => None
  | ElementNode _ _ _ children =>
      (fix first (l : list Node) : option Node :=
         match l with
         | [] => None
         | c :: l' =>
             if matches sel c then Some c
             else match querySelector sel c with
                  | Some d => Some d
                  | None => first l'
                  end
         end) children
  end.

(** [node.textContent]: the text of all descendants, in document order. *)
Fixpoint textContent (n : Node) : string :=
  match n with
  | TextNode data => data
  | ElementNode _ _ _ children =>
      (fix concat (l : list Node) : string :=
         match l with
         | [] => EmptyString
         | c :: l' => textContent c ++ concat l'
         end) children
  end.

Definition classList (n : Node) : list string :=
  match n with
  | TextNode _ => []
  | ElementNode _ cl _ _ => cl
  end.

Definition setClassList (cl : list string) (n : Node) : Node :=
  match n with
  | TextNode data => TextNode data
  | ElementNode name _ attrs children => ElementNode name cl attrs children
  end.

(** [classList.remove(t1, t2, ...)] and [classList.add(t)]. *)
Definition classList_remove (tokens : list string) (cl : list string) : list string :=
  List.filter (fun t => negb (hasToken t tokens)) cl.

Definition classList_add (token : string) (cl : list string) : list string :=
  if hasToken token cl then cl else (cl ++ [token])%list.

(** [a || b] on results of a query. *)
Definition orElse {A : Type} (a b : option A) : option A :=
  match a with
  | Some x => Some x
  | None => b
  end.

(** ** [types.ts] *)

Inductive JobStatus : Type := Normal | Viewed | Applied.

Definition JobStatus_eqb (a b : JobStatus) : bool :=
  match a, b with
  | Normal, Normal | Viewed, Viewed | Applied, Applied => true
  | _, _ => false
  end.

(** A date: a time value in milliseconds, or an invalid date. *)
Inductive Date : Type :=
| ValidDate (t : Z)
| InvalidDate.

Record JobCardInfo : Type := { status : JobStatus; time : option Date }.

(** [sortBy] and [appliedAction] are the strings the settings carry. *)
Record ExtensionSettings : Type := {
  sortBy : string;
  appliedAction : string;
  highlightViewed : bool
}.

Record JobStats : Type := { total : nat; viewed : nat; applied : nat }.

Record MessageRequest : Type := {
  type : string;
  payload : option ExtensionSettings   (* the optional field [settings] *)
}.

Inductive MessageResponse : Type :=
| SuccessResponse (success : bool)
| StatsResponse (stats : JobStats).

(** ** [content.ts]: configuration *)

Definition jobCardSelector : Selector := ByAttribute "data-occludable-job-id".
Definition footerSelector : Selector := ByClass "job-card-container__footer-wrapper".
Definition stateSelector : Selector := ByClass "job-card-container__footer-job-state".
Definition timeSelector : Selector := ByTypeAttribute "time" "datetime".

(** ** [content.ts]: dates *)

(** [new Date(v)] clips the time value to 8.64e15 milliseconds around the
    epoch; outside, the date is invalid. *)
Definition maxTimeValue : Z := 8640000000000000.

Definition newDate (v : Z) : Date :=
  if Z.abs v <=? maxTimeValue then ValidDate v else InvalidDate.

Definition getTime (d : Date) : Number :=
  match d with
  | ValidDate t => Num t
  | InvalidDate => NaN
  end.

(** [/(\d+)\s+(minute|hour|day|week)s?\s+ago/i] *)
Definition relativeTimePattern : Regex :=
  Seq (Group (Plus ClassDigit))
  (Seq (Plus ClassSpace)
  (Seq (Group (Alt (word "minute") (Alt (word "hour") (Alt (word "day") (word "week")))))
  (Seq (Opt (Chr (Lit "s")))
  (Seq (Plus ClassSpace)
       (word "ago"))))).

Definition msPerUnit (unit : string) : option Z :=
  if String.eqb unit "minute" then Some (60 * 1000)
  else if String.eqb unit "hour" then Some (60 * 60 * 1000)
  else if String.eqb unit "day" then Some (24 * 60 * 60 * 1000)
  else if String.eqb unit "week" then Some (7 * 24 * 60 * 60 * 1000)
  else None.

(** The line the pattern is run on: the first line containing "ago",
    trimmed, or the empty string. *)
Definition timeLine (text : string) : string :=
  match List.find (fun line => includes line "ago") (split LF text) with
  | Some line => trim line
  | None => EmptyString
  end.

(** [parseRelativeTime(text)] when the clock reads [now]. *)
Definition parseRelativeTime (now : Z) (text : string) : option Date :=
  match regexMatch true relativeTimePattern (timeLine text) with
  | None => None
  | Some m =>
      let value := parseInt (nth 0 m EmptyString) in
      let unit := toLowerCase (nth 1 m EmptyString) in
      match msPerUnit unit with
      | Some ms => Some (newDate (now - value * ms))
      | None => Some InvalidDate
      end
  end.

(** ** [content.ts]: classification *)

Definition stateEl (jobCard : Node) : option Node :=
  match querySelector footerSelector jobCard with
  | Some footer => querySelector stateSelector footer
  | None => None
  end.

Definition timeEl (jobCard : Node) : option Node :=
  orElse (querySelector timeSelector jobCard)
    (orElse (match querySelector footerSelector jobCard with
             | Some footer => querySelector timeSelector footer
             | None => None
             end)
            (querySelector (ByType "time") jobCard)).

(** [getJobStatus(jobCard)] when the clock reads [now]. *)
Definition getJobStatus (now : Z) (jobCard : Node) : JobCardInfo :=
  let status :=
    match stateEl jobCard with
    | Some el =>
        let text := toLowerCase (trim (textContent el)) in
        if includes text "viewed" then Viewed
        else if includes text "applied" then Applied
        else Normal
    | None => Normal
    end in
  let time :=
    match timeEl jobCard with
    | Some el => parseRelativeTime now (textContent el)
    | None => None
    end in
  {| status := status; time := time |}.


(** ** [content.ts]: the extension and the page it runs on *)

(** The reference of an element: DOM elements are compared by identity. *)
Definition ElemRef : Type := nat.

(** A job card of the page: an element matching [jobCardSelector]. *)
Record JobCard : Type := { ref : ElemRef; node : Node }.

(** A message sent with [chrome.runtime.sendMessage]. *)
Inductive RuntimeMessage : Type :=
| StatsMessage (stats : JobStats).

(** A record of the mutation observer; [recordType] is its field [type]. *)
Record MutationRecord : Type := {
  recordType : string;
  addedNodes : list Node;
  removedNodes : list Node
}.

(** The fields of [JobFilterExtension] together with the parts of the
    browser the script reads and writes: the job cards of the document in
    document order, the stored settings, the messages sent to the popup,
    the due times of the pending [setTimeout] callbacks, whether the
    observer is attached above the job list, and the records queued for
    it. *)
Record State : Type := {
  settings : ExtensionSettings;
  processedJobs : gset ElemRef;
  originalOrder : gmap ElemRef nat;
  document : list JobCard;
  stored : option ExtensionSettings;
  sent : list RuntimeMessage;
  timers : list Z;
  observing : bool;
  records : list MutationRecord
}.

Definition set_settings (x : ExtensionSettings) (st : State) : State :=
  {| settings := x; processedJobs := processedJobs st;
     originalOrder := originalOrder st; document := document st;
     stored := stored st; sent := sent st; timers := timers st;
     observing := observing st; records := records st |}.

Definition set_processedJobs (x : gset ElemRef) (st : State) : State :=
  {| settings := settings st; processedJobs := x;
     originalOrder := originalOrder st; document := document st;
     stored := stored st; sent := sent st; timers := timers st;
     observing := observing st; records := records st |}.

Definition set_originalOrder (x : gmap ElemRef nat) (st : State) : State :=
  {| settings := settings st; processedJobs := processedJobs st;
     originalOrder := x; document := document st;
     stored := stored st; sent := sent st; timers := timers st;
     observing := observing st; records := records st |}.

Definition set_document (x : list JobCard) (st : State) : State :=
  {| settings := settings st; processedJobs := processedJobs st;
     originalOrder := originalOrder st; document := x;
     stored := stored st; sent := sent st; timers := timers st;
     observing := observing st; records := records st |}.

Definition set_stored (x : option ExtensionSettings) (st : State) : State :=
  {| settings := settings st; processedJobs := processedJobs st;
     originalOrder := originalOrder st; document := document st;
     stored := x; sent := sent st; timers := timers st;
     observing := observing st; records := records st |}.

Definition set_sent (x : list RuntimeMessage) (st : State) : State :=
  {| settings := settings st; processedJobs := processedJobs st;
     originalOrder := originalOrder st; document := document st;
     stored := stored st; sent := x; timers := timers st;
     observing := observing st; records := records st |}.

Definition set_timers (x : list Z) (st : State) : State :=
  {| settings := settings st; processedJobs := processedJobs st;
     originalOrder := originalOrder st; document := document st;
     stored := stored st; sent := sent st; timers := x;
     observing := observing st; records := records st |}.

Definition set_records (x : list MutationRecord) (st : State) : State :=
  {| settings := settings st; processedJobs := processedJobs st;
     originalOrder := originalOrder st; document := document st;
     stored := stored st; sent := sent st; timers := timers st;
     observing := observing st; records := x |}.

(** The settings the class starts with. *)
Definition defaultSettings : ExtensionSettings :=
  {| sortBy := "default"; appliedAction := "dim"; highlightViewed := true |}.

(** [saveSettings()] *)
Definition saveSettings (st : State) : State :=
  set_stored (Some (settings st)) st.

(** *** Markers *)

Definition viewedMarker : string := "linkedin-job-filter-viewed".
Definition appliedMarker : string := "linkedin-job-filter-applied".
Definition hiddenMarker : string := "hidden".

(** The body of the loop of [processJobs] on the class list of one job. *)
Definition restyle (s : ExtensionSettings) (st : JobStatus) (cl : list string) : list string :=
  let cl := classList_remove [viewedMarker; appliedMarker; hiddenMarker] cl in
  let cl :=
    if JobStatus_eqb st Viewed && highlightViewed s
    then classList_add viewedMarker cl else cl in
  if JobStatus_eqb st Applied then
    if String.eqb (appliedAction s) "hide" then classList_add hiddenMarker cl
    else if String.eqb (appliedAction s) "dim" then classList_add appliedMarker cl
    else cl
  else cl.

Definition processJob (s : ExtensionSettings) (now : Z) (job : JobCard) : JobCard :=
  {| ref := ref job;
     node := setClassList
               (restyle s (status (getJobStatus now (node job))) (classList (node job)))
               (node job) |}.

(** The counts of [updateStats] and of the [getStats] request. *)
Definition countStatus (now : Z) (st : JobStatus) (jobs : list JobCard) : nat :=
  List.length (List.filter (fun job => JobStatus_eqb (status (getJobStatus now (node job))) st) jobs).

Definition jobStats (now : Z) (jobs : list JobCard) : JobStats :=
  {| total := List.length jobs;
     viewed := countStatus now Viewed jobs;
     applied := countStatus now Applied jobs |}.

(** [updateStats()] *)
Definition updateStats (now : Z) (st : State) : State :=
  set_sent (sent st ++ [StatsMessage (jobStats now (document st))])%list st.

(** [processJobs()] *)
Definition processJobs (now : Z) (st : State) : State :=
  let jobs := List.map (processJob (settings st) now) (document st) in
  let st := set_processedJobs (list_to_set (List.map ref jobs)) st in
  let st := set_document jobs st in
  updateStats now st.

(** *** The order ledger *)

(** [jobs.forEach((job, index) => this.originalOrder.set(job, index))],
    started at [index]. *)
Fixpoint recordFrom (index : nat) (jobs : list JobCard) (m : gmap ElemRef nat) : gmap ElemRef nat :=
  match jobs with
  | [] => m
  | job :: jobs' => recordFrom (S index) jobs' (<[ref job := index]> m)
  end.

(** [captureOriginalOrder()] *)
Definition captureOriginalOrder (st : State) : State :=
  set_originalOrder (recordFrom 0 (document st) (originalOrder st)) st.

(** [this.originalOrder.get(job) ?? Infinity] *)
Definition indexOf (order : gmap ElemRef nat) (job : JobCard) : Number :=
  match order !! ref job with
  | Some i => Num (Z.of_nat i)
  | None => PosInfinity
  end.

(** *** Sorting *)

(** [Array.prototype.sort(cmp)].  The sort is stable, and a comparator
    result of NaN counts as zero; for a comparator that orders the
    elements consistently the result is the one sorted arrangement that
    keeps equal elements in their order, which insertion from the right
    computes.  For a comparator that does not, the result depends on the
    engine, and [Array_sort] is one of the arrangements [mayReturn]
    admits. *)
Section ArraySort.
Context {A : Type}.
Variable cmp : A -> A -> Number.

Fixpoint insertSorted (x : A) (l : list A) : list A :=
  match l with
  | [] => [x]
  | y :: l' => if Number_pos (cmp x y) then y :: insertSorted x l' else x :: y :: l'
  end.

Fixpoint Array_sort (l : list A) : list A :=
  match l with
  | [] => []
  | x :: l' => insertSorted x (Array_sort l')
  end.
End ArraySort.

(** The comparator of the [default] branch. *)
Definition compareOriginal (order : gmap ElemRef nat) (a b : JobCard) : Number :=
  Number_sub (indexOf order a) (indexOf order b).

(** The comparator of the other policies.  Each call reads the clock
    twice, once in each [getJobStatus]: [nowA] is the reading for [a],
    [nowB] the one for [b]. *)
Definition compareJobsAt (nowA nowB : Z) (policy : string) (a b : JobCard) : Number :=
  let statusA := getJobStatus nowA (node a) in
  let statusB := getJobStatus nowB (node b) in
  if String.eqb policy "recent" then
    match time statusA, time statusB with
    | None, None => Num 0
    | None, Some _ => Num (-1)
    | Some _, None => Num 1
    | Some ta, Some tb => Number_sub (getTime ta) (getTime tb)
    end
  else if String.eqb policy "viewed-first" then
    if JobStatus_eqb (status statusA) Viewed && negb (JobStatus_eqb (status statusB) Viewed) then Num (-1)
    else if negb (JobStatus_eqb (status statusA) Viewed) && JobStatus_eqb (status statusB) Viewed then Num 1
    else Num 0
  else if String.eqb policy "viewed-last" then
    if JobStatus_eqb (status statusA) Viewed && negb (JobStatus_eqb (status statusB) Viewed) then Num 1
    else if negb (JobStatus_eqb (status statusA) Viewed) && JobStatus_eqb (status statusB) Viewed then Num (-1)
    else Num 0
  else Num 0.

(** The comparator while the clock stands at [now]: every reading of a
    sort is [now]. *)
Definition compareJobs (now : Z) (policy : string) (a b : JobCard) : Number :=
  compareJobsAt now now policy a b.

(** [jobList.appendChild(job)]: the job leaves its place and becomes the
    last child; an attached observer is told of the removal and of the
    insertion. *)
Definition appendChild (job : JobCard) (st : State) : State :=
  let others := List.filter (fun j => negb (Nat.eqb (ref j) (ref job))) (document st) in
  let st := set_document (others ++ [job])%list st in
  if observing st then
    set_records (records st ++
      [ {| recordType := "childList"; addedNodes := []; removedNodes := [node job] |};
        {| recordType := "childList"; addedNodes := [node job]; removedNodes := [] |} ])%list st
  else st.

(** [jobs.forEach(job => jobList.appendChild(job))] *)
Definition appendAll (jobs : list JobCard) (st : State) : State :=
  fold_left (fun st job => appendChild job st) jobs st.

(** [sortJobs()] when the clock reads [now].  Without a first job the
    function returns; otherwise [jobList], the parent of the first job, is
    the list element all cards are children of. *)
Definition sortJobs (now : Z) (st : State) : State :=
  match document st with
  | [] => st
  | _ :: _ =>
      let jobs := document st in
      (* capture original order on first sort *)
      let st := if Nat.eqb (size (originalOrder st)) 0 then captureOriginalOrder st else st in
      if String.eqb (sortBy (settings st)) "default" then
        (* restore original order *)
        let sortedJobs := Array_sort (compareOriginal (originalOrder st)) jobs in
        appendAll sortedJobs st
      else
        let sortedJobs := Array_sort (compareJobs now (sortBy (settings st))) jobs in
        if String.eqb (sortBy (settings st)) "recent" then appendAll (rev sortedJobs) st
        else appendAll sortedJobs st
  end.

(** *** The change reactor *)

(** The callback of the mutation observer: a record of type [childList]
    with an added element matching [jobCardSelector] asks for a pass. *)
Definition shouldProcess (mutations : list MutationRecord) : bool :=
  existsb (fun mutation =>
             String.eqb (recordType mutation) "childList"
             && existsb (fun n => Nat.eqb (nodeType n) 1 && matches jobCardSelector n)
                        (addedNodes mutation))
          mutations.

(** The function handed to [setTimeout]. *)
Definition reprocess (now : Z) (st : State) : State :=
  let st := processJobs now st in
  if negb (String.eqb (sortBy (settings st)) "default") then sortJobs now st else st.

(** The observer callback when the clock reads [now]: [setTimeout(.., 100)]
    adds a timer. *)
Definition observerCallback (now : Z) (mutations : list MutationRecord) (st : State) : State :=
  if shouldProcess mutations then set_timers (timers st ++ [now + 100])%list st else st.

(** At the end of a task the browser hands the queued records to the
    observer, all in one call. *)
Definition notifyObserver (now : Z) (st : State) : State :=
  match records st with
  | [] => st
  | rs => observerCallback now rs (set_records [] st)
  end.

(** The oldest timer fires if it is due. *)
Definition fireTimer (now : Z) (st : State) : State :=
  match timers st with
  | [] => st
  | due :: rest =>
      if due <=? now then notifyObserver now (reprocess now (set_timers rest st)) else st
  end.

(** [n] turns of the timer queue. *)
Fixpoint fireTimers (n : nat) (now : Z) (st : State) : State :=
  match n with
  | O => st
  | S n' => fireTimers n' now (fireTimer now st)
  end.

(** The page appends job cards to the list in one task. *)
Definition pageAppends (now : Z) (cards : list JobCard) (st : State) : State :=
  let st := set_document (document st ++ cards)%list st in
  let st :=
    if observing st then
      set_records (records st ++
        [ {| recordType := "childList"; addedNodes := List.map node cards;
             removedNodes := [] |} ])%list st
    else st in
  notifyObserver now st.

(** *** Messages *)

(** The listener of [setupMessageListener]: the new state, the calls of
    [sendResponse] in order, and the value the listener returns. *)
Definition onMessage (now : Z) (request : MessageRequest) (st : State)
  : State * list MessageResponse * bool :=
  let '(st, responses) :=
    match String.eqb (type request) "applySettings", payload request with
    | true, Some s =>
        (* { ...this.settings, ...request.settings } with all three fields given *)
        let st := set_settings s st in
        let st := saveSettings st in
        let st := processJobs now st in
        let st :=
          if negb (String.eqb (sortBy (settings st)) "default") then sortJobs now st else st in
        (st, [SuccessResponse true])
    | _, _ => (st, [])
    end in
  let responses :=
    if String.eqb (type request) "getStats"
    then (responses ++ [StatsResponse (jobStats now (document st))])%list
    else responses in
  (st, responses, true).

(** *** Start *)

Definition newExtension (cards : list JobCard) (saved : option ExtensionSettings) : State :=
  {| settings := defaultSettings; processedJobs := ∅; originalOrder := ∅;
     document := cards; stored := saved; sent := []; timers := [];
     observing := false; records := [] |}.

(** [startObserver()]: the observer is attached when the job list exists. *)
Definition startObserver (jobListPresent : bool) (st : State) : State :=
  {| settings := settings st; processedJobs := processedJobs st;
     originalOrder := originalOrder st; document := document st;
     stored := stored st; sent := sent st; timers := timers st;
     observing := jobListPresent; records := records st |}.

(** [init()]; the stored settings arrive later, in [loadSettingsCallback]. *)
Definition init (now : Z) (jobListPresent : bool) (st : State) : State :=
  processJobs now (startObserver jobListPresent st).

Definition loadSettingsCallback (st : State) : State :=
  match stored st with
  | Some s => set_settings s st
  | None => st
  end.

(** *** The revision of [content.ts] that reads the [datetime] attribute

    A second revision of the file differs from the one above in two places:
    [getJobStatus] takes the time from the [datetime] attribute of the time
    element, and the [recent] comparator has the opposite signs for a card
    without a time.  [parseDate] stands for [new Date(datetime)]. *)
Section DatetimeRevision.
Variable parseDate : string -> Date.

Definition getJobStatus_datetime (jobCard : Node) : JobCardInfo :=
  let status :=
    match stateEl jobCard with
    | Some el =>
        let text := toLowerCase (trim (textContent el)) in
        if includes text "viewed" then Viewed
        else if includes text "applied" then Applied
        else Normal
    | None => Normal
    end in
  let time :=
    match timeEl jobCard with
    | Some el =>
        match getAttribute "datetime" el with
        | Some datetime =>
            if String.eqb datetime EmptyString then None else Some (parseDate datetime)
        | None => None
        end
    | None => None
    end in
  {| status := status; time := time |}.

Definition compareJobs_datetime (policy : string) (a b : JobCard) : Number :=
  let statusA := getJobStatus_datetime (node a) in
  let statusB := getJobStatus_datetime (node b) in
  if String.eqb policy "recent" then
    match time statusA, time statusB with
    | None, None => Num 0
    | None, Some _ => Num 1
    | Some _, None => Num (-1)
    | Some ta, Some tb => Number_sub (getTime ta) (getTime tb)
    end
  else if String.eqb policy "viewed-first" then
    if JobStatus_eqb (status statusA) Viewed && negb (JobStatus_eqb (status statusB) Viewed) then Num (-1)
    else if negb (JobStatus_eqb (status statusA) Viewed) && JobStatus_eqb (status statusB) Viewed then Num 1
    else Num 0
  else if String.eqb policy "viewed-last" then
    if JobStatus_eqb (status statusA) Viewed && negb (JobStatus_eqb (status statusB) Viewed) then Num 1
    else if negb (JobStatus_eqb (status statusA) Viewed) && JobStatus_eqb (status statusB) Viewed then Num (-1)
    else Num 0
  else Num 0.
End DatetimeRevision.

(** [sortJobs()] of that revision: the same steps with its comparator. *)
Section DatetimeSort.
Variable parseDate : string -> Date.

Definition sortJobs_datetime (st : State) : State :=
  match document st with
  | [] => st
  | _ :: _ =>
      let jobs := document st in
      let st := if Nat.eqb (size (originalOrder st)) 0 then captureOriginalOrder st else st in
      if String.eqb (sortBy (settings st)) "default" then
        let sortedJobs := Array_sort (compareOriginal (originalOrder st)) jobs in
        appendAll sortedJobs st
      else
        let sortedJobs :=
          Array_sort (compareJobs_datetime parseDate (sortBy (settings st))) jobs in
        if String.eqb (sortBy (settings st)) "recent" then appendAll (rev sortedJobs) st
        else appendAll sortedJobs st
  end.

(** The handlers of the floating panel of that revision: the sort select
    sorts at once, whatever the value; the radio buttons and the check box
    run a pass. *)
Definition onSortChange (value : string) (st : State) : State :=
  let st := set_settings {| sortBy := value;
                            appliedAction := appliedAction (settings st);
                            highlightViewed := highlightViewed (settings st) |} st in
  sortJobs_datetime (saveSettings st).

Definition onAppliedActionChange (now : Z) (value : string) (st : State) : State :=
  let st := set_settings {| sortBy := sortBy (settings st);
                            appliedAction := value;
                            highlightViewed := highlightViewed (settings st) |} st in
  processJobs now (saveSettings st).

Definition onHighlightChange (now : Z) (checked : bool) (st : State) : State :=
  let st := set_settings {| sortBy := sortBy (settings st);
                            appliedAction := appliedAction (settings st);
                            highlightViewed := checked |} st in
  processJobs now (saveSettings st).

(** The function that revision hands to [setTimeout], and its timers:
    [startObserver] is the same in both revisions, the pass runs the
    [sortJobs] of its own revision. *)
Definition reprocess_datetime (now : Z) (st : State) : State :=
  let st := processJobs now st in
  if negb (String.eqb (sortBy (settings st)) "default") then sortJobs_datetime st else st.

Definition fireTimer_datetime (now : Z) (st : State) : State :=
  match timers st with
  | [] => st
  | due :: rest =>
      if due <=? now then notifyObserver now (reprocess_datetime now (set_timers rest st)) else st
  end.

Fixpoint fireTimers_datetime (n : nat) (now : Z) (st : State) : State :=
  match n with
  | O => st
  | S n' => fireTimers_datetime n' now (fireTimer_datetime now st)
  end.
End DatetimeSort.

(** *** The event loop *)

(** What happens to the extension, one task at a time: the page appends a
    batch of cards, the oldest timer fires, or a request arrives.  Each
    task ends with the observer receiving the records queued during it. *)
Inductive Event : Type :=
| PageAppends (cards : list JobCard)
| TimerFires
| MessageArrives (request : MessageRequest).

Definition step (now : Z) (e : Event) (st : State) : State :=
  match e with
  | PageAppends cards => pageAppends now cards st
  | TimerFires => fireTimer now st
  | MessageArrives request => notifyObserver now (fst (fst (onMessage now request st)))
  end.

(** A run of tasks, each with the clock reading at which it happens. *)
Fixpoint run (events : list (Z * Event)) (st : State) : State :=
  match events with
  | [] => st
  | (now, e) :: rest => run rest (step now e st)
  end.

(** The tasks in which the page appends the batches of a burst. *)
Definition insertions (burst : list (Z * list JobCard)) : list (Z * Event) :=
  List.map (fun b => (fst b, PageAppends (snd b))) burst.

(** ** Sample cards *)

(** A list item with a footer holding the given state text and a [time]
    element holding the given time text. *)
Definition sampleCard (r : ElemRef) (stateText timeText : option string) : JobCard :=
  {| ref := r;
     node :=
       ElementNode "li" ["job-card"] [("data-occludable-job-id", "1")]
         [ ElementNode "div" ["job-card-container__footer-wrapper"] []
             (match stateText with
              | Some t => [ElementNode "li" ["job-card-container__footer-job-state"] [] [TextNode t]]
              | None => []
              end ++
              match timeText with
              | Some t => [ElementNode "time" [] [] [TextNode t]]
              | None => []
              end)%list ] |}.

(** ** Relative order *)

(** [before x y l]: [x] occurs in [l] at a position with [y] somewhere
    after it. *)
Fixpoint before {A : Type} (x y : A) (l : list A) : Prop :=
  match l with
  | [] => False
  | z :: l' => (z = x /\ In y l') \/ before x y l'
  end.

(** ** Notions the properties are stated with *)

(** The text of the status fragment and of the time fragment of a card,
    when it has one. *)
Definition stateText (jobCard : Node) : option string :=
  match stateEl jobCard with
  | Some el => Some (textContent el)
  | None => None
  end.

Definition timeText (jobCard : Node) : option string :=
  match timeEl jobCard with
  | Some el => Some (textContent el)
  | None => None
  end.

(** The descendants of a node, in document order. *)
Fixpoint descendants (n : Node) : list Node :=
  match n with
  | TextNode _ => []
  | ElementNode _ _ _ children =>
      (fix all (l : list Node) : list Node :=
         match l with
         | [] => []
         | c :: l' => (c :: descendants c ++ all l')%list
         end) children
  end.

(** The status fragment of an item, read off the tree of the item without
    [querySelector]: among the descendants of the item the first, in
    document order, of class [job-card-container__footer-wrapper] is the
    footer; among the descendants of the footer the first of class
    [job-card-container__footer-job-state] is the status fragment.  Its
    text is the text of the claims. *)
Definition statusFragment (jobCard : Node) : option Node :=
  match List.find (matches footerSelector) (descendants jobCard) with
  | Some footer => List.find (matches stateSelector) (descendants footer)
  | None => None
  end.

Definition statusFragmentText (jobCard : Node) : option string :=
  match statusFragment jobCard with
  | Some el => Some (textContent el)
  | None => None
  end.

(** The ledger [sortJobs] compares with: captured on the spot when it is
    empty. *)
Definition ledgerAtSort (st : State) : gmap ElemRef nat :=
  originalOrder (if Nat.eqb (size (originalOrder st)) 0 then captureOriginalOrder st else st).

(** The comparator [sortJobs] hands to [sort] under the settings of [st]. *)
Definition comparator (now : Z) (st : State) : JobCard -> JobCard -> Number :=
  if String.eqb (sortBy (settings st)) "default"
  then compareOriginal (ledgerAtSort st)
  else compareJobs now (sortBy (settings st)).

(** Two cards have equal rank when the comparator answers neither
    "less" nor "greater". *)
Definition equalRank (now : Z) (st : State) (a b : JobCard) : Prop :=
  Number_pos (comparator now st a b) = false /\ Number_neg (comparator now st a b) = false.

(** The policy named by the settings, and a state with another policy. *)
Definition policy (st : State) : string := sortBy (settings st).

Definition withPolicy (p : string) (st : State) : State :=
  set_settings {| sortBy := p; appliedAction := appliedAction (settings st);
                  highlightViewed := highlightViewed (settings st) |} st.

(** The four policies of [types.ts]. *)
Definition policies : list string := ["default"; "recent"; "viewed-first"; "viewed-last"].

(** The cards of a page are distinct elements. *)
Definition distinctCards (st : State) : Prop := List.NoDup (List.map ref (document st)).

(** *** [sort] as the language fixes it *)

(** [Array_sort] is one stable sort.  For every engine the language fixes
    this much: the result is a rearrangement of the array, and when the
    comparator is consistent, so that its answers are the order of one
    key, the result is sorted by that key and keeps the elements of equal
    key in their order.  For a comparator that answers otherwise (NaN against elements
    that differ among themselves, or answers that change between calls)
    the order of the result is up to the engine. *)
Section SortContract.
Context {A : Type}.

(** [answers a b v]: a call of the comparator on [a] and [b] made during
    the sort may return [v]. *)
Variable answers : A -> A -> Number -> Prop.

(** The comparator is consistent on [l], ordering it by [key]: a pair of
    elements gets the same answer at every call, and the answer is the
    order of the keys. *)
Definition follows (key : A -> Z) (l : list A) : Prop :=
  (forall a b v v', In a l -> In b l -> answers a b v -> answers a b v' -> v = v')
  /\ forall a b v, In a l -> In b l -> answers a b v ->
       Number_pos v = (key b <? key a) /\ Number_neg v = (key a <? key b).

(** [l.sort(cmp)] may leave [result]. *)
Definition mayReturn (l result : list A) : Prop :=
  Permutation result l
  /\ forall key, follows key l ->
       StronglySorted (fun x y => key x <= key y) result
       /\ forall x y, before x y l -> key x = key y -> before x y result.
End SortContract.

(** The answers of the comparator of [sortJobs] during a sort in which
    every reading of the clock lies between [now] and [now + span]. *)
Definition answersAt (now span : Z) (policy : string) (a b : JobCard) (v : Number) : Prop :=
  exists nowA nowB,
    now <= nowA <= now + span /\ now <= nowB <= now + span
    /\ v = compareJobsAt nowA nowB policy a b.

(** [sortJobs()] with the sort of any engine and a clock that moves
    during the sort: [sortJobsMay now span st st'] when the call may leave
    [st'].  [sortJobs now st] is the case of [Array_sort] and a clock that
    stands at [now]. *)
Definition sortJobsMay (now span : Z) (st st' : State) : Prop :=
  match document st with
  | [] => st' = st
  | _ :: _ =>
      let jobs := document st in
      let st1 := if Nat.eqb (size (originalOrder st)) 0 then captureOriginalOrder st else st in
      if String.eqb (sortBy (settings st1)) "default" then
        exists sortedJobs,
          mayReturn (fun a b v => v = compareOriginal (originalOrder st1) a b) jobs sortedJobs
          /\ st' = appendAll sortedJobs st1
      else
        exists sortedJobs,
          mayReturn (answersAt now span (sortBy (settings st1))) jobs sortedJobs
          /\ st' = if String.eqb (sortBy (settings st1)) "recent"
                   then appendAll (rev sortedJobs) st1
                   else appendAll sortedJobs st1
  end.

(** The answers the comparator of [sortJobs] may give under the settings
    of [st]: the comparator of [default] does not read the clock. *)
Definition answersOf (now span : Z) (st : State) : JobCard -> JobCard -> Number -> Prop :=
  if String.eqb (sortBy (settings st)) "default"
  then fun a b v => v = compareOriginal (ledgerAtSort st) a b
  else answersAt now span (sortBy (settings st)).

(** The card classifies as viewed. *)
Definition isViewed (now : Z) (job : JobCard) : bool :=
  JobStatus_eqb (status (getJobStatus now (node job))) Viewed.

(** The key the [recent] comparator orders by: the time value, with the
    cards without a time below every time value. *)
Definition recentKey (now : Z) (job : JobCard) : Z :=
  match time (getJobStatus now (node job)) with
  | None => - maxTimeValue - 1
  | Some (ValidDate t) => t
  | Some InvalidDate => 0
  end.

(** [needle] occurs in [s]. *)
Definition Contains (needle s : string) : Prop :=
  exists pre post, s = pre ++ needle ++ post.

(** The three markers, and the markers the settings ask for on a card of
    the given status. *)
Definition markers : list string := [viewedMarker; appliedMarker; hiddenMarker].

Definition isMarker (token : string) : bool := hasToken token markers.

Definition markersFor (s : ExtensionSettings) (st : JobStatus) : list string :=
  match st with
  | Viewed => if highlightViewed s then [viewedMarker] else []
  | Applied =>
      if String.eqb (appliedAction s) "hide" then [hiddenMarker]
      else if String.eqb (appliedAction s) "dim" then [appliedMarker]
      else []
  | Normal => []
  end.

(** *** Patterns and relative durations, in words *)

Fixpoint allChars (p : ascii -> bool) (s : string) : bool :=
  match s with
  | EmptyString => true
  | String c s' => p c && allChars p s'
  end.

(** [Matches ic r w caps]: the pattern [r] can consume exactly [w], the
    groups closed on the way capturing [caps]. *)
Inductive Matches (ic : bool) : Regex -> string -> list string -> Prop :=
| Matches_Empty : Matches ic Empty EmptyString []
| Matches_Chr cc c :
    classMatches ic cc c = true -> Matches ic (Chr cc) (String c EmptyString) []
| Matches_Seq r1 r2 w1 w2 c1 c2 :
    Matches ic r1 w1 c1 -> Matches ic r2 w2 c2 ->
    Matches ic (Seq r1 r2) (w1 ++ w2) (c1 ++ c2)%list
| Matches_AltL r1 r2 w c : Matches ic r1 w c -> Matches ic (Alt r1 r2) w c
| Matches_AltR r1 r2 w c : Matches ic r2 w c -> Matches ic (Alt r1 r2) w c
| Matches_Plus cc w :
    w <> EmptyString -> allChars (classMatches ic cc) w = true -> Matches ic (Plus cc) w []
| Matches_OptSome r w c : Matches ic r w c -> Matches ic (Opt r) w c
| Matches_OptNone r : Matches ic (Opt r) EmptyString []
| Matches_Group r w c : Matches ic r w c -> Matches ic (Group r) w (c ++ [w])%list.

Inductive TimeUnit : Type := Minute | Hour | Day | Week.

Definition unitName (u : TimeUnit) : string :=
  match u with
  | Minute => "minute"
  | Hour => "hour"
  | Day => "day"
  | Week => "week"
  end.

Definition unitSeconds (u : TimeUnit) : Z :=
  match u with
  | Minute => 60
  | Hour => 3600
  | Day => 24 * 3600
  | Week => 7 * 24 * 3600
  end.

(** [line] reads, right after [pre]: an integer, white space, the name of
    [u] with an optional "s", white space and "ago", the letters in either
    case; [value] is the integer. *)
Definition DurationAt (line pre : string) (value : Z) (u : TimeUnit) : Prop :=
  exists digits ws1 w sfx ws2 a post,
    line = pre ++ digits ++ ws1 ++ w ++ sfx ++ ws2 ++ a ++ post
    /\ digits <> EmptyString /\ allChars isDigit digits = true
    /\ ws1 <> EmptyString /\ allChars isWhiteSpace ws1 = true
    /\ toLowerCase w = unitName u
    /\ (sfx = EmptyString \/ toLowerCase sfx = "s")
    /\ ws2 <> EmptyString /\ allChars isWhiteSpace ws2 = true
    /\ toLowerCase a = "ago"
    /\ value = parseInt digits.

(** The leftmost relative duration of a line, and a line without one. *)
Definition FirstDuration (line : string) (value : Z) (u : TimeUnit) : Prop :=
  exists pre,
    DurationAt line pre value u
    /\ forall pre' value' u', DurationAt line pre' value' u' ->
                              (String.length pre <= String.length pre')%nat.






(** *** Notions for the further properties *)

(** The card has an entry in the ledger; its index as an integer. *)
Definition isRecorded (order : gmap ElemRef nat) (job : JobCard) : bool :=
  match order !! ref job with
  | Some _ => true
  | None => false
  end.

Definition indexKey (order : gmap ElemRef nat) (job : JobCard) : Z :=
  match order !! ref job with
  | Some i => Z.of_nat i
  | None => -1
  end.

(** No card of the list has a time; no card has an invalid date. *)
Definition allUndated (now : Z) (jobs : list JobCard) : Prop :=
  forall job, In job jobs -> time (getJobStatus now (node job)) = None.

Definition datesValid (now : Z) (jobs : list JobCard) : Prop :=
  forall job, In job jobs -> time (getJobStatus now (node job)) <> Some InvalidDate.

(** The classes of a card that are not markers. *)
Definition ownClasses (job : JobCard) : list string :=
  List.filter (fun t => negb (isMarker t)) (classList (node job)).

(** The cards a task brings to the page. *)
Definition appended (e : Event) : list JobCard :=
  match e with
  | PageAppends cards => cards
  | TimerFires | MessageArrives _ => []
  end.

(** [n] timer tasks, the first when the clock reads [now], each 100 ms
    after the one before. *)
Fixpoint ticks (n : nat) (now : Z) : list (Z * Event) :=
  match n with
  | O => []
  | S n' => (now, TimerFires) :: ticks n' (now + 100)
  end.

(** The cards of a list that classify as [st]; the requests of the popup. *)
Definition withStatus (now : Z) (st : JobStatus) (jobs : list JobCard) : list JobCard :=
  List.filter (fun job => JobStatus_eqb (status (getJobStatus now (node job))) st) jobs.

Definition applyRequest (s : ExtensionSettings) : MessageRequest :=
  {| type := "applySettings"; payload := Some s |}.

Definition statsRequest : MessageRequest :=
  {| type := "getStats"; payload := None |}.

(** The text of a card: the text of all its descendants. *)
Definition cardText (job : JobCard) : string := textContent (node job).

(** [d] is a descendant of [n]: a child of [n] or a descendant of one. *)
Inductive Descendant (d : Node) : Node -> Prop :=
| Descendant_child name cl attrs children :
    In d children -> Descendant d (ElementNode name cl attrs children)
| Descendant_deeper name cl attrs children c :
    In c children -> Descendant d c -> Descendant d (ElementNode name cl attrs children).

(** For the revision that reads the [datetime] attribute: the key its
    [recent] comparator orders by, with the cards without a time above
    every time value; and a page whose dates are all valid ones, within
    the range of time values. *)
Definition recentKey_datetime (parseDate : string -> Date) (job : JobCard) : Z :=
  match time (getJobStatus_datetime parseDate (node job)) with
  | None => maxTimeValue + 1
  | Some (ValidDate t) => t
  | Some InvalidDate => 0
  end.

Definition datesValid_datetime (parseDate : string -> Date) (jobs : list JobCard) : Prop :=
  forall job, In job jobs ->
    match time (getJobStatus_datetime parseDate (node job)) with
    | None => True
    | Some (ValidDate t) => Z.abs t <= maxTimeValue
    | Some InvalidDate => False
    end.

(** ** [popup.ts] *)

(** The popup of the extension: its variables, the elements of its page it
    looks up by id, and the parts of the browser it talks to.  The form
    (the select, the check box and the radio buttons) is what the user sees
    when a handler reads it, so the handlers take it as an input;
    [updateUIFromSettings], which writes it, and the theme functions are
    left out. *)
Module Popup.

(** *** [JSON.stringify] *)

Definition quotationMark : ascii := ascii_of_N 34.
Definition reverseSolidus : ascii := ascii_of_N 92.

Definition hexDigit (n : N) : ascii :=
  if (n <? 10)%N then ascii_of_N (48 + n) else ascii_of_N (87 + n).

(** One code unit of a quoted string: the short escapes, [\u00xx] for the
    other control characters, the code unit itself otherwise. *)
Definition escapeChar (c : ascii) : string :=
  let n := code c in
  if (n =? 8)%N then String reverseSolidus "b"
  else if (n =? 9)%N then String reverseSolidus "t"
  else if (n =? 10)%N then String reverseSolidus "n"
  else if (n =? 12)%N then String reverseSolidus "f"
  else if (n =? 13)%N then String reverseSolidus "r"
  else if (n =? 34)%N then String reverseSolidus (String quotationMark EmptyString)
  else if (n =? 92)%N then String reverseSolidus (String reverseSolidus EmptyString)
  else if (n <? 32)%N then
    String reverseSolidus
      (String "u" (String "0" (String "0"
         (String (hexDigit (n / 16)) (String (hexDigit (n mod 16)) EmptyString)))))
  else String c EmptyString.

Fixpoint escapeString (s : string) : string :=
  match s with
  | EmptyString => EmptyString
  | String c s' => escapeChar c ++ escapeString s'
  end.

Definition quoteJSONString (s : string) : string :=
  String quotationMark (escapeString s ++ String quotationMark EmptyString).

(** [JSON.stringify(settings)]: the three keys in the order in which the
    object got them, no white space. *)
Definition JSON_stringify (s : ExtensionSettings) : string :=
  "{" ++ quoteJSONString "sortBy" ++ ":" ++ quoteJSONString (sortBy s)
  ++ "," ++ quoteJSONString "appliedAction" ++ ":" ++ quoteJSONString (appliedAction s)
  ++ "," ++ quoteJSONString "highlightViewed" ++ ":"
  ++ (if highlightViewed s then "true" else "false") ++ "}".

(** *** The page of the popup *)

Record Button : Type := { buttonText : string; background : string }.

(** The variables of the script; the elements [getElementById] finds, each
    absent or present with the property the script uses: the class list of
    [state-indicator], the text of [state-text], of the three counters and
    of [apply-btn] with its background; the [setTimeout] callbacks of
    [showSuccessFeedback] that are pending, each with its due time and the
    text it captured. *)
Record Page : Type := {
  currentSettings : ExtensionSettings;
  savedSettings : ExtensionSettings;
  hasChanges : bool;
  indicator : option (list string);
  stateText : option string;
  applyBtn : option Button;
  totalEl : option string;
  viewedEl : option string;
  appliedEl : option string;
  timeouts : list (Z * string)
}.

Definition set_currentSettings (x : ExtensionSettings) (p : Page) : Page :=
  {| currentSettings := x; savedSettings := savedSettings p; hasChanges := hasChanges p;
     indicator := indicator p; stateText := stateText p; applyBtn := applyBtn p;
     totalEl := totalEl p; viewedEl := viewedEl p; appliedEl := appliedEl p;
     timeouts := timeouts p |}.

Definition set_savedSettings (x : ExtensionSettings) (p : Page) : Page :=
  {| currentSettings := currentSettings p; savedSettings := x; hasChanges := hasChanges p;
     indicator := indicator p; stateText := stateText p; applyBtn := applyBtn p;
     totalEl := totalEl p; viewedEl := viewedEl p; appliedEl := appliedEl p;
     timeouts := timeouts p |}.

Definition set_hasChanges (x : bool) (p : Page) : Page :=
  {| currentSettings := currentSettings p; savedSettings := savedSettings p; hasChanges := x;
     indicator := indicator p; stateText := stateText p; applyBtn := applyBtn p;
     totalEl := totalEl p; viewedEl := viewedEl p; appliedEl := appliedEl p;
     timeouts := timeouts p |}.

Definition set_state (cl : list string) (text : string) (p : Page) : Page :=
  {| currentSettings := currentSettings p; savedSettings := savedSettings p;
     hasChanges := hasChanges p;
     indicator := Some cl; stateText := Some text; applyBtn := applyBtn p;
     totalEl := totalEl p; viewedEl := viewedEl p; appliedEl := appliedEl p;
     timeouts := timeouts p |}.

Definition set_applyBtn (x : Button) (due : list (Z * string)) (p : Page) : Page :=
  {| currentSettings := currentSettings p; savedSettings := savedSettings p;
     hasChanges := hasChanges p;
     indicator := indicator p; stateText := stateText p; applyBtn := Some x;
     totalEl := totalEl p; viewedEl := viewedEl p; appliedEl := appliedEl p;
     timeouts := due |}.

(** [if (el) el.textContent = text] *)
Definition setText (el : option string) (text : string) : option string :=
  match el with
  | Some _ => Some text
  | None => None
  end.

Definition set_counts (t v a : string) (p : Page) : Page :=
  {| currentSettings := currentSettings p; savedSettings := savedSettings p;
     hasChanges := hasChanges p;
     indicator := indicator p; stateText := stateText p; applyBtn := applyBtn p;
     totalEl := setText (totalEl p) t; viewedEl := setText (viewedEl p) v;
     appliedEl := setText (appliedEl p) a;
     timeouts := timeouts p |}.

(** *** The state indicator *)

(** [updateStateIndicator()] *)
Definition updateStateIndicator (p : Page) : Page :=
  match indicator p, stateText p with
  | Some cl, Some _ =>
      let cl := classList_remove ["active"; "pending"; "error"; "inactive"] cl in
      if hasChanges p then set_state (classList_add "pending" cl) "Pending" p
      else set_state (classList_add "active" cl) "Active" p
  | _, _ => p
  end.

(** [setErrorState()] *)
Definition setErrorState (p : Page) : Page :=
  match indicator p, stateText p with
  | Some cl, Some _ =>
      let cl := classList_remove ["active"; "pending"; "inactive"] cl in
      set_state (classList_add "error" cl) "Error" p
  | _, _ => p
  end.

(** [setInactiveState()] *)
Definition setInactiveState (p : Page) : Page :=
  match indicator p, stateText p with
  | Some cl, Some _ =>
      let cl := classList_remove ["active"; "pending"; "error"] cl in
      set_state (classList_add "inactive" cl) "Inactive" p
  | _, _ => p
  end.

(** *** The form *)

Record Radio : Type := { radioValue : string; radioChecked : bool }.

(** The value of [sort-by], the state of [highlight-viewed], each absent
    when the page has no such element, and the elements named
    [applied-action] in document order. *)
Record Form : Type := {
  sortBySelect : option string;
  highlightViewedCheckbox : option bool;
  appliedActionRadios : list Radio
}.

(** The loop over the radio buttons: the last checked one gives the
    value. *)
Definition selectedAppliedAction (radios : list Radio) : string :=
  fold_left (fun selected radio => if radioChecked radio then radioValue radio else selected)
            radios "normal".

(** [updateSettingsFromUI()]; [None] when reading a property of a missing
    element throws, which happens before any assignment. *)
Definition updateSettingsFromUI (form : Form) (p : Page) : option Page :=
  match sortBySelect form, highlightViewedCheckbox form with
  | Some value, Some checked =>
      let newSettings :=
        {| sortBy := value;
           appliedAction := selectedAppliedAction (appliedActionRadios form);
           highlightViewed := checked |} in
      let p := set_currentSettings newSettings p in
      let p := set_hasChanges
                 (negb (String.eqb (JSON_stringify (currentSettings p))
                                   (JSON_stringify (savedSettings p)))) p in
      Some (updateStateIndicator p)
  | _, _ => None
  end.

(** *** Feedback on the button *)

(** [showSuccessFeedback()] when the clock reads [now]. *)
Definition showSuccessFeedback (now : Z) (p : Page) : Page :=
  match applyBtn p with
  | None => p
  | Some btn =>
      let originalText :=
        if String.eqb (buttonText btn) EmptyString then "Apply Filters" else buttonText btn in
      set_applyBtn {| buttonText := "Applied!"; background := "#10b981" |}
                   (timeouts p ++ [(now + 1500, originalText)])%list p
  end.

(** The oldest pending callback of [showSuccessFeedback] runs if it is
    due. *)
Definition fireTimeout (now : Z) (p : Page) : Page :=
  match timeouts p, applyBtn p with
  | (due, originalText) :: rest, Some _ =>
      if due <=? now
      then set_applyBtn {| buttonText := originalText; background := EmptyString |} rest p
      else p
  | _, _ => p
  end.

(** *** The counters *)

(** The listener for the messages of the content script. *)
Definition onRuntimeMessage (request : RuntimeMessage) (p : Page) : Page :=
  match request with
  | StatsMessage stats =>
      set_counts (pretty (total stats)) (pretty (viewed stats)) (pretty (applied stats)) p
  end.

(** The callback of [loadStats] for the answer to [getStats]; a field the
    answer does not have shows as a dash. *)
Definition showStats (response : option MessageResponse) (p : Page) : Page :=
  match response with
  | None => p
  | Some (StatsResponse stats) =>
      set_counts (pretty (total stats)) (pretty (viewed stats)) (pretty (applied stats)) p
  | Some (SuccessResponse _) => set_counts "-" "-" "-" p
  end.

(** *** The browser around the popup *)

Record Tab : Type := { tabId : option Z; url : option string }.

(** [activeTab?.url?.includes('linkedin.com/jobs')] *)
Definition urlOnJobs (tabs : list Tab) : bool :=
  match tabs with
  | [] => false
  | activeTab :: _ =>
      match url activeTab with
      | Some u => includes u "linkedin.com/jobs"
      | None => false
      end
  end.

(** [activeTab?.id && activeTab.url?.includes('linkedin.com/jobs')] *)
Definition idAndUrlOnJobs (tabs : list Tab) : bool :=
  match tabs with
  | [] => false
  | activeTab :: _ =>
      match tabId activeTab with
      | Some id => negb (id =? 0) && urlOnJobs tabs
      | None => false
      end
  end.

(** The popup, the tabs [chrome.tabs.query] finds active in the current
    window, the settings in [chrome.storage.local], and the content script
    of the active tab when one is running there.  The content script reads
    and writes the same storage: its field [stored] is kept equal to
    [storage]. *)
Record Browser : Type := {
  popup : Page;
  tabs : list Tab;
  storage : option ExtensionSettings;
  contentScript : option State
}.

Definition set_popup (p : Page) (b : Browser) : Browser :=
  {| popup := p; tabs := tabs b; storage := storage b; contentScript := contentScript b |}.

(** [chrome.storage.local.set({ linkedinJobFilter: settings })] *)
Definition storageSet (s : ExtensionSettings) (b : Browser) : Browser :=
  {| popup := popup b; tabs := tabs b; storage := Some s;
     contentScript := option_map (set_stored (Some s)) (contentScript b) |}.

(** [chrome.tabs.sendMessage(activeTab.id, request, callback)]: the
    listener of the content script runs, its task ends, the messages it
    sent on the way reach the listener of the popup, and the callback gets
    the first answer; without a content script there is none. *)
Definition sendMessage (now : Z) (request : MessageRequest) (b : Browser)
  : Browser * option MessageResponse :=
  match contentScript b with
  | None => (b, None)
  | Some st =>
      let '(st', responses, _) := onMessage now request st in
      let st' := notifyObserver now st' in
      let messages := skipn (List.length (sent st)) (sent st') in
      ({| popup := fold_left (fun p m => onRuntimeMessage m p) messages (popup b);
          tabs := tabs b; storage := stored st'; contentScript := Some st' |},
       List.head responses)
  end.

(** [loadStats()] with its callbacks. *)
Definition loadStats (now : Z) (b : Browser) : Browser :=
  if idAndUrlOnJobs (tabs b) then
    let '(b, response) := sendMessage now statsRequest b in
    set_popup (showStats response (popup b)) b
  else b.

(** [response?.success] *)
Definition succeeded (response : option MessageResponse) : bool :=
  match response with
  | Some (SuccessResponse success) => success
  | _ => false
  end.

(** The callback of [applySettings] for the answer of the content script;
    the callbacks of the [loadStats] it starts run after it. *)
Definition onApplyResponse (now : Z) (response : option MessageResponse) (b : Browser)
  : Browser :=
  if succeeded response then
    let p := popup b in
    let p := set_savedSettings (currentSettings p) p in
    let p := set_hasChanges false p in
    let p := showSuccessFeedback now p in
    let p := updateStateIndicator p in
    loadStats now (set_popup p b)
  else set_popup (setErrorState (popup b)) b.

(** [applySettings()] with its callbacks, when the clock reads [now];
    [None] when [updateSettingsFromUI] throws. *)
Definition applySettings (now : Z) (form : Form) (b : Browser) : option Browser :=
  match updateSettingsFromUI form (popup b) with
  | None => None
  | Some p =>
      let b := storageSet (currentSettings p) (set_popup p b) in
      if idAndUrlOnJobs (tabs b) then
        let '(b, response) := sendMessage now (applyRequest (currentSettings p)) b in
        Some (onApplyResponse now response b)
      else Some (set_popup (setInactiveState (popup b)) b)
  end.

(** [checkTabStatus()] with its callback. *)
Definition checkTabStatus (b : Browser) : Browser :=
  if urlOnJobs (tabs b) then set_popup (updateStateIndicator (popup b)) b
  else set_popup (setInactiveState (popup b)) b.

(** The callback of [loadSettings] for the stored settings. *)
Definition onSettingsLoaded (b : Browser) : Browser :=
  match storage b with
  | Some loaded =>
      set_popup (set_savedSettings loaded (set_currentSettings loaded (popup b))) b
  | None => b
  end.

(** The popup opens: [loadSettings()], which starts [loadStats()], and
    [checkTabStatus()], then their callbacks in the order they were
    asked for. *)
Definition opened (now : Z) (b : Browser) : Browser :=
  checkTabStatus (loadStats now (onSettingsLoaded b)).

(** *** Notions for the properties of the popup *)

(** The four classes of the indicator, and those among the classes of an
    element. *)
Definition stateClasses : list string := ["active"; "pending"; "error"; "inactive"].

Definition shownStates (cl : list string) : list string :=
  List.filter (fun t => hasToken t stateClasses) cl.

(** What the indicator shows: its state classes and the text beside it,
    when both elements exist. *)
Definition shownState (p : Page) : option (list string * string) :=
  match indicator p, stateText p with
  | Some cl, Some text => Some (shownStates cl, text)
  | _, _ => None
  end.

(** What the three counters show, and what they show when those that
    exist show the counts [stats]. *)
Definition shownCounts (p : Page) : list (option string) :=
  [totalEl p; viewedEl p; appliedEl p].

Definition statsShown (stats : JobStats) (p : Page) : list (option string) :=
  [ setText (totalEl p) (pretty (total stats));
    setText (viewedEl p) (pretty (viewed stats));
    setText (appliedEl p) (pretty (applied stats)) ].

(** Reading one quoted code unit back from the front of a string. *)
Definition unhex (c : ascii) : option N :=
  let n := code c in
  if ((48 <=? n) && (n <=? 57))%N then Some (n - 48)%N
  else if ((97 <=? n) && (n <=? 102))%N then Some (n - 87)%N
  else None.

Definition unescapeChar (s : string) : option (ascii * string) :=
  match s with
  | EmptyString => None
  | String c rest =>
      if Ascii.eqb c quotationMark then None
      else if Ascii.eqb c reverseSolidus then
        match rest with
        | EmptyString => None
        | String e rest' =>
            if Ascii.eqb e "b" then Some (ascii_of_N 8, rest')
            else if Ascii.eqb e "t" then Some (ascii_of_N 9, rest')
            else if Ascii.eqb e "n" then Some (ascii_of_N 10, rest')
            else if Ascii.eqb e "f" then Some (ascii_of_N 12, rest')
            else if Ascii.eqb e "r" then Some (ascii_of_N 13, rest')
            else if Ascii.eqb e quotationMark then Some (quotationMark, rest')
            else if Ascii.eqb e reverseSolidus then Some (reverseSolidus, rest')
            else if Ascii.eqb e "u" then
              match rest' with
              | String _ (String _ (String h (String l r))) =>
                  match unhex h, unhex l with
                  | Some a, Some b => Some (ascii_of_N (16 * a + b), r)
                  | _, _ => None
                  end
              | _ => None
              end
            else None
        end
      else Some (c, rest)
  end.

(** The settings the form shows. *)
Definition formSettings (form : Form) : option ExtensionSettings :=
  match sortBySelect form, highlightViewedCheckbox form with
  | Some value, Some checked =>
      Some {| sortBy := value;
              appliedAction := selectedAppliedAction (appliedActionRadios form);
              highlightViewed := checked |}
  | _, _ => None
  end.

(** A page with all its elements, as the popup shows it before anything
    happened; a jobs tab and another tab; a form. *)
Definition samplePage : Page :=
  {| currentSettings := defaultSettings; savedSettings := defaultSettings;
     hasChanges := false;
     indicator := Some ["state-indicator"; "inactive"]; stateText := Some "Inactive";
     applyBtn := Some {| buttonText := "Apply Filters"; background := EmptyString |};
     totalEl := Some "-"; viewedEl := Some "-"; appliedEl := Some "-";
     timeouts := [] |}.

Definition jobsTab : Tab :=
  {| tabId := Some 7; url := Some "https://www.linkedin.com/jobs/search/" |}.

Definition otherTab : Tab :=
  {| tabId := Some 8; url := Some "https://example.org/" |}.

Definition sampleForm : Form :=
  {| sortBySelect := Some "viewed-first";
     highlightViewedCheckbox := Some false;
     appliedActionRadios :=
       [ {| radioValue := "normal"; radioChecked := false |};
         {| radioValue := "dim"; radioChecked := false |};
         {| radioValue := "hide"; radioChecked := true |} ] |}.

End Popup.

(** ** Sample pages *)

(** A clock reading, in milliseconds since the epoch. *)
Definition sampleNow : Z := 1700000000000.

Definition plainA : JobCard := sampleCard 1%nat None None.
Definition plainB : JobCard := sampleCard 2%nat None None.
Definition viewedB : JobCard := sampleCard 2%nat (Some " Viewed ") None.
Definition appliedC : JobCard := sampleCard 3%nat (Some "Applied") None.
Definition lateD : JobCard := sampleCard 4%nat None None.

Definition card10min : JobCard := sampleCard 11%nat None (Some "10 minutes ago").
Definition card2h : JobCard := sampleCard 12%nat None (Some "2 hours ago").
Definition card4h : JobCard := sampleCard 13%nat None (Some "4 hours ago").
Definition cardNoTime : JobCard := sampleCard 14%nat None None.

(** Cards with a [time] element carrying a [datetime] attribute, and the
    dates [new Date] reads from the two attribute values used. *)
Definition datedCard (r : ElemRef) (datetime : string) : JobCard :=
  {| ref := r;
     node :=
       ElementNode "li" ["job-card"] [("data-occludable-job-id", "1")]
         [ ElementNode "time" [] [("datetime", datetime)] [] ] |}.

Definition sampleParseDate (datetime : string) : Date :=
  if String.eqb datetime "2023-11-14T22:13:20.000Z" then ValidDate 1700000000000
  else if String.eqb datetime "2023-11-14T20:13:20.000Z" then ValidDate 1699992800000
  else InvalidDate.

Definition cardEvening : JobCard := datedCard 21%nat "2023-11-14T20:13:20.000Z".
Definition cardNight : JobCard := datedCard 22%nat "2023-11-14T22:13:20.000Z".

(** Cards whose [time] element carries both a [datetime] attribute and a
    relative time, as they stand on the page at [sampleNow], and the
    dates [new Date] reads from these attribute values. *)
Definition stampedCard (r : ElemRef) (datetime text : string) : JobCard :=
  {| ref := r;
     node :=
       ElementNode "li" ["job-card"] [("data-occludable-job-id", "1")]
         [ ElementNode "div" ["job-card-container__footer-wrapper"] []
             [ ElementNode "time" [] [("datetime", datetime)] [TextNode text] ] ] |}.

Definition parseStamp (datetime : string) : Date :=
  if String.eqb datetime "2023-11-14T22:03:20.000Z" then ValidDate 1699999400000
  else if String.eqb datetime "2023-11-14T20:13:20.000Z" then ValidDate 1699992800000
  else if String.eqb datetime "2023-11-14T18:13:20.000Z" then ValidDate 1699985600000
  else InvalidDate.

Definition stamped10min : JobCard :=
  stampedCard 31%nat "2023-11-14T22:03:20.000Z" "10 minutes ago".
Definition stamped2h : JobCard :=
  stampedCard 32%nat "2023-11-14T20:13:20.000Z" "2 hours ago".
Definition stamped4h : JobCard :=
  stampedCard 33%nat "2023-11-14T18:13:20.000Z" "4 hours ago".

(** A second card reading "2 hours ago", and a card whose relative time
    lies beyond the range of dates. *)
Definition card2hToo : JobCard := sampleCard 15%nat None (Some "2 hours ago").
Definition cardOutOfRange : JobCard :=
  sampleCard 16%nat None (Some "99999999999 weeks ago").

(** The extension just started on a page with the given cards, the
    observer attached, and the policy set to [p]. *)
Definition started (p : string) (cards : list JobCard) : State :=
  withPolicy p (init sampleNow true (newExtension cards None)).

(** A browser with the popup just opened on the given tab, nothing stored,
    and the given content script, if any, in the tab. *)
Definition sampleBrowser (tab : Popup.Tab) (script : option State) : Popup.Browser :=
  {| Popup.popup := Popup.samplePage; Popup.tabs := [tab];
     Popup.storage := None; Popup.contentScript := script |}.

(** * Properties *)

(** ** Lists *)

Section Before.
Context {A : Type}.
Implicit Types (x y z : A) (l : list A).

Lemma before_app x y l1 l2 :
  before x y (l1 ++ l2) <-> before x y l1 \/ before x y l2 \/ (In x l1 /\ In y l2).
Proof.
  induction l1 as [|z l1 IH]; simpl.
  - tauto.
  - rewrite IH, in_app_iff. intuition (subst; auto).
Qed.

Lemma before_split x y l :
  before x y l <-> exists l1 l2 l3, l = (l1 ++ x :: l2 ++ y :: l3)%list.
Proof.
  split.
  - induction l as [|z l IH]; simpl; [tauto|].
    intros [[-> Hy] | H].
    + apply in_split in Hy as (l2 & l3 & ->). by exists [], l2, l3.
    + destruct (IH H) as (l1 & l2 & l3 & ->). by exists (z :: l1), l2, l3.
  - intros (l1 & l2 & l3 & ->). apply before_app. right; left. simpl. left.
    split; [done|]. apply in_app_iff. right. by left.
Qed.

Lemma before_In x y l : before x y l -> In x l /\ In y l.
Proof.
  induction l as [|z l IH]; simpl; [tauto|]. intros [[-> Hy] | H]; [auto|].
  destruct (IH H). auto.
Qed.

Lemma before_rev x y l : before x y (rev l) <-> before y x l.
Proof.
  induction l as [|z l IH]; simpl; [tauto|].
  rewrite before_app, IH. simpl. rewrite <- in_rev. intuition (subst; auto).
Qed.

Lemma before_asym x y l : List.NoDup l -> before x y l -> ~ before y x l.
Proof.
  induction 1 as [|z l Hz Hnd IH]; simpl; [tauto|].
  intros H1 H2.
  assert (forall a b, before a b l -> In a l /\ In b l) as Hin by (intros; by apply before_In).
  destruct H1 as [[-> Hy] | H1]; destruct H2 as [[E Hx] | H2]; subst.
  - tauto.
  - apply Hin in H2. tauto.
  - apply Hin in H1. tauto.
  - tauto.
Qed.
End Before.

(** ** [Array.prototype.sort] *)

Section ArraySortFacts.
Context {A : Type}.
Variable cmp : A -> A -> Number.
Implicit Types (x y : A) (l : list A).

(** Insertion puts [x] after the elements it compares greater than and
    before the first one it does not. *)
Lemma insertSorted_split x l :
  exists l1 l2, l = (l1 ++ l2)%list /\ insertSorted cmp x l = (l1 ++ x :: l2)%list
    /\ Forall (fun y => Number_pos (cmp x y) = true) l1.
Proof.
  induction l as [|y l IH]; simpl.
  - by exists [], [].
  - destruct (Number_pos (cmp x y)) eqn:E.
    + destruct IH as (l1 & l2 & -> & -> & Hall). exists (y :: l1), l2. auto.
    + by exists [], (y :: l).
Qed.

Lemma insertSorted_Permutation x l : Permutation (insertSorted cmp x l) (x :: l).
Proof.
  destruct (insertSorted_split x l) as (l1 & l2 & -> & -> & _).
  symmetry. apply Permutation_middle.
Qed.

Lemma Array_sort_Permutation l : Permutation (Array_sort cmp l) l.
Proof.
  induction l as [|x l IH]; simpl; [done|].
  rewrite insertSorted_Permutation. by constructor.
Qed.

Lemma Array_sort_In x l : In x (Array_sort cmp l) <-> In x l.
Proof.
  split; apply Permutation_in; [|symmetry]; apply Array_sort_Permutation.
Qed.

(** The sort is stable: an element stays ahead of every later element it
    does not compare greater than. *)
Lemma Array_sort_stable x y l :
  before x y l -> Number_pos (cmp x y) = false -> before x y (Array_sort cmp l).
Proof.
  intros H Hxy. induction l as [|z l IH]; simpl in *; [tauto|].
  destruct (insertSorted_split z (Array_sort cmp l)) as (l1 & l2 & E & -> & Hall).
  apply before_app. destruct H as [[-> Hy] | H].
  - apply (proj2 (Array_sort_In _ _)) in Hy. rewrite E in Hy. apply in_app_iff in Hy as [Hy | Hy].
    + rewrite List.Forall_forall in Hall. apply Hall in Hy. congruence.
    + right; left. simpl. auto.
  - specialize (IH H). rewrite E in IH. apply before_app in IH as [? | [? | [? ?]]].
    + by left.
    + right; left. simpl. auto.
    + right; right. simpl. auto.
Qed.

(** When the comparator agrees with the order of an integer key, the
    result is sorted by the key. *)
Lemma insertSorted_sorted (key : A -> Z) x s :
  (forall y, In y s -> Number_pos (cmp x y) = (key y <? key x)) ->
  StronglySorted (fun x y => key x <= key y) s ->
  StronglySorted (fun x y => key x <= key y) (insertSorted cmp x s).
Proof.
  intros H Hs. induction Hs as [|y s Hs IH Hy]; simpl.
  - constructor; constructor.
  - rewrite H by (simpl; auto). destruct (key y <? key x) eqn:E.
    + apply Z.ltb_lt in E. constructor; [apply IH; intros; apply H; simpl; auto|].
      destruct (insertSorted_split x s) as (l1 & l2 & -> & -> & _).
      apply List.Forall_app in Hy as [? ?]. apply List.Forall_app. split; [done|].
      constructor; [lia | done].
    + apply Z.ltb_ge in E. constructor; [by constructor|].
      constructor; [done|]. eapply List.Forall_impl; [|exact Hy]. simpl. intros; lia.
Qed.

Lemma Array_sort_sorted (key : A -> Z) l :
  (forall x y, In x l -> In y l -> Number_pos (cmp x y) = (key y <? key x)) ->
  StronglySorted (fun x y => key x <= key y) (Array_sort cmp l).
Proof.
  induction l as [|x l IH]; simpl; intros H; [constructor|].
  apply insertSorted_sorted.
  - intros y Hy. apply (proj1 (Array_sort_In _ _)) in Hy. apply H; simpl; auto.
  - apply IH. intros; apply H; simpl; auto.
Qed.
(** An array already in the order of the comparator stays as it is. *)
Lemma Array_sort_ordered l :
  (forall x y, before x y l -> Number_pos (cmp x y) = false) -> Array_sort cmp l = l.
Proof.
  induction l as [|x l IH]; simpl; [done|]. intros H.
  rewrite IH by (intros; apply H; simpl; auto).
  destruct l as [|y l]; simpl; [done|].
  rewrite H; simpl; auto.
Qed.

Lemma sorted_of_before (R : A -> A -> Prop) l :
  (forall x y, before x y l -> R x y) -> StronglySorted R l.
Proof.
  induction l as [|x l IH]; intros H; constructor.
  - apply IH. intros; apply H; simpl; auto.
  - apply List.Forall_forall. intros y Hy. apply H. simpl. auto.
Qed.

Lemma before_of_sorted (R : A -> A -> Prop) l x y :
  StronglySorted R l -> before x y l -> R x y.
Proof.
  induction 1 as [|z l Hs IH Hz]; simpl; [tauto|].
  intros [[-> Hy] | H]; [|auto]. rewrite List.Forall_forall in Hz. auto.
Qed.

(** For a comparator that follows the order of a key, the result is the
    only arrangement of the array that is sorted by the key and keeps the
    elements of equal key in their order: whatever stable sort the engine
    runs, this is what it returns. *)
Lemma Array_sort_canonical (key : A -> Z) l l' :
  (forall x y, In x l -> In y l -> Number_pos (cmp x y) = (key y <? key x)) ->
  List.NoDup l ->
  Permutation l' l ->
  StronglySorted (fun x y => key x <= key y) l' ->
  (forall x y, before x y l -> key x = key y -> before x y l') ->
  l' = Array_sort cmp l.
Proof.
  intros Hkey Hnd Hperm Hsorted Hstable.
  set (R := fun x y => key x < key y \/ (key x = key y /\ before x y l)).
  assert (Hord : forall x y, In x l -> In y l -> x <> y -> before x y l \/ before y x l).
  { clear. induction l as [|z l IH]; simpl; [tauto|].
    intros x y [-> | Hx] [-> | Hy] Hne; try tauto.
    destruct (IH x y Hx Hy Hne); tauto. }
  assert (Hfine : forall s, Permutation s l ->
            StronglySorted (fun x y => key x <= key y) s ->
            (forall x y, before x y l -> key x = key y -> before x y s) ->
            StronglySorted R s).
  { intros s Hp Hs Hst. apply sorted_of_before. intros x y Hxy.
    pose proof (before_of_sorted _ _ _ _ Hs Hxy) as Hle. cbv beta in Hle.
    destruct (Z.eq_dec (key x) (key y)) as [E | Hne]; [|left; lia].
    right. split; [done|].
    assert (Hnds : List.NoDup s) by (eapply Permutation_NoDup; [symmetry|]; eassumption).
    pose proof (before_In _ _ _ Hxy) as [Hx Hy].
    assert (x <> y) as Hneq.
    { intros ->. clear -Hnds Hxy. induction Hnds as [|z s Hz Hnds IH]; simpl in Hxy; [tauto|].
      destruct Hxy as [[-> Hy] | H]; tauto. }
    destruct (Hord x y) as [H | H]; try done; try (eapply Permutation_in; eassumption).
    exfalso. apply (before_asym x y s Hnds Hxy). apply Hst; [done | lia]. }
  apply (StronglySorted_unique_strong R).
  - intros x y Hx Hy [H1 | [E1 H1]] [H2 | [E2 H2]]; try lia.
    exfalso. by apply (before_asym x y l Hnd).
  - by apply Hfine.
  - apply Hfine.
    + apply Array_sort_Permutation.
    + by apply Array_sort_sorted.
    + intros x y Hxy E. apply Array_sort_stable; [done|].
      pose proof (before_In _ _ _ Hxy) as [Hx Hy]. rewrite Hkey by done.
      apply Z.ltb_ge. lia.
  - rewrite Hperm. symmetry. apply Array_sort_Permutation.
Qed.
End ArraySortFacts.

(** ** [Array_sort] among the sorts of the engines *)

Section SortContractFacts.
Context {A : Type}.
Variable answers : A -> A -> Number -> Prop.
Variable cmp : A -> A -> Number.
Hypothesis cmp_answers : forall a b, answers a b (cmp a b).

(** What [Array_sort] returns, an engine may return. *)
Lemma Array_sort_mayReturn (l : list A) : mayReturn answers l (Array_sort cmp l).
Proof.
  split; [apply Array_sort_Permutation|]. intros key Hkey. split.
  - apply Array_sort_sorted. intros x y Hx Hy.
    exact (proj1 (proj2 Hkey x y _ Hx Hy (cmp_answers x y))).
  - intros x y Hxy E. apply Array_sort_stable; [done|].
    pose proof (before_In _ _ _ Hxy) as [Hx Hy].
    rewrite (proj1 (proj2 Hkey x y _ Hx Hy (cmp_answers x y))). apply Z.ltb_ge. lia.
Qed.

(** When the answers follow a key, no engine returns anything else. *)
Lemma mayReturn_Array_sort (key : A -> Z) (l l' : list A) :
  follows answers key l -> List.NoDup l -> mayReturn answers l l' -> l' = Array_sort cmp l.
Proof.
  intros Hkey Hnd [Hperm Hall]. destruct (Hall key Hkey) as [Hs Hst].
  apply (Array_sort_canonical cmp key); try done.
  intros x y Hx Hy. exact (proj1 (proj2 Hkey x y _ Hx Hy (cmp_answers x y))).
Qed.

(** Elements the comparator ranks equal have equal keys. *)
Lemma follows_equal_rank (key : A -> Z) (l : list A) x y :
  follows answers key l -> In x l -> In y l ->
  Number_pos (cmp x y) = false -> Number_neg (cmp x y) = false -> key x = key y.
Proof.
  intros Hkey Hx Hy Hp Hn. destruct (proj2 Hkey x y _ Hx Hy (cmp_answers x y)) as [E1 E2].
  rewrite Hp in E1. rewrite Hn in E2. symmetry in E1, E2.
  apply Z.ltb_ge in E1, E2. lia.
Qed.
End SortContractFacts.

(** ** Moving the cards *)

Lemma appendChild_document job st :
  document (appendChild job st)
  = (List.filter (fun j => negb (Nat.eqb (ref j) (ref job))) (document st) ++ [job])%list.
Proof. unfold appendChild. simpl. by destruct (observing st). Qed.

Lemma appendChild_kept job st :
  settings (appendChild job st) = settings st
  /\ originalOrder (appendChild job st) = originalOrder st
  /\ timers (appendChild job st) = timers st
  /\ sent (appendChild job st) = sent st
  /\ observing (appendChild job st) = observing st.
Proof. destruct st as [? ? ? ? ? ? ? [|] ?]; unfold appendChild; simpl; done. Qed.

Lemma appendAll_kept jobs st :
  settings (appendAll jobs st) = settings st
  /\ originalOrder (appendAll jobs st) = originalOrder st
  /\ timers (appendAll jobs st) = timers st
  /\ sent (appendAll jobs st) = sent st
  /\ observing (appendAll jobs st) = observing st.
Proof.
  revert st. induction jobs as [|job jobs IH]; intros st; simpl; [done|].
  destruct (IH (appendChild job st)) as (-> & -> & -> & -> & ->).
  apply appendChild_kept.
Qed.

(** The cards that are not moved keep their order at the front; the moved
    ones follow in the order of the moves. *)
Lemma appendAll_document jobs st :
  List.NoDup (List.map ref jobs) ->
  document (appendAll jobs st)
  = (List.filter (fun j => negb (existsb (Nat.eqb (ref j)) (List.map ref jobs))) (document st)
     ++ jobs)%list.
Proof.
  revert st. induction jobs as [|job jobs IH]; intros st Hnd; simpl.
  - rewrite app_nil_r. induction (document st) as [|j d IHd]; simpl; [done|]. by f_equal.
  - inversion Hnd as [|? ? Hjob Hnd']; subst. unfold appendAll in IH. rewrite IH by done.
    rewrite appendChild_document, List.filter_app. simpl.
    replace (existsb (Nat.eqb (ref job)) (List.map ref jobs)) with false.
    2:{ symmetry. apply not_true_is_false. intros H. apply existsb_exists in H as (r & Hr & E).
        apply Nat.eqb_eq in E. subst r. exact (Hjob Hr). }
    simpl. rewrite <- app_assoc. simpl. f_equal.
    induction (document st) as [|j d IHd]; simpl; [done|].
    destruct (Nat.eqb (ref j) (ref job)); simpl; [apply IHd|].
    destruct (existsb (Nat.eqb (ref j)) (List.map ref jobs)); simpl; [|f_equal]; apply IHd.
Qed.

(** Moving every card of the page, each once, leaves the page in the order
    of the moves. *)
Lemma appendAll_all jobs st :
  List.NoDup (List.map ref (document st)) ->
  Permutation jobs (document st) ->
  document (appendAll jobs st) = jobs.
Proof.
  intros Hnd Hp. rewrite appendAll_document.
  2:{ eapply Permutation_NoDup; [|exact Hnd]. symmetry. by apply Permutation_map. }
  replace (List.filter _ (document st)) with (@nil JobCard); [done|].
  symmetry. assert (Hin : forall j, In j (document st) -> In j jobs).
  { intros j. apply Permutation_in. by symmetry. }
  clear Hnd Hp. induction (document st) as [|j d IHd]; simpl; [done|].
  replace (existsb (Nat.eqb (ref j)) (List.map ref jobs)) with true.
  - simpl. apply IHd. intros; apply Hin; simpl; auto.
  - symmetry. apply existsb_exists. exists (ref j). split; [|apply Nat.eqb_refl].
    apply in_map, Hin. simpl; auto.
Qed.

(** ** What [sortJobs] leaves on the page *)

(** The ledger [sortJobs] sorts with: recorded on the spot when empty. *)
Lemma sortJobs_originalOrder now st :
  originalOrder (sortJobs now st)
  = match document st with
    | [] => originalOrder st
    | _ :: _ =>
        if Nat.eqb (size (originalOrder st)) 0
        then recordFrom 0 (document st) (originalOrder st)
        else originalOrder st
    end.
Proof.
  unfold sortJobs. destruct (document st) as [|j d] eqn:E; [done|].
  set (st' := if Nat.eqb (size (originalOrder st)) 0 then captureOriginalOrder st else st).
  assert (originalOrder st'
          = if Nat.eqb (size (originalOrder st)) 0
            then recordFrom 0 (j :: d) (originalOrder st) else originalOrder st) as <-.
  { subst st'. destruct (Nat.eqb _ 0); [|done]. unfold captureOriginalOrder. simpl. by rewrite E. }
  destruct (String.eqb (sortBy (settings st')) "default");
    [|destruct (String.eqb (sortBy (settings st')) "recent")];
    apply appendAll_kept.
Qed.

Lemma sortJobs_document now st :
  List.NoDup (List.map ref (document st)) ->
  document (sortJobs now st)
  = if String.eqb (sortBy (settings st)) "default" then
      Array_sort (compareOriginal (originalOrder (sortJobs now st))) (document st)
    else if String.eqb (sortBy (settings st)) "recent" then
      rev (Array_sort (compareJobs now "recent") (document st))
    else Array_sort (compareJobs now (sortBy (settings st))) (document st).
Proof.
  intros Hnd. rewrite sortJobs_originalOrder. unfold sortJobs.
  destruct (document st) as [|j d] eqn:E.
  { rewrite E. by repeat destruct (String.eqb _ _). }
  set (st' := if Nat.eqb (size (originalOrder st)) 0 then captureOriginalOrder st else st).
  assert (settings st' = settings st /\ document st' = j :: d
          /\ originalOrder st'
             = if Nat.eqb (size (originalOrder st)) 0
               then recordFrom 0 (j :: d) (originalOrder st) else originalOrder st)
    as (Hs & Hd & Ho).
  { subst st'. destruct (Nat.eqb _ 0); [|done]. unfold captureOriginalOrder. simpl. by rewrite E. }
  rewrite Hs, Ho.
  destruct (String.eqb (sortBy (settings st)) "default");
    [|destruct (String.eqb (sortBy (settings st)) "recent") eqn:Er].
  - apply appendAll_all; rewrite Hd; [done|]. apply Array_sort_Permutation.
  - apply String.eqb_eq in Er. rewrite Er.
    apply appendAll_all; rewrite Hd; [done|].
    rewrite <- Permutation_rev. apply Array_sort_Permutation.
  - apply appendAll_all; rewrite Hd; [done|]. apply Array_sort_Permutation.
Qed.

Lemma ledgerAtSort_sortJobs now st : originalOrder (sortJobs now st) = ledgerAtSort st.
Proof.
  rewrite sortJobs_originalOrder. unfold ledgerAtSort, captureOriginalOrder.
  destruct (Nat.eqb (size (originalOrder st)) 0) eqn:E; simpl.
  - by destruct (document st).
  - by destruct (document st).
Qed.

(** The page after [sortJobs]: the sorted array, reversed under [recent]. *)
Lemma sortJobs_page now st :
  distinctCards st ->
  document (sortJobs now st)
  = if String.eqb (policy st) "recent"
    then rev (Array_sort (comparator now st) (document st))
    else Array_sort (comparator now st) (document st).
Proof.
  intros Hnd. rewrite sortJobs_document by done. rewrite ledgerAtSort_sortJobs.
  unfold comparator, policy.
  destruct (String.eqb (sortBy (settings st)) "default") eqn:Ed.
  - apply String.eqb_eq in Ed. by rewrite Ed.
  - destruct (String.eqb (sortBy (settings st)) "recent") eqn:Er; [|done].
    apply String.eqb_eq in Er. by rewrite Er.
Qed.


(** ** The status policies are stable partitions *)

Lemma compareJobs_viewed_first now a b :
  compareJobs now "viewed-first" a b
  = if isViewed now a && negb (isViewed now b) then Num (-1)
    else if negb (isViewed now a) && isViewed now b then Num 1
    else Num 0.
Proof. reflexivity. Qed.

Lemma compareJobs_viewed_last now a b :
  compareJobs now "viewed-last" a b
  = if isViewed now a && negb (isViewed now b) then Num 1
    else if negb (isViewed now a) && isViewed now b then Num (-1)
    else Num 0.
Proof. reflexivity. Qed.

Lemma insertSorted_front {A : Type} (cmp : A -> A -> Number) x l :
  (forall y, In y l -> Number_pos (cmp x y) = false) -> insertSorted cmp x l = x :: l.
Proof. destruct l as [|y l]; simpl; [done|]. intros H. rewrite H; simpl; auto. Qed.

Lemma insertSorted_after {A : Type} (cmp : A -> A -> Number) x l1 l2 :
  (forall y, In y l1 -> Number_pos (cmp x y) = true) ->
  (forall y, In y l2 -> Number_pos (cmp x y) = false) ->
  insertSorted cmp x (l1 ++ l2) = (l1 ++ x :: l2)%list.
Proof.
  intros H1 H2. induction l1 as [|y l1 IH]; simpl.
  - by apply insertSorted_front.
  - rewrite H1 by (simpl; auto). f_equal. apply IH. intros; apply H1; simpl; auto.
Qed.

(** Under [viewed-first] the viewed cards come first and the others follow,
    each group in its order on the page; under [viewed-last] the groups
    swap. *)
Lemma viewed_first_partition now l :
  Array_sort (compareJobs now "viewed-first") l
  = (List.filter (isViewed now) l ++ List.filter (fun j => negb (isViewed now j)) l)%list.
Proof.
  induction l as [|x l IH]; cbn [Array_sort List.filter]; [done|]. rewrite IH.
  destruct (isViewed now x) eqn:Ex; cbn [negb].
  - apply insertSorted_front. intros y _. rewrite compareJobs_viewed_first, Ex.
    by destruct (isViewed now y).
  - apply insertSorted_after; intros y Hy; apply filter_In in Hy as [_ Hy];
      rewrite compareJobs_viewed_first, Ex; by destruct (isViewed now y).
Qed.

Lemma viewed_last_partition now l :
  Array_sort (compareJobs now "viewed-last") l
  = (List.filter (fun j => negb (isViewed now j)) l ++ List.filter (isViewed now) l)%list.
Proof.
  induction l as [|x l IH]; cbn [Array_sort List.filter]; [done|]. rewrite IH.
  destruct (isViewed now x) eqn:Ex; cbn [negb].
  - apply insertSorted_after; intros y Hy; apply filter_In in Hy as [_ Hy];
      rewrite compareJobs_viewed_last, Ex; by destruct (isViewed now y).
  - apply insertSorted_front. intros y _. rewrite compareJobs_viewed_last, Ex.
    by destruct (isViewed now y).
Qed.

(** The comparators of [viewed-first], [viewed-last] and [default] follow
    the order of a key, as the one of [recent] does on valid dates
    ([compareJobs_recent_key] below); [Array_sort_canonical] applies to
    all four. *)
Lemma compareJobs_viewed_first_key now x y :
  Number_pos (compareJobs now "viewed-first" x y)
  = ((if isViewed now y then 0 else 1) <? (if isViewed now x then 0 else 1)).
Proof. rewrite compareJobs_viewed_first. by destruct (isViewed now x), (isViewed now y). Qed.

Lemma compareJobs_viewed_last_key now x y :
  Number_pos (compareJobs now "viewed-last" x y)
  = ((if isViewed now y then 1 else 0) <? (if isViewed now x then 1 else 0)).
Proof. rewrite compareJobs_viewed_last. by destruct (isViewed now x), (isViewed now y). Qed.

(** For [default] the key is the recorded index, and any number above the
    recorded indices for a card without one. *)
Lemma compareOriginal_key (order : gmap ElemRef nat) (top : Z) x y :
  let key job := match order !! ref job with
                 | Some i => Z.of_nat i
                 | None => top
                 end in
  (forall i, order !! ref x = Some i -> Z.of_nat i < top) ->
  (forall i, order !! ref y = Some i -> Z.of_nat i < top) ->
  Number_pos (compareOriginal order x y) = (key y <? key x).
Proof.
  cbv zeta. unfold compareOriginal, indexOf. intros Hx Hy.
  destruct (order !! ref x) as [i|], (order !! ref y) as [j|]; simpl.
  - destruct (Z.ltb_spec 0 (Z.of_nat i - Z.of_nat j)), (Z.ltb_spec (Z.of_nat j) (Z.of_nat i));
      try done; exfalso; lia.
  - symmetry. apply Z.ltb_ge. specialize (Hx i eq_refl). lia.
  - symmetry. apply Z.ltb_lt. by apply Hy.
  - symmetry. apply Z.ltb_irrefl.
Qed.

(** ** Pages of distinct cards *)

Ltac distinct_refs :=
  unfold distinctCards; simpl; repeat constructor; simpl; intuition discriminate.

(** ** A policy outside the four *)

Lemma compareJobs_unknown now p a b :
  ~ In p policies -> compareJobs now p a b = Num 0.
Proof.
  intros Hp. unfold compareJobs, compareJobsAt.
  destruct (String.eqb p "recent") eqn:E1;
    [apply String.eqb_eq in E1; subst; simpl in Hp; tauto|].
  destruct (String.eqb p "viewed-first") eqn:E2;
    [apply String.eqb_eq in E2; subst; simpl in Hp; tauto|].
  destruct (String.eqb p "viewed-last") eqn:E3;
    [apply String.eqb_eq in E3; subst; simpl in Hp; tauto|].
  done.
Qed.

Lemma ledgerAtSort_withPolicy p st : ledgerAtSort (withPolicy p st) = ledgerAtSort st.
Proof. unfold ledgerAtSort, withPolicy. simpl. by destruct (Nat.eqb _ _). Qed.

(** C5, where it fails: after a [viewed-first] sort has moved the viewed
    card to the front, an unknown policy leaves the page as it is while
    [default] brings the ledger order back. *)
Lemma unknown_policy_differs_from_default :
  let st := sortJobs sampleNow (started "viewed-first" [plainA; viewedB]) in
  ~ In "newest" policies
  /\ List.map ref (document st) = [2; 1]%nat
  /\ List.map ref (document (sortJobs sampleNow (withPolicy "newest" st))) = [2; 1]%nat
  /\ List.map ref (document (sortJobs sampleNow (withPolicy "default" st))) = [1; 2]%nat
  /\ document (sortJobs sampleNow (withPolicy "newest" st))
     <> document (sortJobs sampleNow (withPolicy "default" st)).
Proof.
  cbv zeta. split; [simpl; intuition discriminate|].
  split; [vm_compute; reflexivity|].
  split; [vm_compute; reflexivity|].
  split; [vm_compute; reflexivity|].
  intros E. apply (f_equal (List.map ref)) in E. vm_compute in E. discriminate E.
Qed.

(** C5 as it holds: a policy value outside the four leaves the cards in
    their current order; that is the result of [default] whenever the
    current order is the order of the ledger. *)
Theorem unknown_policy_keeps_order (now : Z) (st : State) :
  ~ In (policy st) policies ->
  distinctCards st ->
  document (sortJobs now st) = document st
  /\ ((forall x y, before x y (document st) ->
                  Number_pos (compareOriginal (ledgerAtSort st) x y) = false) ->
      document (sortJobs now (withPolicy "default" st)) = document (sortJobs now st)).
Proof.
  intros Hp Hnd.
  assert (Hsame : document (sortJobs now st) = document st).
  { rewrite sortJobs_page by done.
    assert (String.eqb (policy st) "recent" = false) as ->.
    { apply String.eqb_neq. intros E. rewrite E in Hp. simpl in Hp. tauto. }
    apply Array_sort_ordered. intros x y _. unfold comparator.
    assert (String.eqb (sortBy (settings st)) "default" = false) as ->.
    { apply String.eqb_neq. intros E. unfold policy in Hp. rewrite E in Hp. simpl in Hp. tauto. }
    by rewrite compareJobs_unknown. }
  split; [done|]. intros Hord. rewrite Hsame.
  rewrite sortJobs_page by done. unfold comparator, policy. simpl.
  rewrite ledgerAtSort_withPolicy. by apply Array_sort_ordered.
Qed.

Lemma unknown_policy_keeps_order_witness :
  let st := sortJobs sampleNow (started "viewed-first" [plainA; viewedB]) in
  ~ In (policy (withPolicy "newest" st)) policies
  /\ distinctCards (withPolicy "newest" st)
  /\ document (sortJobs sampleNow (withPolicy "newest" st)) = document (withPolicy "newest" st).
Proof.
  cbv zeta.
  assert (H1 : ~ In (policy (withPolicy "newest"
                 (sortJobs sampleNow (started "viewed-first" [plainA; viewedB])))) policies)
    by (simpl; intuition discriminate).
  assert (H2 : distinctCards (withPolicy "newest"
                 (sortJobs sampleNow (started "viewed-first" [plainA; viewedB]))))
    by (unfold distinctCards; vm_compute; repeat constructor; simpl; intuition discriminate).
  split; [exact H1|]. split; [exact H2|].
  apply (proj1 (unknown_policy_keeps_order sampleNow _ H1 H2)).
Defined.

(** ** The [recent] policy *)

Lemma getJobStatus_time now n :
  time (getJobStatus now n)
  = match timeText n with
    | Some t => parseRelativeTime now t
    | None => None
    end.
Proof. unfold getJobStatus, timeText. simpl. by destruct (timeEl n). Qed.

Lemma newDate_valid v : Z.abs v <= maxTimeValue -> newDate v = ValidDate v.
Proof. intros H. unfold newDate. by apply Z.leb_le in H as ->. Qed.

Lemma newDate_bound v t : newDate v = ValidDate t -> Z.abs t <= maxTimeValue.
Proof.
  unfold newDate. destruct (Z.leb_spec (Z.abs v) maxTimeValue); [|done].
  by intros [= <-].
Qed.

Lemma parseRelativeTime_bound now text t :
  parseRelativeTime now text = Some (ValidDate t) -> Z.abs t <= maxTimeValue.
Proof.
  unfold parseRelativeTime. destruct (regexMatch _ _ _); [|done].
  destruct (msPerUnit _); [|done]. intros [= H]. by apply newDate_bound in H.
Qed.

Lemma time_bound now job t :
  time (getJobStatus now (node job)) = Some (ValidDate t) -> Z.abs t <= maxTimeValue.
Proof.
  rewrite getJobStatus_time. destruct (timeText (node job)); [|done].
  apply parseRelativeTime_bound.
Qed.

(** On cards whose dates are valid the comparator of [recent] orders by
    [recentKey]. *)
Lemma compareJobs_recent_key now x y :
  time (getJobStatus now (node x)) <> Some InvalidDate ->
  time (getJobStatus now (node y)) <> Some InvalidDate ->
  Number_pos (compareJobs now "recent" x y) = (recentKey now y <? recentKey now x).
Proof.
  intros Hx Hy. unfold compareJobs, compareJobsAt, recentKey. cbv zeta.
  change (String.eqb "recent" "recent") with true. cbv iota.
  pose proof (time_bound now x) as Bx. pose proof (time_bound now y) as By.
  destruct (time (getJobStatus now (node x))) as [[tx|]|];
    destruct (time (getJobStatus now (node y))) as [[ty|]|]; try done; simpl.
  - destruct (Z.ltb_spec 0 (tx - ty)), (Z.ltb_spec ty tx); try done; exfalso; lia.
  - specialize (Bx tx eq_refl). symmetry. apply Z.ltb_lt. unfold maxTimeValue in *. lia.
  - specialize (By ty eq_refl). symmetry. apply Z.ltb_ge. unfold maxTimeValue in *. lia.
Qed.

Lemma time_of_text now job text v :
  timeText (node job) = Some text ->
  parseRelativeTime now text = Some (newDate v) ->
  Z.abs v <= maxTimeValue ->
  time (getJobStatus now (node job)) = Some (ValidDate v).
Proof.
  intros Ht Hp Hv. rewrite getJobStatus_time, Ht, Hp. by rewrite newDate_valid.
Qed.

Lemma time_of_none now job :
  timeEl (node job) = None -> time (getJobStatus now (node job)) = None.
Proof. intros H. rewrite getJobStatus_time. unfold timeText. by rewrite H. Qed.

(** In the revision that reads the [datetime] attribute the signs for a
    card without a time are the other way round: such a card ends the
    sorted array, and the reversal shows it first, above the dated cards,
    wherever it stood on the page. *)
Lemma datetime_revision_undated_first parseDate (dated undated : JobCard) :
  time (getJobStatus_datetime parseDate (node dated)) <> None ->
  time (getJobStatus_datetime parseDate (node undated)) = None ->
  rev (Array_sort (compareJobs_datetime parseDate "recent") [dated; undated]) = [undated; dated]
  /\ rev (Array_sort (compareJobs_datetime parseDate "recent") [undated; dated]) = [undated; dated].
Proof.
  intros Hd Hu. cbn [Array_sort insertSorted]. unfold compareJobs_datetime. cbv zeta.
  change (String.eqb "recent" "recent") with true. cbv iota. rewrite Hu.
  destruct (time (getJobStatus_datetime parseDate (node dated))); done.
Qed.

(** ** Strings *)

Lemma startsWith_spec s needle :
  startsWith s needle = true <-> exists post, s = needle ++ post.
Proof.
  revert s. induction needle as [|c needle IH]; intros s.
  - destruct s; simpl; (split; [eauto | done]).
  - destruct s as [|c' s]; simpl.
    + split; [done | by intros [post [=]]].
    + rewrite andb_true_iff, IH, Ascii.eqb_eq.
      split; [intros [-> [post ->]]; eauto | intros [post [= -> ->]]; eauto].
Qed.

(** [includes] finds exactly the occurrences. *)
Lemma includes_spec s needle : includes s needle = true <-> Contains needle s.
Proof.
  unfold Contains. induction s as [|c s IH].
  - cbn [includes]. rewrite orb_false_r, startsWith_spec. split.
    + intros [post E]. by exists EmptyString, post.
    + intros ([|? pre] & post & E); [by exists post | done].
  - cbn [includes]. rewrite orb_true_iff, startsWith_spec, IH. split.
    + intros [[post E] | (pre & post & E)].
      * by exists EmptyString, post.
      * exists (String c pre), post. simpl. by rewrite E.
    + intros ([|c' pre] & post & E).
      * left. by exists post.
      * right. exists pre, post. by injection E.
Qed.

Lemma includes_false s needle : includes s needle = false <-> ~ Contains needle s.
Proof. rewrite <- includes_spec. by destruct (includes s needle). Qed.

(** ** The tree of a card *)

Lemma Node_induction (P : Node -> Prop) :
  (forall data, P (TextNode data)) ->
  (forall name cl attrs children,
     List.Forall P children -> P (ElementNode name cl attrs children)) ->
  forall n, P n.
Proof.
  intros Htext Helem. fix IH 1. intros [data | name cl attrs children]; [apply Htext|].
  apply Helem. induction children as [|c children IHc]; constructor; [apply IH | exact IHc].
Qed.

Lemma querySelector_cons sel name cl attrs c children :
  querySelector sel (ElementNode name cl attrs (c :: children))
  = if matches sel c then Some c
    else match querySelector sel c with
         | Some d => Some d
         | None => querySelector sel (ElementNode name cl attrs children)
         end.
Proof. reflexivity. Qed.

(** ** Classification *)

Lemma getJobStatus_status now n :
  status (getJobStatus now n)
  = match stateText n with
    | Some t =>
        if includes (toLowerCase (trim t)) "viewed" then Viewed
        else if includes (toLowerCase (trim t)) "applied" then Applied
        else Normal
    | None => Normal
    end.
Proof. unfold getJobStatus, stateText. simpl. by destruct (stateEl n). Qed.

Lemma find_app_first {A : Type} (p : A -> bool) (l1 l2 : list A) :
  List.find p (l1 ++ l2)
  = match List.find p l1 with
    | Some x => Some x
    | None => List.find p l2
    end.
Proof. induction l1 as [|x l1 IH]; simpl; [done|]. by destruct (p x). Qed.

Lemma descendants_cons name cl attrs c children :
  descendants (ElementNode name cl attrs (c :: children))
  = (c :: descendants c ++ descendants (ElementNode name cl attrs children))%list.
Proof. reflexivity. Qed.

(** [querySelector] returns the first of the descendants, in document
    order, that matches. *)
Lemma querySelector_first sel n :
  querySelector sel n = List.find (matches sel) (descendants n).
Proof.
  induction n as [data | name cl attrs children IH] using Node_induction; [done|].
  induction IH as [|c children Hc _ IHc]; [done|].
  rewrite querySelector_cons, descendants_cons. cbn [List.find].
  destruct (matches sel c); [done|].
  by rewrite find_app_first, <- Hc, <- IHc.
Qed.

(** The element [getJobStatus] takes the status from is the status
    fragment of the card. *)
Lemma stateEl_statusFragment jobCard : stateEl jobCard = statusFragment jobCard.
Proof.
  unfold stateEl, statusFragment. rewrite <- querySelector_first.
  destruct (querySelector footerSelector jobCard); [apply querySelector_first | done].
Qed.

Lemma stateText_statusFragmentText jobCard : stateText jobCard = statusFragmentText jobCard.
Proof. unfold stateText, statusFragmentText. by rewrite stateEl_statusFragment. Qed.

(** C8: a card is [viewed] when the normalized text of its status fragment
    contains "viewed", else [applied] when it contains "applied", else
    [normal]; the fragment " Viewed " gives [viewed], and a card without a
    status fragment is [normal].  The status fragment is the one found in
    the tree of the card, [statusFragment]. *)
Theorem status_classification (now : Z) (jobCard : Node) :
  let s := status (getJobStatus now jobCard) in
  let normalized t := toLowerCase (trim t) in
  (s = Viewed <->
     exists t, statusFragmentText jobCard = Some t /\ Contains "viewed" (normalized t))
  /\ (s = Applied <->
       exists t, statusFragmentText jobCard = Some t
                 /\ ~ Contains "viewed" (normalized t)
                 /\ Contains "applied" (normalized t))
  /\ (s = Normal <->
       forall t, statusFragmentText jobCard = Some t ->
                 ~ Contains "viewed" (normalized t) /\ ~ Contains "applied" (normalized t))
  /\ (statusFragmentText jobCard = Some " Viewed " -> s = Viewed)
  /\ (statusFragmentText jobCard = None -> s = Normal).
Proof.
  cbv zeta. rewrite getJobStatus_status, stateText_statusFragmentText.
  assert (L4 : statusFragmentText jobCard = Some " Viewed " ->
               match statusFragmentText jobCard with
               | Some t =>
                   if includes (toLowerCase (trim t)) "viewed" then Viewed
                   else if includes (toLowerCase (trim t)) "applied" then Applied
                   else Normal
               | None => Normal
               end = Viewed) by (by intros ->).
  assert (L5 : statusFragmentText jobCard = None ->
               match statusFragmentText jobCard with
               | Some t =>
                   if includes (toLowerCase (trim t)) "viewed" then Viewed
                   else if includes (toLowerCase (trim t)) "applied" then Applied
                   else Normal
               | None => Normal
               end = Normal) by (by intros ->).
  split; [|split; [|split; [|split; assumption]]]; clear L4 L5.
  - destruct (statusFragmentText jobCard) as [t|]; [|split; [done | by intros (? & ? & _)]].
    destruct (includes (toLowerCase (trim t)) "viewed") eqn:Ev.
    + apply includes_spec in Ev. split; [intros _; by exists t | done].
    + apply includes_false in Ev.
      split; [by destruct (includes _ "applied") | by intros (? & [= <-] & ?)].
  - destruct (statusFragmentText jobCard) as [t|]; [|split; [done | by intros (? & ? & _)]].
    destruct (includes (toLowerCase (trim t)) "viewed") eqn:Ev.
    + apply includes_spec in Ev. split; [done | by intros (? & [= <-] & ? & _)].
    + apply includes_false in Ev.
      destruct (includes (toLowerCase (trim t)) "applied") eqn:Ea.
      * apply includes_spec in Ea. split; [intros _; by exists t | done].
      * apply includes_false in Ea. split; [done | by intros (? & [= <-] & _ & ?)].
  - destruct (statusFragmentText jobCard) as [t|]; [|done].
    destruct (includes (toLowerCase (trim t)) "viewed") eqn:Ev.
    + apply includes_spec in Ev. split; [done | intros H; by destruct (H t eq_refl)].
    + apply includes_false in Ev.
      destruct (includes (toLowerCase (trim t)) "applied") eqn:Ea.
      * apply includes_spec in Ea. split; [done | intros H; by destruct (H t eq_refl)].
      * apply includes_false in Ea. split; [by intros _ ? [= <-] | done].
Qed.

Lemma status_classification_witness :
  (statusFragmentText (node viewedB) = Some " Viewed "
   /\ status (getJobStatus sampleNow (node viewedB)) = Viewed)
  /\ (statusFragmentText (node plainA) = None
      /\ status (getJobStatus sampleNow (node plainA)) = Normal).
Proof.
  split; (split; [reflexivity|]).
  - exact (proj1 (proj2 (proj2 (proj2 (status_classification sampleNow (node viewedB)))))
             eq_refl).
  - exact (proj2 (proj2 (proj2 (proj2 (status_classification sampleNow (node plainA)))))
             eq_refl).
Defined.

(** ** Markers *)

Lemma filter_none {A : Type} (p : A -> bool) (l : list A) :
  (forall x, In x l -> p x = false) -> List.filter p l = [].
Proof.
  induction l as [|x l IH]; intros H; cbn [List.filter]; [done|].
  rewrite H by (simpl; auto). apply IH. intros; apply H; simpl; auto.
Qed.

Lemma filter_all {A : Type} (p : A -> bool) (l : list A) :
  (forall x, In x l -> p x = true) -> List.filter p l = l.
Proof.
  induction l as [|x l IH]; intros H; cbn [List.filter]; [done|].
  rewrite H by (simpl; auto). f_equal. apply IH. intros; apply H; simpl; auto.
Qed.

Lemma hasToken_In token tokens : hasToken token tokens = true <-> In token tokens.
Proof.
  unfold hasToken. rewrite existsb_exists. split.
  - intros (t & Ht & E). apply String.eqb_eq in E. by subst.
  - intros H. exists token. split; [done | apply String.eqb_refl].
Qed.

Lemma classList_remove_In t tokens cl :
  In t (classList_remove tokens cl) <-> In t cl /\ ~ In t tokens.
Proof.
  unfold classList_remove. rewrite filter_In, negb_true_iff.
  split; intros [H1 H2]; (split; [done|]).
  - intros Hin. apply hasToken_In in Hin. congruence.
  - destruct (hasToken t tokens) eqn:E; [apply hasToken_In in E; tauto | done].
Qed.

Lemma classList_remove_app tokens cl1 cl2 :
  classList_remove tokens (cl1 ++ cl2)%list
  = (classList_remove tokens cl1 ++ classList_remove tokens cl2)%list.
Proof. apply List.filter_app. Qed.

Lemma classList_remove_idem tokens cl :
  classList_remove tokens (classList_remove tokens cl) = classList_remove tokens cl.
Proof.
  unfold classList_remove. induction cl as [|t cl IH]; simpl; [done|].
  destruct (hasToken t tokens) eqn:E; simpl; [done|]. by rewrite E, IH.
Qed.

Lemma classList_add_fresh token cl :
  ~ In token cl -> classList_add token cl = (cl ++ [token])%list.
Proof.
  intros H. unfold classList_add. destruct (hasToken token cl) eqn:E; [|done].
  by apply hasToken_In in E.
Qed.

Lemma markersFor_markers s st t : In t (markersFor s st) -> In t markers.
Proof.
  unfold markersFor, markers. destruct st; simpl; [tauto| |].
  - destruct (highlightViewed s); simpl; tauto.
  - destruct (String.eqb _ "hide"); [simpl; tauto|].
    destruct (String.eqb _ "dim"); simpl; tauto.
Qed.

(** One pass leaves on a card the classes that are not markers, then the
    markers its status and the settings ask for. *)
Lemma restyle_eq s st cl :
  restyle s st cl = (classList_remove markers cl ++ markersFor s st)%list.
Proof.
  unfold restyle. fold markers.
  assert (Hfresh : forall m, In m markers ->
            classList_add m (classList_remove markers cl)
            = (classList_remove markers cl ++ [m])%list).
  { intros m Hm. apply classList_add_fresh. rewrite classList_remove_In. tauto. }
  destruct st; simpl.
  - by rewrite app_nil_r.
  - destruct (highlightViewed s); [|by rewrite app_nil_r].
    apply Hfresh. unfold markers. simpl. auto.
  - destruct (String.eqb (appliedAction s) "hide");
      [apply Hfresh; unfold markers; simpl; auto|].
    destruct (String.eqb (appliedAction s) "dim");
      [apply Hfresh; unfold markers; simpl; auto|].
    by rewrite app_nil_r.
Qed.

Lemma classList_remove_markersFor s st : classList_remove markers (markersFor s st) = [].
Proof.
  apply filter_none. intros t Ht. apply negb_false_iff, hasToken_In.
  by eapply markersFor_markers.
Qed.

Lemma restyle_idem s st cl : restyle s st (restyle s st cl) = restyle s st cl.
Proof.
  rewrite !restyle_eq, classList_remove_app, classList_remove_idem,
    classList_remove_markersFor. by rewrite app_nil_r.
Qed.

Lemma restyle_markers s st cl : List.filter isMarker (restyle s st cl) = markersFor s st.
Proof.
  rewrite restyle_eq, List.filter_app.
  rewrite (filter_none isMarker (classList_remove markers cl)).
  - apply filter_all. intros t Ht. apply hasToken_In. by eapply markersFor_markers.
  - intros t Ht. apply classList_remove_In in Ht as [_ Ht].
    unfold isMarker. destruct (hasToken t markers) eqn:E; [|done].
    by apply hasToken_In in E.
Qed.

Lemma restyle_marker_In s st cl m :
  In m markers -> In m (restyle s st cl) <-> In m (markersFor s st).
Proof.
  intros Hm. rewrite restyle_eq, in_app_iff, classList_remove_In. tauto.
Qed.

(** The status of a card does not depend on its own class list, nor on the
    clock. *)
Lemma getJobStatus_setClassList now cl n :
  getJobStatus now (setClassList cl n) = getJobStatus now n.
Proof. by destruct n. Qed.

Lemma status_clock now now' n :
  status (getJobStatus now n) = status (getJobStatus now' n).
Proof. by rewrite !getJobStatus_status. Qed.

Lemma processJob_status s now now' job :
  status (getJobStatus now' (node (processJob s now job)))
  = status (getJobStatus now (node job)).
Proof. unfold processJob. cbn [node]. rewrite getJobStatus_setClassList. apply status_clock. Qed.

(** The class list of a card after a pass. *)
Lemma processJob_classList s now job :
  classList (node (processJob s now job))
  = match node job with
    | TextNode _ => []
    | ElementNode _ _ _ _ =>
        restyle s (status (getJobStatus now (node job))) (classList (node job))
    end.
Proof. unfold processJob. cbn [node]. by destruct (node job). Qed.

Lemma textNode_status now data : status (getJobStatus now (TextNode data)) = Normal.
Proof. reflexivity. Qed.

Lemma processJobs_document now st :
  document (processJobs now st) = List.map (processJob (settings st) now) (document st).
Proof. reflexivity. Qed.

Lemma processJobs_settings now st : settings (processJobs now st) = settings st.
Proof. reflexivity. Qed.

(** C9: after a pass no card carries the hidden marker together with the
    dim marker; an applied card carries the hidden marker alone under
    [hide], the dim marker alone under [dim], and neither otherwise. *)
Theorem applied_markers_exclusive (now : Z) (st : State) (job : JobCard) :
  In job (document (processJobs now st)) ->
  let cl := classList (node job) in
  let s := status (getJobStatus now (node job)) in
  let action := appliedAction (settings st) in
  ~ (In hiddenMarker cl /\ In appliedMarker cl)
  /\ (s = Applied -> action = "hide" -> In hiddenMarker cl /\ ~ In appliedMarker cl)
  /\ (s = Applied -> action = "dim" -> In appliedMarker cl /\ ~ In hiddenMarker cl)
  /\ (s = Applied -> action <> "hide" -> action <> "dim" ->
      ~ In hiddenMarker cl /\ ~ In appliedMarker cl)
  /\ (s <> Applied -> ~ In hiddenMarker cl /\ ~ In appliedMarker cl).
Proof.
  rewrite processJobs_document, in_map_iff. intros (job0 & <- & _). cbv zeta.
  rewrite processJob_status, processJob_classList.
  destruct (node job0) as [data | name cl0 attrs children] eqn:En.
  { rewrite textNode_status. simpl. repeat split; try tauto; done. }
  assert (Hh : In hiddenMarker markers) by (unfold markers; simpl; auto).
  assert (Ha : In appliedMarker markers) by (unfold markers; simpl; auto).
  rewrite !(restyle_marker_In _ _ _ _ Hh), !(restyle_marker_In _ _ _ _ Ha).
  unfold markersFor.
  destruct (status (getJobStatus now (ElementNode name cl0 attrs children))).
  - simpl. repeat split; try tauto; done.
  - destruct (highlightViewed (settings st)); simpl;
      repeat split; try done; intuition discriminate.
  - destruct (String.eqb (appliedAction (settings st)) "hide") eqn:Eh;
      [|destruct (String.eqb (appliedAction (settings st)) "dim") eqn:Ed].
    + apply String.eqb_eq in Eh. rewrite Eh. simpl.
      repeat split; try done; intuition discriminate.
    + apply String.eqb_eq in Ed. rewrite Ed. simpl.
      repeat split; try done; intuition discriminate.
    + apply String.eqb_neq in Eh, Ed. simpl.
      repeat split; try done; intuition discriminate.
Qed.

Lemma applied_markers_exclusive_witness :
  let st := set_settings {| sortBy := "default"; appliedAction := "hide";
                            highlightViewed := true |}
              (newExtension [appliedC] None) in
  let job := processJob (settings st) sampleNow appliedC in
  In job (document (processJobs sampleNow st))
  /\ status (getJobStatus sampleNow (node job)) = Applied
  /\ appliedAction (settings st) = "hide"
  /\ In hiddenMarker (classList (node job))
  /\ ~ In appliedMarker (classList (node job)).
Proof.
  cbv zeta.
  set (st := set_settings {| sortBy := "default"; appliedAction := "hide";
                             highlightViewed := true |}
               (newExtension [appliedC] None)).
  set (job := processJob (settings st) sampleNow appliedC).
  assert (H : In job (document (processJobs sampleNow st))) by (left; reflexivity).
  split; [exact H|]. split; [reflexivity|]. split; [reflexivity|].
  apply (proj1 (proj2 (applied_markers_exclusive sampleNow st job H)));
    reflexivity.
Defined.

(** C10: a second pass with the same settings leaves every card as the
    first pass left it, and after a pass the markers on a card are those
    its status and the settings ask for, whatever markers it carried
    before. *)
Theorem processJobs_idempotent (now now' : Z) (st : State) :
  document (processJobs now' (processJobs now st)) = document (processJobs now st)
  /\ List.map (fun job => List.filter isMarker (classList (node job)))
              (document (processJobs now st))
     = List.map (fun job => markersFor (settings st) (status (getJobStatus now (node job))))
                (document st).
Proof.
  rewrite !processJobs_document, processJobs_settings, !List.map_map. split.
  - apply List.map_ext. intros job.
    unfold processJob at 1. rewrite processJob_status.
    unfold processJob. cbn [ref node]. f_equal.
    destruct (node job) as [data | name cl attrs children]; [done|].
    cbn [setClassList classList]. by rewrite restyle_idem.
  - apply List.map_ext. intros job. rewrite processJob_classList.
    destruct (node job) as [data | name cl attrs children] eqn:En.
    + by rewrite textNode_status.
    + apply restyle_markers.
Qed.

(** ** The order ledger *)

Lemma recordFrom_other index jobs (m : gmap ElemRef nat) r :
  ~ In r (List.map ref jobs) -> recordFrom index jobs m !! r = m !! r.
Proof.
  revert index m. induction jobs as [|job jobs IH]; intros index m Hr; simpl; [done|].
  simpl in Hr. rewrite IH by tauto. apply lookup_insert_ne. tauto.
Qed.

(** The first recording gives every card its position in the document. *)
Lemma recordFrom_position index jobs (m : gmap ElemRef nat) i job :
  List.NoDup (List.map ref jobs) ->
  nth_error jobs i = Some job ->
  recordFrom index jobs m !! ref job = Some (index + i)%nat.
Proof.
  revert index m i. induction jobs as [|j jobs IH]; intros index m i Hnd Hi.
  - by destruct i.
  - inversion Hnd as [|? ? Hj Hnd']; subst. destruct i as [|i]; simpl in *.
    + injection Hi as ->. rewrite recordFrom_other by done.
      rewrite lookup_insert_eq. f_equal. lia.
    + rewrite (IH (S index) _ i) by done. f_equal. lia.
Qed.

Lemma recordFrom_nonempty index job jobs (m : gmap ElemRef nat) :
  size (recordFrom index (job :: jobs) m) <> 0%nat.
Proof.
  assert (H : forall jobs index (m : gmap ElemRef nat),
             size m <> 0%nat -> size (recordFrom index jobs m) <> 0%nat).
  { clear. induction jobs as [|j jobs IH]; intros index m Hm; simpl; [done|].
    apply IH. intros E. apply map_size_empty_inv in E.
    by apply insert_non_empty in E. }
  simpl. apply H. intros E. apply map_size_empty_inv in E.
  by apply insert_non_empty in E.
Qed.

(** Once the ledger holds an entry, no function of the script writes to
    it. *)
Lemma sortJobs_ledger_kept now st :
  size (originalOrder st) <> 0%nat -> originalOrder (sortJobs now st) = originalOrder st.
Proof.
  intros H. rewrite sortJobs_originalOrder. destruct (document st); [done|].
  by apply Nat.eqb_neq in H as ->.
Qed.

Lemma reprocess_ledger_kept now st :
  size (originalOrder st) <> 0%nat -> originalOrder (reprocess now st) = originalOrder st.
Proof.
  intros H. unfold reprocess.
  destruct (negb _); [|done]. by rewrite sortJobs_ledger_kept.
Qed.

Lemma observerCallback_ledger now mutations st :
  originalOrder (observerCallback now mutations st) = originalOrder st.
Proof. unfold observerCallback. by destruct (shouldProcess mutations). Qed.

Lemma notifyObserver_ledger now st : originalOrder (notifyObserver now st) = originalOrder st.
Proof.
  unfold notifyObserver. destruct (records st); [done|]. by rewrite observerCallback_ledger.
Qed.

Lemma step_ledger_kept now e st :
  size (originalOrder st) <> 0%nat -> originalOrder (step now e st) = originalOrder st.
Proof.
  intros H. destruct e as [cards | | request]; simpl.
  - unfold pageAppends. rewrite notifyObserver_ledger. simpl. by destruct (observing st).
  - unfold fireTimer. destruct (timers st) as [|due rest]; [done|].
    destruct (due <=? now); [|done].
    rewrite notifyObserver_ledger. by rewrite reprocess_ledger_kept.
  - rewrite notifyObserver_ledger. unfold onMessage.
    destruct (String.eqb (type request) "applySettings"), (payload request) as [s|];
      destruct (String.eqb (type request) "getStats"); simpl; try done;
      (destruct (negb _); [|done]); by rewrite sortJobs_ledger_kept.
Qed.

Lemma run_ledger_kept events st :
  size (originalOrder st) <> 0%nat -> originalOrder (run events st) = originalOrder st.
Proof.
  revert st. induction events as [|[now e] events IH]; intros st H; simpl; [done|].
  rewrite IH; rewrite step_ledger_kept; done.
Qed.

(** C3, where it fails: the first sort records the two cards of the page;
    a third card arrives later and goes through a pass and a sort, and the
    ledger still has no entry for it, where the claim gives it the next
    unused index 2. *)
Lemma later_card_not_recorded :
  let st1 := sortJobs sampleNow (started "viewed-first" [plainA; viewedB]) in
  let st2 := run [ (sampleNow + 1000, PageAppends [lateD]);
                   (sampleNow + 1100, TimerFires) ] st1 in
  originalOrder st1 !! ref plainA = Some 0%nat
  /\ originalOrder st1 !! ref viewedB = Some 1%nat
  /\ List.map ref (document st2) = [2; 1; 4]%nat
  /\ originalOrder st2 !! ref plainA = Some 0%nat
  /\ originalOrder st2 !! ref viewedB = Some 1%nat
  /\ originalOrder st2 !! ref lateD = None
  /\ originalOrder st2 !! ref lateD <> Some 2%nat.
Proof.
  cbv zeta. repeat split; try (vm_compute; reflexivity).
  assert (originalOrder
            (run [ (sampleNow + 1000, PageAppends [lateD]); (sampleNow + 1100, TimerFires) ]
                 (sortJobs sampleNow (started "viewed-first" [plainA; viewedB])))
          !! ref lateD = None) as -> by (vm_compute; reflexivity).
  discriminate.
Qed.

(** C3 as it holds: the ledger is recorded once.  The first sort of a
    non-empty page gives every card its position in the document as
    index; from then on no batch, pass, sort or request changes the ledger:
    a recorded card keeps its index and a card that arrives later gets
    none. *)
Theorem ledger_recorded_once (now : Z) (st : State) (events : list (Z * Event)) :
  distinctCards st ->
  document st <> [] ->
  size (originalOrder st) = 0%nat ->
  let st1 := sortJobs now st in
  (forall i job, nth_error (document st) i = Some job ->
                 originalOrder st1 !! ref job = Some i)
  /\ originalOrder (run events st1) = originalOrder st1
  /\ (forall r, ~ In r (List.map ref (document st)) ->
                originalOrder (run events st1) !! r = None).
Proof.
  intros Hnd Hne Hsize. cbv zeta.
  assert (Hled : originalOrder (sortJobs now st) = recordFrom 0 (document st) (originalOrder st)).
  { rewrite sortJobs_originalOrder. destruct (document st); [done|]. by rewrite Hsize. }
  assert (Hfrozen : originalOrder (run events (sortJobs now st))
                    = originalOrder (sortJobs now st)).
  { apply run_ledger_kept. rewrite Hled. destruct (document st); [done|].
    apply recordFrom_nonempty. }
  split; [|split; [done|]].
  - intros i job Hi. rewrite Hled. by rewrite (recordFrom_position 0 _ _ i).
  - intros r Hr. rewrite Hfrozen, Hled, recordFrom_other by done.
    apply map_size_empty_inv in Hsize. by rewrite Hsize.
Qed.

Lemma ledger_recorded_once_witness :
  let st := started "viewed-first" [plainA; viewedB] in
  let events := [ (sampleNow + 1000, PageAppends [lateD]); (sampleNow + 1100, TimerFires) ] in
  (distinctCards st /\ document st <> [] /\ size (originalOrder st) = 0%nat)
  /\ originalOrder (run events (sortJobs sampleNow st)) = originalOrder (sortJobs sampleNow st).
Proof.
  cbv zeta.
  assert (H1 : distinctCards (started "viewed-first" [plainA; viewedB])) by distinct_refs.
  assert (H2 : document (started "viewed-first" [plainA; viewedB]) <> []) by discriminate.
  assert (H3 : size (originalOrder (started "viewed-first" [plainA; viewedB])) = 0%nat)
    by reflexivity.
  split; [auto|].
  apply (ledger_recorded_once sampleNow _
           [ (sampleNow + 1000, PageAppends [lateD]); (sampleNow + 1100, TimerFires) ]
           H1 H2 H3).
Defined.

(** ** The change reactor *)

(** A batch that holds a job card makes the observer ask for a pass. *)
Lemma shouldProcess_batch (earlier : list MutationRecord) (cards : list JobCard) :
  (exists job, In job cards /\ matches jobCardSelector (node job) = true) ->
  shouldProcess
    (earlier ++ [ {| recordType := "childList"; addedNodes := List.map node cards;
                     removedNodes := [] |} ])%list = true.
Proof.
  intros (job & Hin & Hm). unfold shouldProcess.
  rewrite existsb_app, orb_true_iff. right. simpl. rewrite orb_false_r.
  apply existsb_exists. exists (node job). split; [by apply in_map|].
  rewrite Hm, andb_true_r. destruct (node job); [done | reflexivity].
Qed.

Lemma pageAppends_timers now cards st :
  observing st = true ->
  (exists job, In job cards /\ matches jobCardSelector (node job) = true) ->
  timers (pageAppends now cards st) = (timers st ++ [now + 100])%list
  /\ observing (pageAppends now cards st) = true
  /\ records (pageAppends now cards st) = []
  /\ sent (pageAppends now cards st) = sent st
  /\ settings (pageAppends now cards st) = settings st.
Proof.
  intros Hobs Hjob. unfold pageAppends. simpl. rewrite Hobs. unfold notifyObserver. simpl.
  destruct (records st ++ _)%list as [|r rs] eqn:E.
  { by apply app_eq_nil in E as [_ ?]. }
  rewrite <- E. unfold observerCallback. rewrite shouldProcess_batch by done. by simpl.
Qed.

(** With [default] active a timer runs one pass and nothing else. *)
Lemma fireTimer_default now due rest st :
  policy st = "default" -> records st = [] -> timers st = due :: rest -> due <= now ->
  timers (fireTimer now st) = rest
  /\ List.length (sent (fireTimer now st)) = S (List.length (sent st))
  /\ policy (fireTimer now st) = "default"
  /\ records (fireTimer now st) = [].
Proof.
  intros Hp Hr Ht Hdue. unfold fireTimer. rewrite Ht.
  apply Z.leb_le in Hdue as ->. unfold reprocess. rewrite processJobs_settings.
  simpl. unfold policy in Hp. rewrite Hp. simpl.
  unfold notifyObserver. simpl. rewrite Hr. simpl.
  rewrite length_app. simpl. repeat split; try done; lia.
Qed.

Lemma fireTimers_default now st :
  policy st = "default" -> records st = [] -> Forall (fun due => due <= now) (timers st) ->
  timers (fireTimers (List.length (timers st)) now st) = []
  /\ List.length (sent (fireTimers (List.length (timers st)) now st))
     = (List.length (sent st) + List.length (timers st))%nat.
Proof.
  remember (timers st) as pending eqn:E. revert st E.
  induction pending as [|due rest IH]; intros st E Hp Hr Hall; simpl.
  - split; [done | lia].
  - inversion Hall as [|? ? Hdue Hrest]; subst.
    destruct (fireTimer_default now due rest st Hp Hr (eq_sym E) Hdue) as (Ht & Hs & Hp' & Hr').
    destruct (IH (fireTimer now st) (eq_sym Ht) Hp' Hr' Hrest) as [Ht' Hs'].
    split; [done|]. rewrite Hs', Hs. lia.
Qed.

Lemma insertions_timers burst st :
  observing st = true -> records st = [] ->
  Forall (fun b => exists job, In job (snd b) /\ matches jobCardSelector (node job) = true)
         burst ->
  timers (run (insertions burst) st)
  = (timers st ++ List.map (fun b => fst b + 100) burst)%list
  /\ records (run (insertions burst) st) = []
  /\ sent (run (insertions burst) st) = sent st
  /\ settings (run (insertions burst) st) = settings st.
Proof.
  revert st. induction burst as [|[now cards] burst IH]; intros st Hobs Hrec Hall; simpl.
  - by rewrite app_nil_r.
  - inversion Hall as [|? ? Hjob Hrest]; subst. simpl in Hjob.
    destruct (pageAppends_timers now cards st Hobs Hjob) as (Ht & Ho & Hr & Hs & Hse).
    destruct (IH (pageAppends now cards st) Ho Hr Hrest) as (Ht' & Hr' & Hs' & Hse').
    rewrite Ht', Ht, Hs', Hs, Hse', Hse, <- app_assoc. by simpl.
Qed.

(** A timer that is due runs one pass, whatever the policy and in either
    revision: it leaves the queue, one count is sent, and what the pass
    schedules joins the end of the queue. *)
Lemma notifyObserver_timers now st :
  exists extra, timers (notifyObserver now st) = (timers st ++ extra)%list.
Proof.
  unfold notifyObserver, observerCallback.
  destruct (records st) as [|r rs]; [exists []; by rewrite app_nil_r|].
  destruct (shouldProcess (r :: rs)); [by eexists | exists []; by rewrite app_nil_r].
Qed.

Lemma notifyObserver_sent now st : sent (notifyObserver now st) = sent st.
Proof.
  unfold notifyObserver, observerCallback. destruct (records st) as [|r rs]; [done|].
  by destruct (shouldProcess (r :: rs)).
Qed.

Lemma sortJobs_quiet now st :
  timers (sortJobs now st) = timers st /\ sent (sortJobs now st) = sent st.
Proof.
  unfold sortJobs. destruct (document st) as [|j d]; [done|].
  set (st' := if Nat.eqb (size (originalOrder st)) 0 then captureOriginalOrder st else st).
  assert (timers st' = timers st /\ sent st' = sent st) as [<- <-].
  { subst st'. by destruct (Nat.eqb _ 0). }
  destruct (String.eqb (sortBy (settings st')) "default");
    [|destruct (String.eqb (sortBy (settings st')) "recent")];
    split; apply appendAll_kept.
Qed.

Lemma sortJobs_datetime_quiet parseDate st :
  timers (sortJobs_datetime parseDate st) = timers st
  /\ sent (sortJobs_datetime parseDate st) = sent st.
Proof.
  unfold sortJobs_datetime. destruct (document st) as [|j d]; [done|].
  set (st' := if Nat.eqb (size (originalOrder st)) 0 then captureOriginalOrder st else st).
  assert (timers st' = timers st /\ sent st' = sent st) as [<- <-].
  { subst st'. by destruct (Nat.eqb _ 0). }
  destruct (String.eqb (sortBy (settings st')) "default");
    [|destruct (String.eqb (sortBy (settings st')) "recent")];
    split; apply appendAll_kept.
Qed.

Section TimerRuns.
Variable sort : State -> State.
Hypothesis sort_quiet : forall st, timers (sort st) = timers st /\ sent (sort st) = sent st.

Lemma pass_runs now rest st :
  let st1 := processJobs now (set_timers rest st) in
  let st2 := if negb (String.eqb (sortBy (settings st1)) "default") then sort st1 else st1 in
  exists extra,
    timers (notifyObserver now st2) = (rest ++ extra)%list
    /\ List.length (sent (notifyObserver now st2)) = S (List.length (sent st)).
Proof.
  cbv zeta. set (st1 := processJobs now (set_timers rest st)).
  assert (H1 : timers st1 = rest /\ List.length (sent st1) = S (List.length (sent st))).
  { subst st1. unfold processJobs, updateStats. simpl. rewrite length_app. simpl.
    split; [done | lia]. }
  destruct H1 as [T1 S1].
  set (st2 := if negb (String.eqb (sortBy (settings st1)) "default") then sort st1 else st1).
  assert (H2 : timers st2 = rest /\ List.length (sent st2) = S (List.length (sent st))).
  { subst st2. destruct (negb _); [|done]. destruct (sort_quiet st1) as [-> ->]. done. }
  destruct H2 as [T2 S2].
  destruct (notifyObserver_timers now st2) as [extra E]. exists extra.
  by rewrite E, T2, notifyObserver_sent.
Qed.
End TimerRuns.

Lemma fireTimer_runs now due rest st :
  timers st = due :: rest -> due <= now ->
  exists extra,
    timers (fireTimer now st) = (rest ++ extra)%list
    /\ List.length (sent (fireTimer now st)) = S (List.length (sent st)).
Proof.
  intros Ht Hdue. unfold fireTimer. rewrite Ht. apply Z.leb_le in Hdue as ->.
  apply (pass_runs (sortJobs now) (sortJobs_quiet now)).
Qed.

Lemma fireTimer_datetime_runs parseDate now due rest st :
  timers st = due :: rest -> due <= now ->
  exists extra,
    timers (fireTimer_datetime parseDate now st) = (rest ++ extra)%list
    /\ List.length (sent (fireTimer_datetime parseDate now st)) = S (List.length (sent st)).
Proof.
  intros Ht Hdue. unfold fireTimer_datetime. rewrite Ht. apply Z.leb_le in Hdue as ->.
  apply (pass_runs (sortJobs_datetime parseDate) (sortJobs_datetime_quiet parseDate)).
Qed.

(** The timers that head the queue and are due all run, one pass each. *)
Lemma fireTimers_run now pending later st :
  timers st = (pending ++ later)%list -> Forall (fun due => due <= now) pending ->
  List.length (sent (fireTimers (List.length pending) now st))
  = (List.length (sent st) + List.length pending)%nat.
Proof.
  revert later st. induction pending as [|due rest IH]; intros later st Ht Hall; simpl.
  - lia.
  - inversion Hall as [|? ? Hdue Hrest]; subst.
    destruct (fireTimer_runs now due (rest ++ later) st Ht Hdue) as (extra & Ht' & Hs).
    rewrite <- app_assoc in Ht'. rewrite (IH _ _ Ht' Hrest), Hs. lia.
Qed.

Lemma fireTimers_datetime_run parseDate now pending later st :
  timers st = (pending ++ later)%list -> Forall (fun due => due <= now) pending ->
  List.length (sent (fireTimers_datetime parseDate (List.length pending) now st))
  = (List.length (sent st) + List.length pending)%nat.
Proof.
  revert later st. induction pending as [|due rest IH]; intros later st Ht Hall; simpl.
  - lia.
  - inversion Hall as [|? ? Hdue Hrest]; subst.
    destruct (fireTimer_datetime_runs parseDate now due (rest ++ later) st Ht Hdue)
      as (extra & Ht' & Hs).
    rewrite <- app_assoc in Ht'. rewrite (IH _ _ Ht' Hrest), Hs. lia.
Qed.

(** With [default] active the pass does not sort, and the timers of the
    two revisions do the same. *)
Lemma fireTimer_datetime_default parseDate now st :
  policy st = "default" -> fireTimer_datetime parseDate now st = fireTimer now st.
Proof.
  intros Hp. unfold fireTimer_datetime, fireTimer. destruct (timers st) as [|due rest]; [done|].
  destruct (due <=? now); [|done]. unfold reprocess_datetime, reprocess.
  rewrite processJobs_settings. cbn [settings set_timers]. unfold policy in Hp. by rewrite Hp.
Qed.

Lemma fireTimers_datetime_default parseDate now st :
  policy st = "default" -> records st = [] -> Forall (fun due => due <= now) (timers st) ->
  fireTimers_datetime parseDate (List.length (timers st)) now st
  = fireTimers (List.length (timers st)) now st.
Proof.
  remember (timers st) as pending eqn:E. revert st E.
  induction pending as [|due rest IH]; intros st E Hp Hr Hall; simpl; [done|].
  inversion Hall as [|? ? Hdue Hrest]; subst.
  destruct (fireTimer_default now due rest st Hp Hr (eq_sym E) Hdue) as (Ht & _ & Hp' & Hr').
  rewrite fireTimer_datetime_default by done.
  exact (IH (fireTimer now st) (eq_sym Ht) Hp' Hr' Hrest).
Qed.

(** C4, where it fails: a card arrives and a pass is scheduled; a second
    card arrives 50 ms later, while that pass is pending, and a second
    pass is scheduled; both run. *)
Lemma pending_pass_does_not_absorb :
  let st := started "default" [plainA] in
  let st1 := step sampleNow (PageAppends [plainB]) st in
  let st2 := step (sampleNow + 50) (PageAppends [lateD]) st1 in
  timers st = []
  /\ timers st1 = [sampleNow + 100]
  /\ timers st2 = [sampleNow + 100; sampleNow + 150]
  /\ List.length (sent (fireTimers 2 (sampleNow + 200) st2)) = (List.length (sent st2) + 2)%nat.
Proof. cbv zeta. repeat split; vm_compute; reflexivity. Qed.

(** C4 as it holds, under every policy and in both revisions of the
    script ([startObserver] is the same in both): the observer keeps no
    pending state.  The insertions reported in one notification, however
    many, schedule one pass 100 ms later; every further notification that
    reports an inserted job card schedules a pass of its own, whether or
    not one is pending, so a burst of [k] notifications leaves [k] passes
    pending, and each of the [k] runs when it is due.  Under [default]
    nothing is pending once they have run. *)
Theorem burst_schedules_each_notification
    (burst : list (Z * list JobCard)) (horizon : Z) (st : State) :
  observing st = true ->
  records st = [] ->
  timers st = [] ->
  Forall (fun b => exists job, In job (snd b) /\ matches jobCardSelector (node job) = true)
         burst ->
  Forall (fun b => fst b + 100 <= horizon) burst ->
  let st' := run (insertions burst) st in
  let k := List.length burst in
  timers st' = List.map (fun b => fst b + 100) burst
  /\ List.length (sent (fireTimers k horizon st')) = (List.length (sent st) + k)%nat
  /\ (forall parseDate,
        List.length (sent (fireTimers_datetime parseDate k horizon st'))
        = (List.length (sent st) + k)%nat)
  /\ (policy st = "default" ->
      timers (fireTimers k horizon st') = []
      /\ forall parseDate, timers (fireTimers_datetime parseDate k horizon st') = []).
Proof.
  intros Hobs Hrec Htim Hjobs Hdue. cbv zeta.
  destruct (insertions_timers burst st Hobs Hrec Hjobs) as (Ht & Hr & Hs & Hse).
  rewrite Htim in Ht. simpl in Ht.
  set (st' := run (insertions burst) st) in *.
  assert (Hall : Forall (fun due => due <= horizon) (List.map (fun b => fst b + 100) burst)).
  { apply List.Forall_map. eapply List.Forall_impl; [|exact Hdue]. done. }
  assert (Hq : timers st' = (List.map (fun b => fst b + 100) burst ++ [])%list)
    by (by rewrite app_nil_r).
  assert (Hk : List.length (List.map (fun b => fst b + 100) burst) = List.length burst)
    by apply length_map.
  split; [exact Ht|]. split; [|split].
  - pose proof (fireTimers_run horizon _ [] st' Hq Hall) as H.
    by rewrite Hk, Hs in H.
  - intros parseDate.
    pose proof (fireTimers_datetime_run parseDate horizon _ [] st' Hq Hall) as H.
    by rewrite Hk, Hs in H.
  - intros Hpol.
    assert (Hpol' : policy st' = "default") by (unfold policy; by rewrite Hse).
    assert (Hall' : Forall (fun due => due <= horizon) (timers st')) by (by rewrite Ht).
    pose proof (fireTimers_default horizon st' Hpol' Hr Hall') as [H _].
    rewrite Ht, Hk in H. split; [exact H|]. intros parseDate.
    pose proof (fireTimers_datetime_default parseDate horizon st' Hpol' Hr Hall') as E.
    rewrite Ht, Hk in E. by rewrite E.
Qed.

Lemma burst_schedules_each_notification_witness :
  let st := started "viewed-first" [plainA] in
  let burst := [ (sampleNow, [plainB; appliedC]); (sampleNow + 50, [lateD]) ] in
  (observing st = true /\ records st = [] /\ timers st = [])
  /\ timers (run (insertions burst) st) = [sampleNow + 100; sampleNow + 150]
  /\ List.length (sent (fireTimers 2 (sampleNow + 200) (run (insertions burst) st)))
     = (List.length (sent st) + 2)%nat.
Proof.
  cbv zeta.
  assert (H1 : observing (started "viewed-first" [plainA]) = true) by reflexivity.
  assert (H2 : records (started "viewed-first" [plainA]) = []) by reflexivity.
  assert (H3 : timers (started "viewed-first" [plainA]) = []) by reflexivity.
  split; [auto|].
  pose proof (burst_schedules_each_notification
                [ (sampleNow, [plainB; appliedC]); (sampleNow + 50, [lateD]) ]
                (sampleNow + 200) _ H1 H2 H3
                ltac:(repeat constructor; eexists; (split; [left; reflexivity | reflexivity]))
                ltac:(repeat constructor; vm_compute; discriminate)) as (Ht & Hs & _).
  split; [exact Ht | exact Hs].
Defined.

(** ** Requests *)

(** C6, where it fails: an [applySettings] request without its payload and
    a request of another type get no response at all. *)
Lemma request_without_response :
  let st := started "default" [plainA; viewedB] in
  snd (fst (onMessage sampleNow {| type := "applySettings"; payload := None |} st)) = []
  /\ snd (fst (onMessage sampleNow {| type := "ping"; payload := None |} st)) = []
  /\ snd (onMessage sampleNow {| type := "applySettings"; payload := None |} st) = true.
Proof. cbv zeta. repeat split; vm_compute; reflexivity. Qed.

(** C6 as it holds: an [applySettings] request with its payload is answered
    once, with success; a [getStats] request is answered once, with the
    counts; an [applySettings] request without payload and a request of any
    other type are not answered; no request is answered twice. *)
Theorem responses_per_request (now : Z) (request : MessageRequest) (st : State) :
  let responses := snd (fst (onMessage now request st)) in
  (forall s, type request = "applySettings" -> payload request = Some s ->
             responses = [SuccessResponse true])
  /\ (type request = "getStats" ->
      responses = [StatsResponse (jobStats now (document st))])
  /\ (type request = "applySettings" -> payload request = None -> responses = [])
  /\ (type request <> "applySettings" -> type request <> "getStats" -> responses = [])
  /\ (List.length responses <= 1)%nat.
Proof.
  cbv zeta. unfold onMessage.
  destruct (String.eqb (type request) "applySettings") eqn:Ea.
  - apply String.eqb_eq in Ea. rewrite Ea. simpl.
    destruct (payload request) as [s|]; simpl; repeat split; try done; auto.
  - apply String.eqb_neq in Ea.
    destruct (String.eqb (type request) "getStats") eqn:Eg.
    + apply String.eqb_eq in Eg. destruct (payload request); simpl; repeat split; try done; auto.
      all: intros; congruence.
    + apply String.eqb_neq in Eg. destruct (payload request); simpl; repeat split; try done; auto.
Qed.

(** ** Pattern matching *)

Lemma append_nil_r s : s ++ EmptyString = s.
Proof. induction s as [|c s IH]; [done|]. change (String c (s ++ "") = String c s). by rewrite IH. Qed.

Lemma append_assoc s1 s2 s3 : (s1 ++ s2) ++ s3 = s1 ++ s2 ++ s3.
Proof.
  induction s1 as [|c s1 IH]; [done|].
  change (String c ((s1 ++ s2) ++ s3) = String c (s1 ++ s2 ++ s3)). by rewrite IH.
Qed.

Lemma append_cons c s t : String c s ++ t = String c (s ++ t).
Proof. reflexivity. Qed.

Lemma length_append s t : String.length (s ++ t) = (String.length s + String.length t)%nat.
Proof.
  induction s as [|c s IH]; [done|].
  rewrite append_cons. cbn [String.length]. by rewrite IH.
Qed.

Lemma consumed_append w rest : consumed (w ++ rest) rest = w.
Proof.
  unfold consumed. rewrite length_append.
  replace (String.length w + String.length rest - String.length rest)%nat
    with (String.length w) by lia.
  induction w as [|c w IH]; [by destruct rest|].
  rewrite append_cons. cbn [String.length substring]. by rewrite IH.
Qed.

Section MatcherFacts.
Context {R : Type}.
Variable ic : bool.

Lemma matchPlus_sound cc s (k : string -> option R) x :
  matchPlus ic cc s k = Some x ->
  exists w s', s = w ++ s' /\ w <> EmptyString
               /\ allChars (classMatches ic cc) w = true /\ k s' = Some x.
Proof.
  revert x. induction s as [|c s IH]; intros x; cbn [matchPlus]; [done|].
  destruct (classMatches ic cc c) eqn:Ec; [|done].
  destruct (matchPlus ic cc s k) as [y|] eqn:Em.
  - intros [= <-]. destruct (IH y eq_refl) as (w & s' & -> & _ & Hw & Hk).
    exists (String c w), s'. cbn [allChars]. by rewrite Ec, Hw.
  - intros Hk. exists (String c EmptyString), s. cbn [allChars]. by rewrite Ec.
Qed.

Lemma matchPlus_complete cc w s' (k : string -> option R) x :
  w <> EmptyString -> allChars (classMatches ic cc) w = true -> k s' = Some x ->
  exists y, matchPlus ic cc (w ++ s') k = Some y.
Proof.
  intros Hne Hall Hk. induction w as [|c w IH]; [done|].
  cbn [allChars] in Hall. apply andb_true_iff in Hall as [Hc Hall].
  rewrite append_cons. cbn [matchPlus]. rewrite Hc.
  destruct w as [|c' w'].
  - change (EmptyString ++ s') with s'. destruct (matchPlus ic cc s' k); eauto.
  - destruct (IH ltac:(done) Hall) as [y ->]. eauto.
Qed.

Lemma matchRegex_sound r s caps (k : string -> list string -> option R) x :
  matchRegex ic r s caps k = Some x ->
  exists w s' c, s = w ++ s' /\ Matches ic r w c /\ k s' (caps ++ c)%list = Some x.
Proof.
  revert s caps k x. induction r as [|cc|r1 IH1 r2 IH2|r1 IH1 r2 IH2|cc|r IH|r IH];
    intros s caps k x; cbn [matchRegex].
  - intros H. exists EmptyString, s, []. rewrite app_nil_r. repeat split; [constructor | done].
  - destruct s as [|c s]; [done|]. destruct (classMatches ic cc c) eqn:Ec; [|done].
    intros H. exists (String c EmptyString), s, []. rewrite app_nil_r.
    repeat split; [by constructor | done].
  - intros H. apply IH1 in H as (w1 & s1 & c1 & -> & M1 & H).
    apply IH2 in H as (w2 & s2 & c2 & -> & M2 & H).
    exists (w1 ++ w2), s2, (c1 ++ c2)%list. rewrite append_assoc, app_assoc.
    repeat split; [by constructor | done].
  - destruct (matchRegex ic r1 s caps k) as [y|] eqn:E1.
    + intros [= <-]. apply IH1 in E1 as (w & s' & c & -> & M & H).
      exists w, s', c. repeat split; [by apply Matches_AltL | done].
    + intros H. apply IH2 in H as (w & s' & c & -> & M & H).
      exists w, s', c. repeat split; [by apply Matches_AltR | done].
  - intros H. apply matchPlus_sound in H as (w & s' & -> & Hne & Hall & H).
    exists w, s', []. rewrite app_nil_r. repeat split; [by constructor | done].
  - destruct (matchRegex ic r s caps k) as [y|] eqn:E1.
    + intros [= <-]. apply IH in E1 as (w & s' & c & -> & M & H).
      exists w, s', c. repeat split; [by apply Matches_OptSome | done].
    + intros H. exists EmptyString, s, []. rewrite app_nil_r.
      repeat split; [apply Matches_OptNone | done].
  - intros H. apply IH in H as (w & s' & c & -> & M & H).
    rewrite consumed_append in H.
    exists w, s', (c ++ [w])%list. rewrite app_assoc.
    repeat split; [by constructor | done].
Qed.

Lemma matchRegex_complete r w c :
  Matches ic r w c ->
  forall s' caps (k : string -> list string -> option R) x,
    k s' (caps ++ c)%list = Some x ->
    exists y, matchRegex ic r (w ++ s') caps k = Some y.
Proof.
  induction 1 as [|cc ch Hc|r1 r2 w1 w2 c1 c2 M1 IH1 M2 IH2|r1 r2 w c M IH|r1 r2 w c M IH
                  |cc w Hne Hall|r w c M IH|r|r w c M IH];
    intros s' caps k x Hk; cbn [matchRegex].
  - rewrite app_nil_r in Hk. eauto.
  - rewrite app_nil_r in Hk. rewrite append_cons, Hc. eauto.
  - rewrite app_assoc in Hk. destruct (IH2 s' _ k x Hk) as [y Hy].
    rewrite append_assoc. exact (IH1 (w2 ++ s') caps _ y Hy).
  - destruct (IH s' caps k x Hk) as [y ->]. eauto.
  - destruct (matchRegex ic r1 (w ++ s') caps k); eauto.
  - rewrite app_nil_r in Hk. by eapply matchPlus_complete.
  - destruct (IH s' caps k x Hk) as [y ->]. eauto.
  - rewrite app_nil_r in Hk. change (EmptyString ++ s') with s'.
    destruct (matchRegex ic r s' caps k); eauto.
  - rewrite app_assoc in Hk. eapply IH. rewrite consumed_append. exact Hk.
Qed.
End MatcherFacts.

Lemma regexMatch_unfold ic r s :
  regexMatch ic r s
  = match matchRegex ic r s [] (fun _ caps => Some caps) with
    | Some caps => Some caps
    | None =>
        match s with
        | EmptyString => None
        | String _ s' => regexMatch ic r s'
        end
    end.
Proof. by destruct s. Qed.

(** A search returns the captures of a match at the leftmost position that
    has one. *)
Lemma regexMatch_sound ic r s caps :
  regexMatch ic r s = Some caps ->
  exists pre w post,
    s = pre ++ w ++ post /\ Matches ic r w caps
    /\ forall pre' w' post' c', s = pre' ++ w' ++ post' -> Matches ic r w' c' ->
                                (String.length pre <= String.length pre')%nat.
Proof.
  revert caps.
  assert (Hhere : forall s caps,
            matchRegex ic r s [] (fun _ caps => Some caps) = Some caps ->
            exists pre w post,
              s = pre ++ w ++ post /\ Matches ic r w caps
              /\ forall pre' w' post' c', s = pre' ++ w' ++ post' -> Matches ic r w' c' ->
                                          (String.length pre <= String.length pre')%nat).
  { intros s0 caps E. apply matchRegex_sound in E as (w & s' & c & -> & M & [= <-]).
    exists EmptyString, w, s'. repeat split; [done|]. intros; cbn [String.length]; lia. }
  induction s as [|ch s IH]; intros caps; rewrite regexMatch_unfold;
    destruct (matchRegex ic r _ [] (fun _ caps => Some caps)) as [c|] eqn:E;
    try done; try (intros [= <-]; by apply Hhere).
  intros H. destruct (IH caps H) as (pre & w & post & -> & M & Hleft).
  exists (String ch pre), w, post. repeat split; [done|].
  intros pre' w' post' c' Heq M'. destruct pre' as [|ch' pre'].
  - change (EmptyString ++ w' ++ post') with (w' ++ post') in Heq.
    destruct (matchRegex_complete ic r w' c' M' post' [] (fun _ caps => Some caps) c' eq_refl)
      as [y Hy].
    rewrite <- Heq in Hy. congruence.
  - rewrite append_cons in Heq. injection Heq as -> Heq.
    cbn [String.length]. apply le_n_S. by eapply Hleft.
Qed.


(** *** The pattern of the script *)


Lemma Matches_word w p c :
  Matches true (word p) w c <-> c = [] /\ toLowerCase w = toLowerCase p.
Proof.
  split.
  - revert w c. induction p as [|ch p IH]; intros w c M; cbn [word] in M.
    + by inversion M.
    + inversion M as [| |? ? w1 w2 c1 c2 M1 M2| | | | | |]; subst.
      inversion M1 as [|? c0 Hc| | | | | | |]; subst.
      apply IH in M2 as [-> E]. cbn [classMatches] in Hc.
      apply Ascii.eqb_eq in Hc. unfold canonicalize in Hc.
      split; [done|]. rewrite append_cons. cbn [toLowerCase].
      change (EmptyString ++ w2) with w2. by rewrite E, Hc.
  - intros [-> E]. revert w E. induction p as [|ch p IH]; intros w E; cbn [word].
    + destruct w; [constructor | done].
    + destruct w as [|c0 w]; [done|]. cbn [toLowerCase] in E. injection E as Hc E.
      change (String c0 w) with (String c0 EmptyString ++ w).
      change (@nil string) with (@nil string ++ [])%list.
      constructor; [|by apply IH]. constructor. cbn [classMatches].
      apply Ascii.eqb_eq. unfold canonicalize. done.
Qed.

Lemma Matches_unit w c :
  Matches true (Alt (word "minute") (Alt (word "hour") (Alt (word "day") (word "week")))) w c
  <-> c = [] /\ exists u, toLowerCase w = unitName u.
Proof.
  split.
  - intros M.
    inversion M as [| | |? ? ? ? M1|? ? ? ? M1| | | |]; subst;
      [apply (Matches_word _ "minute") in M1 as [-> E]; split; [done | by exists Minute]|].
    inversion M1 as [| | |? ? ? ? M2|? ? ? ? M2| | | |]; subst;
      [apply (Matches_word _ "hour") in M2 as [-> E]; split; [done | by exists Hour]|].
    inversion M2 as [| | |? ? ? ? M3|? ? ? ? M3| | | |]; subst.
    + apply (Matches_word _ "day") in M3 as [-> E]. split; [done | by exists Day].
    + apply (Matches_word _ "week") in M3 as [-> E]. split; [done | by exists Week].
  - intros [-> [u E]]. destruct u.
    + apply Matches_AltL. by apply Matches_word.
    + apply Matches_AltR, Matches_AltL. by apply Matches_word.
    + apply Matches_AltR, Matches_AltR, Matches_AltL. by apply Matches_word.
    + apply Matches_AltR, Matches_AltR, Matches_AltR. by apply Matches_word.
Qed.

Lemma Matches_optional_s w c :
  Matches true (Opt (Chr (Lit "s"))) w c
  <-> c = [] /\ (w = EmptyString \/ toLowerCase w = "s").
Proof.
  split.
  - intros M. inversion M as [| | | | | |? ? ? M1| |]; subst; [|auto].
    inversion M1 as [|? c0 Hc| | | | | | |]; subst. cbn [classMatches] in Hc.
    apply Ascii.eqb_eq in Hc. unfold canonicalize in Hc.
    split; [done|]. right. cbn [toLowerCase]. by rewrite <- Hc.
  - intros [-> [-> | E]]; [apply Matches_OptNone|].
    destruct w as [|c0 [|? ?]]; try done. cbn [toLowerCase] in E. injection E as Hc.
    apply Matches_OptSome. constructor. cbn [classMatches].
    apply Ascii.eqb_eq. unfold canonicalize. by rewrite Hc.
Qed.

Lemma Matches_plus cc w c :
  Matches true (Plus cc) w c
  <-> c = [] /\ w <> EmptyString /\ allChars (classMatches true cc) w = true.
Proof.
  split.
  - intros M. by inversion M.
  - intros (-> & ? & ?). by constructor.
Qed.

Lemma Matches_Seq_eq r1 r2 w1 w2 c1 c2 w c :
  Matches true r1 w1 c1 -> Matches true r2 w2 c2 ->
  w = w1 ++ w2 -> c = (c1 ++ c2)%list -> Matches true (Seq r1 r2) w c.
Proof. intros M1 M2 -> ->. by constructor. Qed.

Lemma Matches_Group_eq r w c c' :
  Matches true r w c -> c' = (c ++ [w])%list -> Matches true (Group r) w c'.
Proof. intros M ->. by constructor. Qed.

(** What [relativeTimePattern] consumes and captures. *)
Lemma relativeTimePattern_matches w caps :
  Matches true relativeTimePattern w caps <->
  exists digits ws1 unitw sfx ws2 a u,
    w = digits ++ ws1 ++ unitw ++ sfx ++ ws2 ++ a
    /\ caps = [digits; unitw]
    /\ digits <> EmptyString /\ allChars isDigit digits = true
    /\ ws1 <> EmptyString /\ allChars isWhiteSpace ws1 = true
    /\ toLowerCase unitw = unitName u
    /\ (sfx = EmptyString \/ toLowerCase sfx = "s")
    /\ ws2 <> EmptyString /\ allChars isWhiteSpace ws2 = true
    /\ toLowerCase a = "ago".
Proof.
  unfold relativeTimePattern. split.
  - intros M.
    inversion M as [| |? ? digits w1 cd c1 Md M1| | | | | |]; subst. clear M.
    inversion Md as [| | | | | | | |? ? c0 Mp]; subst. clear Md.
    apply Matches_plus in Mp as (-> & Hd & Hda).
    inversion M1 as [| |? ? ws1 w2 cw c2 Mw M2| | | | | |]; subst. clear M1.
    apply Matches_plus in Mw as (-> & Hw & Hwa).
    inversion M2 as [| |? ? unitw w3 cu c3 Mu M3| | | | | |]; subst. clear M2.
    inversion Mu as [| | | | | | | |? ? c0 Mu']; subst. clear Mu.
    apply Matches_unit in Mu' as (-> & u & Hu).
    inversion M3 as [| |? ? sfx w4 cs c4 Ms M4| | | | | |]; subst. clear M3.
    apply Matches_optional_s in Ms as (-> & Hs).
    inversion M4 as [| |? ? ws2 a cw2 ca Mw2 Ma| | | | | |]; subst. clear M4.
    apply Matches_plus in Mw2 as (-> & Hw2 & Hw2a).
    apply (Matches_word _ "ago") in Ma as (-> & Ha).
    exists digits, ws1, unitw, sfx, ws2, a, u. repeat split; done.
  - intros (digits & ws1 & unitw & sfx & ws2 & a & u & -> & -> & Hd & Hda & Hw & Hwa
            & Hu & Hs & Hw2 & Hw2a & Ha).
    apply (Matches_Seq_eq _ _ digits (ws1 ++ unitw ++ sfx ++ ws2 ++ a) [digits] [unitw]);
      [|
       |reflexivity|reflexivity].
    { apply (Matches_Group_eq _ _ []); [by apply Matches_plus | reflexivity]. }
    apply (Matches_Seq_eq _ _ ws1 (unitw ++ sfx ++ ws2 ++ a) [] [unitw]);
      [by apply Matches_plus| |reflexivity|reflexivity].
    apply (Matches_Seq_eq _ _ unitw (sfx ++ ws2 ++ a) [unitw] []);
      [| |reflexivity|reflexivity].
    { apply (Matches_Group_eq _ _ []); [apply Matches_unit; eauto | reflexivity]. }
    apply (Matches_Seq_eq _ _ sfx (ws2 ++ a) [] []);
      [by apply Matches_optional_s| |reflexivity|reflexivity].
    apply (Matches_Seq_eq _ _ ws2 a [] []);
      [by apply Matches_plus| |reflexivity|reflexivity].
    by apply (Matches_word _ "ago").
Qed.

Lemma msPerUnit_unitName u : msPerUnit (unitName u) = Some (unitSeconds u * 1000).
Proof. by destruct u. Qed.

(** A relative duration at a position is a match of the pattern there. *)
Lemma DurationAt_Matches line pre value u :
  DurationAt line pre value u <->
  exists w post digits unitw,
    line = pre ++ w ++ post
    /\ Matches true relativeTimePattern w [digits; unitw]
    /\ value = parseInt digits /\ toLowerCase unitw = unitName u.
Proof.
  split.
  - intros (digits & ws1 & w & sfx & ws2 & a & post & -> & Hd & Hda & Hw & Hwa & Hu & Hs
            & Hw2 & Hw2a & Ha & ->).
    exists (digits ++ ws1 ++ w ++ sfx ++ ws2 ++ a), post, digits, w.
    repeat split; try done.
    + by rewrite !append_assoc.
    + apply relativeTimePattern_matches.
      exists digits, ws1, w, sfx, ws2, a, u. repeat split; done.
  - intros (w & post & digits & unitw & -> & M & -> & Hu).
    apply relativeTimePattern_matches in M
      as (digits' & ws1 & unitw' & sfx & ws2 & a & u' & -> & [= <- <-] & Hd & Hda & Hw & Hwa
          & _ & Hs & Hw2 & Hw2a & Ha).
    exists digits, ws1, unitw, sfx, ws2, a, post. rewrite !append_assoc.
    repeat split; done.
Qed.

Lemma parseRelativeTime_some now text d :
  parseRelativeTime now text = Some d ->
  exists value u,
    FirstDuration (timeLine text) value u
    /\ d = newDate (now - value * (unitSeconds u * 1000)).
Proof.
  unfold parseRelativeTime.
  destruct (regexMatch true relativeTimePattern (timeLine text)) as [m|] eqn:E; [|done].
  apply regexMatch_sound in E as (pre & w & post & Hline & M & Hleft).
  pose proof M as M'.
  apply relativeTimePattern_matches in M'
    as (digits & ws1 & unitw & sfx & ws2 & a & u & _ & -> & _ & _ & _ & _ & Hu & _).
  cbn [nth]. rewrite Hu, msPerUnit_unitName. intros [= <-].
  exists (parseInt digits), u. split; [|done].
  exists pre. split.
  - apply DurationAt_Matches. by exists w, post, digits, unitw.
  - intros pre' value' u' H. apply DurationAt_Matches in H as (w' & post' & ? & ? & H & M2 & _).
    by eapply Hleft.
Qed.


(** *** The leftmost duration is unique *)





Lemma append_inv_l s t t' : s ++ t = s ++ t' -> t = t'.
Proof.
  induction s as [|c s IH]; [done|]. rewrite !append_cons. intros [= E]. auto.
Qed.




(** *** The line the pattern is run on *)






(** The line filter looks for "ago" in lower case only, so a fragment in
    capitals is not parsed although the pattern ignores case. *)
Lemma capital_ago_not_parsed :
  DurationAt "1 WEEK AGO" EmptyString 1 Week
  /\ timeLine "1 WEEK AGO" = EmptyString
  /\ parseRelativeTime sampleNow "1 WEEK AGO" = None.
Proof.
  split; [|split; vm_compute; reflexivity].
  exists "1", " ", "WEEK", EmptyString, " ", "AGO", EmptyString.
  repeat split; try reflexivity; try discriminate. by left.
Qed.



(** ** The passes feed themselves *)

Lemma appendAll_records jobs st :
  observing st = true ->
  records (appendAll jobs st)
  = (records st ++
     flat_map (fun job =>
                 [ {| recordType := "childList"; addedNodes := []; removedNodes := [node job] |};
                   {| recordType := "childList"; addedNodes := [node job]; removedNodes := [] |} ])
              jobs)%list.
Proof.
  revert st. induction jobs as [|job jobs IH]; intros st Hobs; cbn [appendAll fold_left flat_map].
  - by rewrite app_nil_r.
  - fold (appendAll jobs (appendChild job st)). rewrite IH.
    + unfold appendChild. cbn [observing set_document]. rewrite Hobs. cbn [records set_records].
      by rewrite <- app_assoc.
    + destruct (appendChild_kept job st) as (_ & _ & _ & _ & ->). done.
Qed.

Lemma shouldProcess_moved earlier jobs job :
  In job jobs -> matches jobCardSelector (node job) = true ->
  shouldProcess
    (earlier ++
     flat_map (fun job =>
                 [ {| recordType := "childList"; addedNodes := []; removedNodes := [node job] |};
                   {| recordType := "childList"; addedNodes := [node job]; removedNodes := [] |} ])
              jobs)%list = true.
Proof.
  intros Hin Hm. unfold shouldProcess. rewrite existsb_app, orb_true_iff. right.
  apply existsb_exists.
  exists {| recordType := "childList"; addedNodes := [node job]; removedNodes := [] |}.
  split.
  - apply in_flat_map. exists job. split; [done|]. simpl. auto.
  - cbn [recordType addedNodes existsb]. rewrite Hm, andb_true_r, orb_false_r.
    destruct (node job); [done | reflexivity].
Qed.

Lemma matches_processJob s now job :
  matches jobCardSelector (node (processJob s now job)) = matches jobCardSelector (node job).
Proof. unfold processJob. cbn [node]. by destruct (node job). Qed.

(** While a policy other than [default] is active and the observer is
    attached, the pass run by a timer moves the cards, the observer is told
    of the moves, and the next pass is scheduled: the passes go on, 100 ms
    apart, without any new card. *)
Lemma sorting_pass_schedules_next now due rest st job :
  observing st = true -> records st = [] ->
  timers st = due :: rest -> due <= now ->
  policy st <> "default" ->
  In job (document st) -> matches jobCardSelector (node job) = true ->
  timers (fireTimer now st) = (rest ++ [now + 100])%list.
Proof.
  intros Hobs Hrec Ht Hdue Hpol Hin Hm. unfold fireTimer. rewrite Ht.
  apply Z.leb_le in Hdue as ->. unfold reprocess. rewrite processJobs_settings.
  cbn [settings set_timers]. apply String.eqb_neq in Hpol. unfold policy in Hpol.
  rewrite Hpol. cbn [negb].
  set (st1 := processJobs now (set_timers rest st)).
  assert (Hdoc : document st1 = List.map (processJob (settings st) now) (document st))
    by reflexivity.
  assert (Hobs1 : observing st1 = true) by exact Hobs.
  assert (Hrec1 : records st1 = []) by exact Hrec.
  assert (Htim1 : timers st1 = rest) by reflexivity.
  assert (Hset1 : settings st1 = settings st) by reflexivity.
  assert (Hin1 : In (processJob (settings st) now job) (document st1)).
  { rewrite Hdoc. by apply in_map. }
  clearbody st1. unfold sortJobs.
  destruct (document st1) as [|j d] eqn:Ed; [done|].
  set (st2 := if Nat.eqb (size (originalOrder st1)) 0 then captureOriginalOrder st1 else st1).
  assert (H2 : observing st2 = true /\ records st2 = [] /\ timers st2 = rest
               /\ settings st2 = settings st).
  { subst st2. destruct (Nat.eqb _ 0); by rewrite ?Hobs1, ?Hrec1, ?Htim1, ?Hset1. }
  destruct H2 as (Hobs2 & Hrec2 & Htim2 & Hset2). clearbody st2.
  rewrite Hset2, Hpol.
  assert (Hgo : forall jobs, In (processJob (settings st) now job) jobs ->
            timers (notifyObserver now (appendAll jobs st2)) = (rest ++ [now + 100])%list).
  { intros jobs Hj. unfold notifyObserver.
    rewrite appendAll_records, Hrec2 by done. cbn [app].
    destruct (flat_map _ jobs) as [|r rs] eqn:Ef.
    { destruct jobs; [done | discriminate Ef]. }
    rewrite <- Ef. unfold observerCallback.
    pose proof (shouldProcess_moved [] jobs (processJob (settings st) now job) Hj) as Hsp.
    cbn [app] in Hsp. rewrite Hsp by (by rewrite matches_processJob).
    cbn [timers set_timers set_records].
    destruct (appendAll_kept jobs st2) as (_ & _ & -> & _). by rewrite Htim2. }
  destruct (String.eqb (sortBy (settings st)) "recent"); apply Hgo.
  - apply -> in_rev. by apply Array_sort_In.
  - by apply Array_sort_In.
Qed.

(** * Further properties of the content script *)

(** ** Sorting moves the cards and nothing else *)

Lemma sortJobs_kept now st :
  settings (sortJobs now st) = settings st
  /\ timers (sortJobs now st) = timers st
  /\ sent (sortJobs now st) = sent st
  /\ observing (sortJobs now st) = observing st.
Proof.
  unfold sortJobs. destruct (document st) as [|j d]; [done|].
  set (st' := if Nat.eqb (size (originalOrder st)) 0 then captureOriginalOrder st else st).
  assert (settings st' = settings st /\ timers st' = timers st /\ sent st' = sent st
          /\ observing st' = observing st) as (<- & <- & <- & <-).
  { subst st'. by destruct (Nat.eqb _ 0). }
  destruct (String.eqb (sortBy (settings st')) "default");
    [|destruct (String.eqb (sortBy (settings st')) "recent")];
    repeat split; apply appendAll_kept.
Qed.

Lemma sortJobs_Permutation now st :
  distinctCards st -> Permutation (document (sortJobs now st)) (document st).
Proof.
  intros Hnd. rewrite sortJobs_page by done.
  destruct (String.eqb (policy st) "recent").
  - rewrite <- Permutation_rev. apply Array_sort_Permutation.
  - apply Array_sort_Permutation.
Qed.

Lemma sortJobs_distinct now st : distinctCards st -> distinctCards (sortJobs now st).
Proof.
  intros Hnd. unfold distinctCards. eapply Permutation_NoDup; [|exact Hnd].
  symmetry. apply Permutation_map. by apply sortJobs_Permutation.
Qed.

(** X1: [sortJobs] only moves cards.  Whatever the policy, the page holds
    the same cards afterwards, each once and unchanged, and the settings,
    the pending timers and the messages sent are as before. *)
Theorem sortJobs_permutes (now : Z) (st : State) :
  distinctCards st ->
  Permutation (document (sortJobs now st)) (document st)
  /\ distinctCards (sortJobs now st)
  /\ settings (sortJobs now st) = settings st
  /\ timers (sortJobs now st) = timers st
  /\ sent (sortJobs now st) = sent st.
Proof.
  intros Hnd. split; [by apply sortJobs_Permutation|]. split; [by apply sortJobs_distinct|].
  destruct (sortJobs_kept now st) as (? & ? & ? & _). done.
Qed.

Lemma sortJobs_permutes_witness :
  let st := started "recent" [cardNoTime; card4h; card10min; card2h] in
  distinctCards st
  /\ Permutation (document (sortJobs sampleNow st)) (document st).
Proof.
  cbv zeta.
  assert (H : distinctCards (started "recent" [cardNoTime; card4h; card10min; card2h]))
    by distinct_refs.
  split; [exact H|]. apply (proj1 (sortJobs_permutes sampleNow _ H)).
Defined.

(** X2: [viewed-first] shows the viewed cards first and the others after
    them, [viewed-last] the other way round; inside each group the cards
    keep the order they had on the page. *)
Theorem status_policies_partition (now : Z) (st : State) :
  distinctCards st ->
  (policy st = "viewed-first" ->
   document (sortJobs now st)
   = (List.filter (isViewed now) (document st)
      ++ List.filter (fun job => negb (isViewed now job)) (document st))%list)
  /\ (policy st = "viewed-last" ->
      document (sortJobs now st)
      = (List.filter (fun job => negb (isViewed now job)) (document st)
         ++ List.filter (isViewed now) (document st))%list).
Proof.
  intros Hnd. rewrite sortJobs_page by done. unfold comparator, policy.
  split; intros ->; simpl.
  - apply viewed_first_partition.
  - apply viewed_last_partition.
Qed.

Lemma status_policies_partition_witness :
  let st := started "viewed-first" [plainA; viewedB; appliedC] in
  distinctCards st
  /\ policy st = "viewed-first"
  /\ List.map ref (document (sortJobs sampleNow st)) = [2; 1; 3]%nat.
Proof.
  cbv zeta.
  assert (H : distinctCards (started "viewed-first" [plainA; viewedB; appliedC]))
    by distinct_refs.
  split; [exact H|]. split; [reflexivity|].
  rewrite (proj1 (status_policies_partition sampleNow _ H) eq_refl). reflexivity.
Defined.

(** ** The [default] order *)

Lemma insertSorted_app_l {A : Type} (cmp : A -> A -> Number) x l1 l2 :
  (forall y, In y l2 -> Number_pos (cmp x y) = false) ->
  insertSorted cmp x (l1 ++ l2) = (insertSorted cmp x l1 ++ l2)%list.
Proof.
  intros H. induction l1 as [|y l1 IH]; simpl.
  - by apply insertSorted_front.
  - destruct (Number_pos (cmp x y)); [|done]. simpl. by rewrite IH.
Qed.

Lemma Array_sort_default_split (order : gmap ElemRef nat) l :
  Array_sort (compareOriginal order) l
  = (Array_sort (compareOriginal order) (List.filter (isRecorded order) l)
     ++ List.filter (fun job => negb (isRecorded order job)) l)%list.
Proof.
  induction l as [|x l IH]; cbn [Array_sort List.filter]; [done|]. rewrite IH.
  assert (Hcmp : forall y, compareOriginal order x y
                           = Number_sub (indexOf order x) (indexOf order y)) by done.
  destruct (isRecorded order x) eqn:Ex; cbn [negb Array_sort].
  - apply insertSorted_app_l. intros y Hy. apply filter_In in Hy as [_ Hy].
    rewrite Hcmp. unfold isRecorded, indexOf in *.
    destruct (order !! ref x), (order !! ref y); done.
  - apply insertSorted_after; intros y Hy.
    + apply (proj1 (Array_sort_In _ _ _)) in Hy. apply filter_In in Hy as [_ Hy].
      rewrite Hcmp. unfold isRecorded, indexOf in *.
      destruct (order !! ref x), (order !! ref y); done.
    + apply filter_In in Hy as [_ Hy]. rewrite Hcmp. unfold isRecorded, indexOf in *.
      destruct (order !! ref x), (order !! ref y); done.
Qed.

Lemma compareOriginal_recorded (order : gmap ElemRef nat) x y :
  isRecorded order x = true -> isRecorded order y = true ->
  Number_pos (compareOriginal order x y) = (indexKey order y <? indexKey order x).
Proof.
  unfold isRecorded, compareOriginal, indexOf, indexKey.
  destruct (order !! ref x) as [i|], (order !! ref y) as [j|]; try done. intros _ _. simpl.
  destruct (Z.ltb_spec 0 (Z.of_nat i - Z.of_nat j)), (Z.ltb_spec (Z.of_nat j) (Z.of_nat i));
    try done; exfalso; lia.
Qed.

(** X3: under [default] the cards the ledger knows come first, by
    ascending index; the cards it does not know follow, in the order they
    have on the page at that moment. *)
Theorem default_order (now : Z) (st : State) :
  distinctCards st ->
  policy st = "default" ->
  exists front,
    document (sortJobs now st)
    = (front ++ List.filter (fun job => negb (isRecorded (ledgerAtSort st) job))
                            (document st))%list
    /\ Permutation front (List.filter (isRecorded (ledgerAtSort st)) (document st))
    /\ StronglySorted (fun x y => indexKey (ledgerAtSort st) x <= indexKey (ledgerAtSort st) y)
                      front.
Proof.
  intros Hnd Hp. rewrite sortJobs_page by done. rewrite Hp. simpl.
  unfold comparator. unfold policy in Hp. rewrite Hp. simpl.
  rewrite Array_sort_default_split.
  eexists. split; [reflexivity|]. split; [apply Array_sort_Permutation|].
  apply Array_sort_sorted. intros x y Hx Hy.
  apply filter_In in Hx as [_ Hx]. apply filter_In in Hy as [_ Hy].
  by apply compareOriginal_recorded.
Qed.

Lemma default_order_witness :
  let st := withPolicy "default"
              (run [ (sampleNow + 1000, PageAppends [lateD]); (sampleNow + 1100, TimerFires) ]
                   (sortJobs sampleNow (started "viewed-first" [plainA; viewedB]))) in
  distinctCards st
  /\ policy st = "default"
  /\ List.map ref (document st) = [2; 1; 4]%nat
  /\ exists front,
       document (sortJobs sampleNow st)
       = (front ++ List.filter (fun job => negb (isRecorded (ledgerAtSort st) job))
                               (document st))%list.
Proof.
  cbv zeta.
  set (st := withPolicy "default"
               (run [ (sampleNow + 1000, PageAppends [lateD]); (sampleNow + 1100, TimerFires) ]
                    (sortJobs sampleNow (started "viewed-first" [plainA; viewedB])))).
  assert (H1 : distinctCards st).
  { unfold distinctCards. vm_compute. repeat constructor; simpl; intuition discriminate. }
  assert (H2 : policy st = "default") by reflexivity.
  split; [exact H1|]. split; [exact H2|]. split; [vm_compute; reflexivity|].
  destruct (default_order sampleNow st H1 H2) as (front & E & _). by exists front.
Defined.

Lemma before_nth {A : Type} (x y : A) (l : list A) :
  before x y l ->
  exists i j, (i < j)%nat /\ nth_error l i = Some x /\ nth_error l j = Some y.
Proof.
  induction l as [|z l IH]; simpl; [tauto|]. intros [[-> Hy] | H].
  - apply In_nth_error in Hy as [j Hj]. exists 0%nat, (S j). repeat split; [lia | done].
  - destruct (IH H) as (i & j & Hij & Hi & Hj). exists (S i), (S j). repeat split; [lia | done..].
Qed.

Lemma ledgerAtSort_empty st :
  size (originalOrder st) = 0%nat ->
  ledgerAtSort st = recordFrom 0 (document st) (originalOrder st).
Proof. intros H. unfold ledgerAtSort. by rewrite H. Qed.

Lemma ledgerAtSort_kept st :
  size (originalOrder st) <> 0%nat -> ledgerAtSort st = originalOrder st.
Proof. intros H. unfold ledgerAtSort. by apply Nat.eqb_neq in H as ->. Qed.

(** After a sort of a non-empty page the ledger holds an entry, and later
    sorts compare with the same ledger. *)
Lemma ledgerAtSort_after now st :
  document st <> [] -> ledgerAtSort (sortJobs now st) = ledgerAtSort st.
Proof.
  intros Hne. rewrite ledgerAtSort_kept; [apply ledgerAtSort_sortJobs|].
  rewrite ledgerAtSort_sortJobs. unfold ledgerAtSort.
  destruct (Nat.eqb (size (originalOrder st)) 0) eqn:E.
  - unfold captureOriginalOrder. simpl. destruct (document st); [done|].
    apply recordFrom_nonempty.
  - by apply Nat.eqb_neq in E.
Qed.

(** X4: [default] brings back the order the page had at its first sort.
    Starting with an empty ledger, a sort under any policy followed by a
    sort under [default] leaves the cards exactly as they were. *)
Theorem default_restores (now now' : Z) (st : State) :
  distinctCards st ->
  size (originalOrder st) = 0%nat ->
  document (sortJobs now' (withPolicy "default" (sortJobs now st))) = document st.
Proof.
  intros Hnd Hsize.
  destruct (document st) as [|j0 d0] eqn:Ed.
  { assert (sortJobs now st = st) as -> by (unfold sortJobs; by rewrite Ed).
    unfold sortJobs, withPolicy. simpl. by rewrite Ed. }
  rewrite <- Ed in *. assert (Hne : document st <> []) by (by rewrite Ed).
  pose proof (sortJobs_Permutation now st Hnd) as Hperm.
  pose proof (sortJobs_distinct now st Hnd) as Hnd1.
  set (st1 := sortJobs now st) in *.
  rewrite sortJobs_page by exact Hnd1. unfold policy, comparator. simpl.
  rewrite ledgerAtSort_withPolicy. subst st1. rewrite ledgerAtSort_after by done.
  rewrite ledgerAtSort_empty by done.
  set (order := recordFrom 0 (document st) (originalOrder st)).
  assert (Hpos : forall i job, nth_error (document st) i = Some job ->
                               order !! ref job = Some i).
  { intros i job Hi. subst order. by rewrite (recordFrom_position 0 _ _ i). }
  assert (Hkey : forall job, In job (document st) ->
            exists i, nth_error (document st) i = Some job
                      /\ order !! ref job = Some i /\ indexKey order job = Z.of_nat i).
  { intros job Hin. apply In_nth_error in Hin as [i Hi]. exists i.
    pose proof (Hpos i job Hi) as E. unfold indexKey. by rewrite E. }
  apply (StronglySorted_unique_strong (fun x y => indexKey order x <= indexKey order y)).
  - intros x y Hx Hy Hxy Hyx. apply list_elem_of_In in Hx, Hy.
    apply (proj1 (Array_sort_In _ _ _)) in Hx. eapply Permutation_in in Hx; [|exact Hperm].
    destruct (Hkey x Hx) as (i & Hi & _ & Ki). destruct (Hkey y Hy) as (j & Hj & _ & Kj).
    assert (i = j) as -> by lia. congruence.
  - apply Array_sort_sorted. intros x y Hx Hy.
    eapply Permutation_in in Hx; [|exact Hperm]. eapply Permutation_in in Hy; [|exact Hperm].
    destruct (Hkey x Hx) as (i & _ & Ei & _). destruct (Hkey y Hy) as (j & _ & Ej & _).
    apply compareOriginal_recorded; unfold isRecorded; by rewrite ?Ei, ?Ej.
  - apply sorted_of_before. intros x y Hxy.
    destruct (before_nth x y _ Hxy) as (i & j & Hij & Hi & Hj).
    unfold indexKey. rewrite (Hpos i x Hi), (Hpos j y Hj). lia.
  - rewrite Array_sort_Permutation. exact Hperm.
Qed.

Lemma default_restores_witness :
  let st := started "viewed-first" [plainA; viewedB; appliedC] in
  (distinctCards st /\ size (originalOrder st) = 0%nat)
  /\ List.map ref (document (sortJobs sampleNow st)) = [2; 1; 3]%nat
  /\ document (sortJobs sampleNow (withPolicy "default" (sortJobs sampleNow st))) = document st.
Proof.
  cbv zeta.
  assert (H1 : distinctCards (started "viewed-first" [plainA; viewedB; appliedC]))
    by distinct_refs.
  assert (H2 : size (originalOrder (started "viewed-first" [plainA; viewedB; appliedC])) = 0%nat)
    by reflexivity.
  split; [auto|]. split; [vm_compute; reflexivity|].
  exact (default_restores sampleNow sampleNow _ H1 H2).
Defined.

(** ** Sorting again *)

Lemma Array_sort_settled {A : Type} (cmp1 cmp2 : A -> A -> Number) (key : A -> Z) l :
  (forall x y, In x l -> In y l -> Number_pos (cmp1 x y) = (key y <? key x)) ->
  (forall x y, In x l -> In y l -> Number_pos (cmp2 x y) = (key y <? key x)) ->
  Array_sort cmp2 (Array_sort cmp1 l) = Array_sort cmp1 l.
Proof.
  intros H1 H2. apply Array_sort_ordered. intros x y Hxy.
  pose proof (before_In _ _ _ Hxy) as [Hx Hy].
  apply (proj1 (Array_sort_In _ _ _)) in Hx, Hy.
  pose proof (before_of_sorted cmp1 _ _ _ _ (Array_sort_sorted cmp1 key l H1) Hxy) as Hle.
  cbv beta in Hle. rewrite H2 by done. apply Z.ltb_ge. lia.
Qed.

Lemma ledger_top (order : gmap ElemRef nat) (l : list JobCard) :
  exists top, forall job i, In job l -> order !! ref job = Some i -> Z.of_nat i < top.
Proof.
  induction l as [|x l [top IH]].
  - exists 0. intros ? ? [].
  - destruct (order !! ref x) as [i|] eqn:Ex.
    + exists (Z.max top (Z.of_nat i + 1)). intros job k [<- | Hin] Hk.
      * rewrite Ex in Hk. injection Hk as <-. lia.
      * specialize (IH job k Hin Hk). lia.
    + exists top. intros job k [<- | Hin] Hk; [congruence | eauto].
Qed.

Lemma isViewed_clock now now' job : isViewed now job = isViewed now' job.
Proof. unfold isViewed. by rewrite (status_clock now now'). Qed.

(** X5: under [default], [viewed-first] and [viewed-last] a second sort
    changes nothing: the cards stay where the first sort put them. *)
Theorem sort_again_same (now now' : Z) (st : State) :
  distinctCards st ->
  In (policy st) ["default"; "viewed-first"; "viewed-last"] ->
  document (sortJobs now' (sortJobs now st)) = document (sortJobs now st).
Proof.
  intros Hnd Hp.
  destruct (document st) as [|j0 d0] eqn:Ed.
  { assert (sortJobs now st = st) as -> by (unfold sortJobs; by rewrite Ed).
    unfold sortJobs. by rewrite Ed. }
  assert (Hne : document st <> []) by (by rewrite Ed). clear Ed j0 d0.
  pose proof (sortJobs_distinct now st Hnd) as Hnd1.
  destruct (sortJobs_kept now st) as (Hset & _).
  rewrite (sortJobs_page now' (sortJobs now st)) by done.
  unfold policy, comparator in *. rewrite Hset, ledgerAtSort_after by done.
  rewrite (sortJobs_page now st) by done. unfold policy, comparator.
  simpl in Hp. destruct Hp as [<- | [<- | [<- | []]]]; simpl.
  - destruct (ledger_top (ledgerAtSort st) (document st)) as [top Htop].
    apply (Array_sort_settled _ _
             (fun job => match ledgerAtSort st !! ref job with
                         | Some i => Z.of_nat i
                         | None => top
                         end));
      intros x y Hx Hy; apply (compareOriginal_key (ledgerAtSort st) top); eauto.
  - apply (Array_sort_settled _ _ (fun job => if isViewed now job then 0 else 1));
      intros x y _ _; [|rewrite (isViewed_clock now now' x), (isViewed_clock now now' y)];
      apply compareJobs_viewed_first_key.
  - apply (Array_sort_settled _ _ (fun job => if isViewed now job then 1 else 0));
      intros x y _ _; [|rewrite (isViewed_clock now now' x), (isViewed_clock now now' y)];
      apply compareJobs_viewed_last_key.
Qed.

Lemma sort_again_same_witness :
  let st := started "viewed-last" [viewedB; plainA; appliedC] in
  (distinctCards st /\ In (policy st) ["default"; "viewed-first"; "viewed-last"])
  /\ document (sortJobs (sampleNow + 100) (sortJobs sampleNow st))
     = document (sortJobs sampleNow st).
Proof.
  cbv zeta.
  assert (H1 : distinctCards (started "viewed-last" [viewedB; plainA; appliedC]))
    by distinct_refs.
  assert (H2 : In (policy (started "viewed-last" [viewedB; plainA; appliedC]))
                  ["default"; "viewed-first"; "viewed-last"])
    by (right; right; left; reflexivity).
  split; [auto|]. exact (sort_again_same sampleNow (sampleNow + 100) _ H1 H2).
Defined.

(** ** [recent], in general *)

(** X6: under [recent], on a page without invalid dates, the cards stand
    newest first: no card stands above a card with a later time, and the
    cards without a time stand below all the dated ones. *)
Theorem recent_order (now : Z) (st : State) :
  distinctCards st ->
  policy st = "recent" ->
  datesValid now (document st) ->
  StronglySorted (fun x y => recentKey now y <= recentKey now x) (document (sortJobs now st)).
Proof.
  intros Hnd Hp Hv. rewrite sortJobs_page by done. rewrite Hp. simpl.
  unfold comparator. unfold policy in Hp. rewrite Hp. simpl.
  apply sorted_of_before. intros x y Hxy. apply (proj1 (before_rev _ _ _)) in Hxy.
  assert (Hs : StronglySorted (fun a b => recentKey now a <= recentKey now b)
                 (Array_sort (compareJobs now "recent") (document st))).
  { apply Array_sort_sorted. intros a b Ha Hb. apply compareJobs_recent_key; by apply Hv. }
  exact (before_of_sorted (compareJobs now "recent") _ _ _ _ Hs Hxy).
Qed.

Lemma recent_order_witness :
  let st := started "recent" [card4h; cardNoTime; card10min; card2h] in
  (distinctCards st /\ policy st = "recent" /\ datesValid sampleNow (document st))
  /\ List.map ref (document (sortJobs sampleNow st)) = [11; 12; 13; 14]%nat
  /\ StronglySorted (fun x y => recentKey sampleNow y <= recentKey sampleNow x)
                    (document (sortJobs sampleNow st)).
Proof.
  cbv zeta.
  assert (H1 : distinctCards (started "recent" [card4h; cardNoTime; card10min; card2h]))
    by distinct_refs.
  assert (H2 : policy (started "recent" [card4h; cardNoTime; card10min; card2h]) = "recent")
    by reflexivity.
  assert (H3 : datesValid sampleNow
                 (document (started "recent" [card4h; cardNoTime; card10min; card2h]))).
  { intros job [<- | [<- | [<- | [<- | []]]]]; vm_compute; discriminate. }
  split; [auto|]. split; [vm_compute; reflexivity|].
  exact (recent_order sampleNow _ H1 H2 H3).
Defined.

(** X7: under [recent], a page on which no card has a time is turned
    upside down by every sort. *)
Theorem recent_undated_reverses (now : Z) (st : State) :
  distinctCards st ->
  policy st = "recent" ->
  allUndated now (document st) ->
  document (sortJobs now st) = rev (document st).
Proof.
  intros Hnd Hp Hu. rewrite sortJobs_page by done. rewrite Hp. simpl.
  unfold comparator. unfold policy in Hp. rewrite Hp. simpl. f_equal.
  apply Array_sort_ordered. intros x y Hxy. apply before_In in Hxy as [Hx Hy].
  unfold compareJobs, compareJobsAt. cbv zeta. change (String.eqb "recent" "recent") with true. cbv iota.
  by rewrite (Hu x Hx), (Hu y Hy).
Qed.

Lemma recent_undated_reverses_witness :
  let st := started "recent" [plainA; plainB; lateD] in
  (distinctCards st /\ policy st = "recent" /\ allUndated sampleNow (document st))
  /\ document (sortJobs sampleNow st) = rev (document st).
Proof.
  cbv zeta.
  assert (H1 : distinctCards (started "recent" [plainA; plainB; lateD])) by distinct_refs.
  assert (H2 : policy (started "recent" [plainA; plainB; lateD]) = "recent") by reflexivity.
  assert (H3 : allUndated sampleNow (document (started "recent" [plainA; plainB; lateD]))).
  { intros job [<- | [<- | [<- | []]]]; reflexivity. }
  split; [auto|]. exact (recent_undated_reverses sampleNow _ H1 H2 H3).
Defined.

(** ** The time of a card *)

Lemma parseDigits_nonneg s acc : 0 <= acc -> 0 <= parseDigits acc s.
Proof.
  revert acc. induction s as [|c s IH]; intros acc Hacc; cbn [parseDigits]; [done|].
  destruct (isDigit c) eqn:E; [|done]. apply IH.
  unfold isDigit in E. apply andb_true_iff in E as [E _]. apply N.leb_le in E.
  unfold digitValue. lia.
Qed.

Lemma unitSeconds_minutes u : exists k, 0 <= k /\ unitSeconds u * 1000 = k * 60000.
Proof.
  destruct u; [exists 1 | exists 60 | exists 1440 | exists 10080]; by vm_compute.
Qed.

(** X8: the time [getJobStatus] gives a card is never in the future: a
    valid date lies a whole number of minutes, zero or more, before the
    clock reading. *)
Theorem time_not_in_future (now : Z) (jobCard : Node) (t : Z) :
  time (getJobStatus now jobCard) = Some (ValidDate t) ->
  exists minutes, 0 <= minutes /\ t = now - minutes * 60000.
Proof.
  rewrite getJobStatus_time. destruct (timeText jobCard) as [text|]; [|done].
  intros H. apply parseRelativeTime_some in H as (value & u & (pre & D & _) & E).
  destruct D as (digits & _ & _ & _ & _ & _ & _ & _ & _ & _ & _ & _ & _ & _ & _ & _ & _ & ->).
  destruct (unitSeconds_minutes u) as (k & Hk & Ek). rewrite Ek in E.
  exists (parseInt digits * k). split.
  - apply Z.mul_nonneg_nonneg; [|done]. by apply parseDigits_nonneg.
  - unfold newDate in E. destruct (Z.abs _ <=? maxTimeValue); [|done].
    injection E as ->. lia.
Qed.

Lemma time_not_in_future_witness :
  time (getJobStatus sampleNow (node card2h)) = Some (ValidDate (sampleNow - 7200000))
  /\ exists minutes, 0 <= minutes /\ sampleNow - 7200000 = sampleNow - minutes * 60000.
Proof.
  assert (H : time (getJobStatus sampleNow (node card2h))
              = Some (ValidDate (sampleNow - 7200000))) by reflexivity.
  split; [exact H|]. exact (time_not_in_future sampleNow _ _ H).
Defined.

(** ** The counts *)

Lemma countStatus_processed s now now' st jobs :
  countStatus now' st (List.map (processJob s now) jobs) = countStatus now st jobs.
Proof.
  unfold countStatus. induction jobs as [|job jobs IH]; [done|].
  cbn [List.map List.filter]. rewrite processJob_status.
  destruct (JobStatus_eqb _ st); cbn [List.length]; by rewrite IH.
Qed.

Lemma jobStats_processed s now now' jobs :
  jobStats now' (List.map (processJob s now) jobs) = jobStats now jobs.
Proof.
  unfold jobStats. by rewrite !countStatus_processed, List.length_map.
Qed.

Lemma countStatus_split now jobs :
  List.length jobs
  = (countStatus now Viewed jobs + countStatus now Applied jobs
     + List.length (withStatus now Normal jobs))%nat.
Proof.
  unfold countStatus, withStatus. induction jobs as [|job jobs IH]; [done|].
  cbn [List.filter List.length].
  destruct (status (getJobStatus now (node job))); cbn [JobStatus_eqb List.length]; lia.
Qed.

(** X9: the counts a pass sends to the popup are the counts a [getStats]
    request is answered with right after it, whatever the clock reads
    then; the total is the number of cards, and every card counts once: as
    viewed, as applied or as neither. *)
Theorem stats_agree (now now' : Z) (st : State) :
  let s := jobStats now (document st) in
  sent (processJobs now st) = (sent st ++ [StatsMessage s])%list
  /\ snd (fst (onMessage now' statsRequest (processJobs now st))) = [StatsResponse s]
  /\ total s
     = (viewed s + applied s + List.length (withStatus now Normal (document st)))%nat.
Proof.
  cbv zeta. split; [|split].
  - unfold processJobs, updateStats. cbn [sent set_sent document set_document set_processedJobs].
    by rewrite jobStats_processed.
  - unfold onMessage, statsRequest. cbn [type payload String.eqb Ascii.eqb Bool.eqb fst snd app].
    by rewrite processJobs_document, jobStats_processed.
  - apply countStatus_split.
Qed.

(** ** What a pass leaves alone *)

Lemma ownClasses_processJob s now job : ownClasses (processJob s now job) = ownClasses job.
Proof.
  unfold ownClasses. rewrite processJob_classList.
  destruct (node job) as [data | name cl attrs children]; [done|].
  cbn [classList]. rewrite restyle_eq, List.filter_app.
  rewrite (filter_none _ (markersFor s _)).
  - rewrite app_nil_r. apply classList_remove_idem.
  - intros t Ht. apply negb_false_iff, hasToken_In. by eapply markersFor_markers.
Qed.

Lemma cardText_processJob s now job : cardText (processJob s now job) = cardText job.
Proof. unfold cardText, processJob. cbn [node]. by destruct (node job). Qed.

Lemma map_processJob_ref s now jobs :
  List.map ref (List.map (processJob s now) jobs) = List.map ref jobs.
Proof. rewrite List.map_map. by apply List.map_ext. Qed.

(** X10: a pass changes the markers of the cards and nothing else on the
    page: the cards stay in their places, with their text and with every
    class that is not a marker; the ledger, the settings and the timers
    are as before, and the set of processed cards is the set of the cards
    of the page. *)
Theorem processJobs_only_markers (now : Z) (st : State) :
  List.map ref (document (processJobs now st)) = List.map ref (document st)
  /\ List.map ownClasses (document (processJobs now st)) = List.map ownClasses (document st)
  /\ List.map cardText (document (processJobs now st)) = List.map cardText (document st)
  /\ originalOrder (processJobs now st) = originalOrder st
  /\ settings (processJobs now st) = settings st
  /\ timers (processJobs now st) = timers st
  /\ processedJobs (processJobs now st) = list_to_set (List.map ref (document st)).
Proof.
  rewrite processJobs_document. repeat split.
  - apply map_processJob_ref.
  - rewrite List.map_map. apply List.map_ext. intros; apply ownClasses_processJob.
  - rewrite List.map_map. apply List.map_ext. intros; apply cardText_processJob.
  - unfold processJobs. cbn [processedJobs updateStats set_sent set_document set_processedJobs].
    by rewrite map_processJob_ref.
Qed.

(** ** Start *)

Lemma processJobs_markers now st :
  List.map (fun job => List.filter isMarker (classList (node job)))
           (document (processJobs now st))
  = List.map (fun job => markersFor (settings st) (status (getJobStatus now (node job))))
             (document st).
Proof.
  rewrite processJobs_document, List.map_map. apply List.map_ext. intros job.
  rewrite processJob_classList.
  destruct (node job) as [data | name cl attrs children] eqn:En.
  - by rewrite textNode_status.
  - apply restyle_markers.
Qed.

(** X11: the stored settings reach the extension after the first pass and
    start no pass of their own.  Once they have arrived the extension holds
    them, but the page is still in its own order and carries the markers of
    the built-in settings. *)
Theorem startup_uses_defaults (now : Z) (jobListPresent : bool)
    (cards : list JobCard) (s : ExtensionSettings) :
  let st := loadSettingsCallback (init now jobListPresent (newExtension cards (Some s))) in
  settings st = s
  /\ List.map ref (document st) = List.map ref cards
  /\ List.map (fun job => List.filter isMarker (classList (node job))) (document st)
     = List.map (fun job => markersFor defaultSettings (status (getJobStatus now (node job))))
                cards.
Proof.
  cbv zeta. unfold loadSettingsCallback, init.
  set (st0 := startObserver jobListPresent (newExtension cards (Some s))).
  assert (stored (processJobs now st0) = Some s) as -> by reflexivity.
  cbn [settings set_settings document]. split; [done|]. split.
  - change (document (set_settings s (processJobs now st0)))
      with (document (processJobs now st0)).
    rewrite processJobs_document. apply map_processJob_ref.
  - change (document (set_settings s (processJobs now st0)))
      with (document (processJobs now st0)).
    by rewrite processJobs_markers.
Qed.

(** ** Passes without end *)

Lemma notifyObserver_kept now st :
  settings (notifyObserver now st) = settings st
  /\ document (notifyObserver now st) = document st
  /\ sent (notifyObserver now st) = sent st
  /\ observing (notifyObserver now st) = observing st
  /\ stored (notifyObserver now st) = stored st
  /\ records (notifyObserver now st) = [].
Proof.
  unfold notifyObserver, observerCallback. destruct (records st) as [|r rs] eqn:E; [done|].
  by destruct (shouldProcess (r :: rs)).
Qed.

Lemma processJobs_distinct now st : distinctCards st -> distinctCards (processJobs now st).
Proof.
  unfold distinctCards. by rewrite processJobs_document, map_processJob_ref.
Qed.

(** One pass under a policy other than [default], with the observer
    attached: what holds before it holds after it, with the next pass
    scheduled. *)
Lemma fireTimer_pass now due st :
  observing st = true -> records st = [] -> timers st = [due] -> due <= now ->
  policy st <> "default" -> distinctCards st ->
  (exists job, In job (document st) /\ matches jobCardSelector (node job) = true) ->
  observing (fireTimer now st) = true
  /\ records (fireTimer now st) = []
  /\ timers (fireTimer now st) = [now + 100]
  /\ policy (fireTimer now st) = policy st
  /\ distinctCards (fireTimer now st)
  /\ (exists job, In job (document (fireTimer now st))
                  /\ matches jobCardSelector (node job) = true)
  /\ sent (fireTimer now st) = (sent st ++ [StatsMessage (jobStats now (document st))])%list.
Proof.
  intros Hobs Hrec Ht Hdue Hpol Hnd (job & Hin & Hm).
  pose proof (sorting_pass_schedules_next now due [] st job Hobs Hrec Ht Hdue Hpol Hin Hm)
    as Htimers.
  revert Htimers. unfold fireTimer. rewrite Ht.
  pose proof Hdue as Hdue'. apply Z.leb_le in Hdue' as ->. unfold reprocess.
  rewrite processJobs_settings. cbn [settings set_timers].
  pose proof Hpol as Hpol'. apply String.eqb_neq in Hpol'. unfold policy in Hpol'.
  rewrite Hpol'. cbn [negb]. intros Htimers.
  set (st1 := processJobs now (set_timers [] st)) in *.
  assert (Hnd1 : distinctCards st1) by (by apply processJobs_distinct).
  destruct (notifyObserver_kept now (sortJobs now st1)) as (Es & Ed & Esent & Eo & _ & Er).
  destruct (sortJobs_kept now st1) as (Ks & _ & Ksent & Ko).
  split; [by rewrite Eo, Ko|]. split; [exact Er|]. split; [exact Htimers|].
  split; [unfold policy; by rewrite Es, Ks|].
  split; [unfold distinctCards; rewrite Ed; by apply sortJobs_distinct|].
  split.
  - exists (processJob (settings st) now job). rewrite Ed, matches_processJob. split; [|done].
    eapply Permutation_in; [symmetry; by apply sortJobs_Permutation|].
    subst st1. rewrite processJobs_document. by apply in_map.
  - rewrite Esent, Ksent. subst st1. unfold processJobs, updateStats.
    cbn [sent set_sent document set_document set_processedJobs set_timers settings].
    by rewrite jobStats_processed.
Qed.

(** X12: while a policy other than [default] is active and the observer
    is attached, one pass is enough to keep the extension busy for good:
    each pass moves the cards, the observer takes the moves for new cards,
    and the next pass follows 100 ms later.  After any number of such
    passes as many counts have been sent and the next pass is pending,
    without any card having been added. *)
Theorem passes_never_stop (n : nat) (now due : Z) (st : State) (job : JobCard) :
  observing st = true -> records st = [] ->
  timers st = [due] -> due <= now ->
  policy st <> "default" ->
  distinctCards st ->
  In job (document st) -> matches jobCardSelector (node job) = true ->
  timers (run (ticks (S n) now) st) = [now + 100 * Z.of_nat (S n)]
  /\ List.length (sent (run (ticks (S n) now) st)) = (List.length (sent st) + S n)%nat
  /\ Permutation (List.map ref (document (run (ticks (S n) now) st)))
                 (List.map ref (document st)).
Proof.
  intros Hobs Hrec Ht Hdue Hpol Hnd Hin Hm.
  assert (Hex : exists job, In job (document st) /\ matches jobCardSelector (node job) = true)
    by eauto.
  clear job Hin Hm. revert now due st Hobs Hrec Ht Hdue Hpol Hnd Hex.
  induction n as [|n IH]; intros now due st Hobs Hrec Ht Hdue Hpol Hnd Hex.
  - destruct (fireTimer_pass now due st) as (_ & _ & T & _ & _ & _  & S1); try done.
    cbn [ticks run step]. rewrite T, S1, List.length_app. cbn [List.length].
    split; [f_equal; lia|]. split; [lia|].
    unfold fireTimer. rewrite Ht. apply Z.leb_le in Hdue as ->. unfold reprocess.
    rewrite processJobs_settings. cbn [settings set_timers].
    apply String.eqb_neq in Hpol. unfold policy in Hpol. rewrite Hpol. cbn [negb].
    destruct (notifyObserver_kept now (sortJobs now (processJobs now (set_timers [] st))))
      as (_ & -> & _).
    rewrite sortJobs_Permutation by (by apply processJobs_distinct).
    by rewrite processJobs_document, map_processJob_ref.
  - destruct (fireTimer_pass now due st) as (O1 & R1 & T1 & P1 & D1 & E1 & S1); try done.
    change (run (ticks (S (S n)) now) st)
      with (run (ticks (S n) (now + 100)) (fireTimer now st)).
    destruct (IH (now + 100) (now + 100) (fireTimer now st)) as (T2 & S2 & P2);
      try done; try lia; [by rewrite P1|].
    rewrite T2, S2, S1, List.length_app. cbn [List.length].
    split; [f_equal; lia|]. split; [lia|]. rewrite P2.
    unfold fireTimer. rewrite Ht. apply Z.leb_le in Hdue as ->. unfold reprocess.
    rewrite processJobs_settings. cbn [settings set_timers].
    apply String.eqb_neq in Hpol. unfold policy in Hpol. rewrite Hpol. cbn [negb].
    destruct (notifyObserver_kept now (sortJobs now (processJobs now (set_timers [] st))))
      as (_ & -> & _).
    rewrite sortJobs_Permutation by (by apply processJobs_distinct).
    by rewrite processJobs_document, map_processJob_ref.
Qed.

Lemma passes_never_stop_witness :
  let st := pageAppends sampleNow [lateD] (started "viewed-first" [plainA; viewedB]) in
  (observing st = true /\ records st = [] /\ timers st = [sampleNow + 100]
   /\ policy st <> "default" /\ distinctCards st
   /\ In lateD (document st) /\ matches jobCardSelector (node lateD) = true)
  /\ timers (run (ticks 3 (sampleNow + 100)) st) = [sampleNow + 100 + 100 * Z.of_nat 3].
Proof.
  cbv zeta.
  set (st := pageAppends sampleNow [lateD] (started "viewed-first" [plainA; viewedB])).
  assert (H1 : observing st = true) by reflexivity.
  assert (H2 : records st = []) by reflexivity.
  assert (H3 : timers st = [sampleNow + 100]) by reflexivity.
  assert (H4 : sampleNow + 100 <= sampleNow + 100) by lia.
  assert (H5 : policy st <> "default") by discriminate.
  assert (H6 : distinctCards st).
  { unfold distinctCards. vm_compute. repeat constructor; simpl; intuition discriminate. }
  assert (H7 : In lateD (document st)) by (right; right; left; reflexivity).
  assert (H8 : matches jobCardSelector (node lateD) = true) by reflexivity.
  split; [auto 10|].
  apply (proj1 (passes_never_stop 2 (sampleNow + 100) (sampleNow + 100) st lateD
                  H1 H2 H3 H4 H5 H6 H7 H8)).
Defined.

(** ** Requests *)

Lemma onMessage_apply now s st :
  onMessage now (applyRequest s) st
  = (let st1 := processJobs now (saveSettings (set_settings s st)) in
     if negb (String.eqb (sortBy s) "default") then sortJobs now st1 else st1,
     [SuccessResponse true], true).
Proof. reflexivity. Qed.

(** X13: a request to apply settings makes them the settings of the
    extension and the stored ones, is answered once, with success, and
    leaves on the page the cards it had, in some order, each with the
    markers the new settings ask for. *)
Theorem apply_settings_effect (now : Z) (s : ExtensionSettings) (st : State) :
  distinctCards st ->
  let st' := fst (fst (onMessage now (applyRequest s) st)) in
  settings st' = s
  /\ stored st' = Some s
  /\ snd (fst (onMessage now (applyRequest s) st)) = [SuccessResponse true]
  /\ Permutation (document st') (List.map (processJob s now) (document st))
  /\ (forall job, In job (document st') ->
        List.filter isMarker (classList (node job))
        = markersFor s (status (getJobStatus now (node job)))).
Proof.
  intros Hnd. cbv zeta. rewrite onMessage_apply. cbn [fst snd].
  set (st1 := processJobs now (saveSettings (set_settings s st))).
  assert (Hnd1 : distinctCards st1) by (by apply processJobs_distinct).
  assert (Hdoc : document st1 = List.map (processJob s now) (document st)) by reflexivity.
  assert (Hmark : forall job, In job (document st1) ->
            List.filter isMarker (classList (node job))
            = markersFor s (status (getJobStatus now (node job)))).
  { intros job Hin. rewrite Hdoc in Hin. apply in_map_iff in Hin as (job0 & <- & _).
    rewrite processJob_status, processJob_classList.
    destruct (node job0) as [data | name cl attrs children] eqn:En.
    - by rewrite textNode_status.
    - apply restyle_markers. }
  destruct (sortJobs_kept now st1) as (Ks & _).
  destruct (String.eqb (sortBy s) "default") eqn:E; cbn [negb].
  - apply String.eqb_eq in E. repeat split; try done.
  - apply String.eqb_neq in E. split; [by rewrite Ks|]. split.
    { unfold sortJobs. destruct (document st1); [done|].
      set (st2 := if Nat.eqb (size (originalOrder st1)) 0
                  then captureOriginalOrder st1 else st1).
      assert (stored st2 = Some s /\ stored st1 = Some s) as [H2 _].
      { subst st2. by destruct (Nat.eqb _ 0). }
      assert (Hall : forall jobs st, stored (appendAll jobs st) = stored st).
      { clear. induction jobs as [|j jobs IH]; intros st; [done|]. cbn [appendAll fold_left].
        fold (appendAll jobs (appendChild j st)). rewrite IH. unfold appendChild.
        cbn [observing set_document]. by destruct (observing st). }
      destruct (String.eqb (sortBy (settings st2)) "default");
        [|destruct (String.eqb (sortBy (settings st2)) "recent")]; by rewrite Hall. }
    split; [done|]. split; [rewrite <- Hdoc; by apply sortJobs_Permutation|].
    intros job Hin. apply Hmark.
    eapply Permutation_in; [by apply sortJobs_Permutation | done].
Qed.

Lemma apply_settings_effect_witness :
  let st := started "default" [plainA; viewedB; appliedC] in
  let s := {| sortBy := "viewed-first"; appliedAction := "hide"; highlightViewed := false |} in
  distinctCards st
  /\ settings (fst (fst (onMessage sampleNow (applyRequest s) st))) = s
  /\ List.map ref (document (fst (fst (onMessage sampleNow (applyRequest s) st))))
     = [2; 1; 3]%nat.
Proof.
  cbv zeta.
  assert (H : distinctCards (started "default" [plainA; viewedB; appliedC])) by distinct_refs.
  split; [exact H|]. split; [|vm_compute; reflexivity].
  apply (proj1 (apply_settings_effect sampleNow _ _ H)).
Defined.

(** X14: a task that ends with [default] as the policy leaves every card
    where it was, the new cards after them.  The listener and the timer
    callback call [sortJobs] under the other policies only, so going back
    to [default] with a request does not bring back the order the page
    had before it was sorted. *)
Theorem default_leaves_order (now : Z) (e : Event) (st : State) :
  policy (step now e st) = "default" ->
  List.map ref (document (step now e st))
  = (List.map ref (document st) ++ List.map ref (appended e))%list.
Proof.
  destruct e as [cards | | request]; cbn [step appended List.map].
  - intros _. unfold pageAppends.
    match goal with |- context [notifyObserver now ?s] =>
      destruct (notifyObserver_kept now s) as (_ & -> & _) end.
    destruct (observing _); cbn [document set_records set_document]; apply List.map_app.
  - rewrite app_nil_r. unfold fireTimer. destruct (timers st) as [|due rest]; [done|].
    destruct (due <=? now); [|done]. unfold policy.
    match goal with |- context [notifyObserver now ?s] =>
      destruct (notifyObserver_kept now s) as (-> & -> & _) end.
    unfold reprocess. rewrite processJobs_settings. cbn [settings set_timers].
    destruct (String.eqb (sortBy (settings st)) "default") eqn:E; cbn [negb].
    + intros _. rewrite processJobs_document. apply map_processJob_ref.
    + destruct (sortJobs_kept now (processJobs now (set_timers rest st))) as (-> & _).
      rewrite processJobs_settings. cbn [settings set_timers]. intros H.
      apply String.eqb_neq in E. done.
  - rewrite app_nil_r. unfold policy.
    match goal with |- context [notifyObserver now ?s] =>
      destruct (notifyObserver_kept now s) as (-> & -> & _) end.
    unfold onMessage.
    destruct (String.eqb (type request) "applySettings"), (payload request) as [s|];
      cbn [fst]; try done.
    rewrite processJobs_settings. cbn [settings saveSettings set_stored set_settings].
    destruct (String.eqb (sortBy s) "default") eqn:E; cbn [negb].
    + intros _. rewrite processJobs_document. apply map_processJob_ref.
    + match goal with |- context [sortJobs now ?s] =>
        destruct (sortJobs_kept now s) as (-> & _) end.
      rewrite processJobs_settings. cbn [settings saveSettings set_stored set_settings].
      intros H. apply String.eqb_neq in E. done.
Qed.

Lemma default_leaves_order_witness :
  let st := sortJobs sampleNow (started "viewed-first" [plainA; viewedB; appliedC]) in
  let e := MessageArrives (applyRequest defaultSettings) in
  policy (step sampleNow e st) = "default"
  /\ List.map ref (document st) = [2; 1; 3]%nat
  /\ List.map ref (document (step sampleNow e st)) = [2; 1; 3]%nat.
Proof.
  cbv zeta.
  set (st := sortJobs sampleNow (started "viewed-first" [plainA; viewedB; appliedC])).
  set (e := MessageArrives (applyRequest defaultSettings)).
  assert (H : policy (step sampleNow e st) = "default") by reflexivity.
  split; [exact H|]. split; [vm_compute; reflexivity|].
  rewrite (default_leaves_order sampleNow e st H). vm_compute. reflexivity.
Defined.

(** ** The revision with the floating panel *)

Section DatetimeFacts.
Variable parseDate : string -> Date.

Lemma sortJobs_datetime_kept st :
  settings (sortJobs_datetime parseDate st) = settings st
  /\ stored (sortJobs_datetime parseDate st) = stored st
  /\ originalOrder (sortJobs_datetime parseDate st) = ledgerAtSort st.
Proof.
  assert (Hall : forall jobs st, stored (appendAll jobs st) = stored st).
  { clear. induction jobs as [|j jobs IH]; intros st; [done|]. cbn [appendAll fold_left].
    fold (appendAll jobs (appendChild j st)). rewrite IH. unfold appendChild.
    cbn [observing set_document]. by destruct (observing st). }
  unfold sortJobs_datetime, ledgerAtSort. destruct (document st) as [|j d] eqn:Ed.
  { repeat split. destruct (Nat.eqb (size (originalOrder st)) 0) eqn:E; [|done].
    unfold captureOriginalOrder. cbn [originalOrder set_originalOrder]. by rewrite Ed. }
  set (st' := if Nat.eqb (size (originalOrder st)) 0 then captureOriginalOrder st else st).
  assert (settings st' = settings st /\ stored st' = stored st) as (<- & <-).
  { subst st'. by destruct (Nat.eqb _ 0). }
  destruct (String.eqb (sortBy (settings st')) "default");
    [|destruct (String.eqb (sortBy (settings st')) "recent")];
    rewrite Hall; repeat split; apply appendAll_kept.
Qed.

Lemma sortJobs_datetime_page st :
  distinctCards st ->
  document (sortJobs_datetime parseDate st)
  = if String.eqb (policy st) "default" then
      Array_sort (compareOriginal (ledgerAtSort st)) (document st)
    else if String.eqb (policy st) "recent" then
      rev (Array_sort (compareJobs_datetime parseDate "recent") (document st))
    else Array_sort (compareJobs_datetime parseDate (policy st)) (document st).
Proof.
  intros Hnd. unfold sortJobs_datetime, ledgerAtSort, policy.
  destruct (document st) as [|j d] eqn:E.
  { by repeat destruct (String.eqb _ _). }
  set (st' := if Nat.eqb (size (originalOrder st)) 0 then captureOriginalOrder st else st).
  assert (settings st' = settings st /\ document st' = j :: d) as (Hs & Hd).
  { subst st'. destruct (Nat.eqb _ 0); [|done]. unfold captureOriginalOrder. simpl. by rewrite E. }
  unfold distinctCards in Hnd. rewrite E in Hnd. rewrite Hs.
  destruct (String.eqb (sortBy (settings st)) "default");
    [|destruct (String.eqb (sortBy (settings st)) "recent") eqn:Er].
  - apply appendAll_all; rewrite Hd; [done|]. apply Array_sort_Permutation.
  - apply String.eqb_eq in Er. rewrite Er.
    apply appendAll_all; rewrite Hd; [done|].
    rewrite <- Permutation_rev. apply Array_sort_Permutation.
  - apply appendAll_all; rewrite Hd; [done|]. apply Array_sort_Permutation.
Qed.

Lemma sortJobs_datetime_Permutation st :
  distinctCards st -> Permutation (document (sortJobs_datetime parseDate st)) (document st).
Proof.
  intros Hnd. rewrite sortJobs_datetime_page by done.
  destruct (String.eqb (policy st) "default"); [apply Array_sort_Permutation|].
  destruct (String.eqb (policy st) "recent").
  - rewrite <- Permutation_rev. apply Array_sort_Permutation.
  - apply Array_sort_Permutation.
Qed.

Lemma compareJobs_datetime_recent_key x y :
  datesValid_datetime parseDate [x; y] ->
  Number_pos (compareJobs_datetime parseDate "recent" x y)
  = (recentKey_datetime parseDate y <? recentKey_datetime parseDate x).
Proof.
  intros Hv.
  pose proof (Hv x (or_introl eq_refl)) as Bx.
  pose proof (Hv y (or_intror (or_introl eq_refl))) as By.
  revert Bx By. unfold compareJobs_datetime, recentKey_datetime. cbv zeta.
  change (String.eqb "recent" "recent") with true. cbv iota.
  destruct (time (getJobStatus_datetime parseDate (node x))) as [[tx|]|];
    destruct (time (getJobStatus_datetime parseDate (node y))) as [[ty|]|];
    try done; unfold maxTimeValue; simpl; intros Bx By.
  - destruct (Z.ltb_spec 0 (tx - ty)), (Z.ltb_spec ty tx); try done; exfalso; lia.
  - symmetry. apply Z.ltb_ge. lia.
  - symmetry. apply Z.ltb_lt. lia.
Qed.
End DatetimeFacts.

(** Sorting by the ledger brings a rearranged page back to the order the
    ledger was recorded in. *)
Lemma Array_sort_restores (order : gmap ElemRef nat) (l l' : list JobCard) :
  (forall i job, nth_error l i = Some job -> order !! ref job = Some i) ->
  Permutation l' l ->
  Array_sort (compareOriginal order) l' = l.
Proof.
  intros Hpos Hperm.
  assert (Hkey : forall job, In job l ->
            exists i, nth_error l i = Some job
                      /\ order !! ref job = Some i /\ indexKey order job = Z.of_nat i).
  { intros job Hin. apply In_nth_error in Hin as [i Hi]. exists i.
    pose proof (Hpos i job Hi) as E. unfold indexKey. by rewrite E. }
  apply (StronglySorted_unique_strong (fun x y => indexKey order x <= indexKey order y)).
  - intros x y Hx Hy Hxy Hyx. apply list_elem_of_In in Hx, Hy.
    apply (proj1 (Array_sort_In _ _ _)) in Hx. eapply Permutation_in in Hx; [|exact Hperm].
    destruct (Hkey x Hx) as (i & Hi & _ & Ki). destruct (Hkey y Hy) as (j & Hj & _ & Kj).
    assert (i = j) as -> by lia. congruence.
  - apply Array_sort_sorted. intros x y Hx Hy.
    eapply Permutation_in in Hx; [|exact Hperm]. eapply Permutation_in in Hy; [|exact Hperm].
    destruct (Hkey x Hx) as (i & _ & Ei & _). destruct (Hkey y Hy) as (j & _ & Ej & _).
    apply compareOriginal_recorded; unfold isRecorded; by rewrite ?Ei, ?Ej.
  - apply sorted_of_before. intros x y Hxy.
    destruct (before_nth x y _ Hxy) as (i & j & Hij & Hi & Hj).
    unfold indexKey. rewrite (Hpos i x Hi), (Hpos j y Hj). lia.
  - rewrite Array_sort_Permutation. exact Hperm.
Qed.

(** X15: in the revision with the floating panel the sort select sorts at
    once, whatever the value.  Choosing a policy there and then [default]
    brings the page back to the order it had before, when the ledger was
    empty at the first of the two choices. *)
Theorem panel_default_restores (parseDate : string -> Date) (p : string) (st : State) :
  distinctCards st ->
  size (originalOrder st) = 0%nat ->
  document (onSortChange parseDate "default" (onSortChange parseDate p st)) = document st.
Proof.
  intros Hnd Hsize. unfold onSortChange.
  set (st0 := saveSettings (set_settings {| sortBy := p;
                 appliedAction := appliedAction (settings st);
                 highlightViewed := highlightViewed (settings st) |} st)).
  assert (Hnd0 : distinctCards st0) by exact Hnd.
  assert (Hd0 : document st0 = document st) by reflexivity.
  assert (Hl0 : ledgerAtSort st0 = recordFrom 0 (document st) (originalOrder st)).
  { unfold ledgerAtSort. change (originalOrder st0) with (originalOrder st).
    by rewrite Hsize. }
  set (st1 := sortJobs_datetime parseDate st0).
  destruct (sortJobs_datetime_kept parseDate st0) as (_ & _ & Hl1). fold st1 in Hl1.
  pose proof (sortJobs_datetime_Permutation parseDate st0 Hnd0) as Hperm. fold st1 in Hperm.
  rewrite Hd0 in Hperm. rewrite Hl0 in Hl1.
  set (st2 := saveSettings (set_settings _ st1)).
  assert (Hnd2 : distinctCards st2).
  { unfold distinctCards. change (document st2) with (document st1).
    eapply Permutation_NoDup; [|exact Hnd]. symmetry. by apply Permutation_map. }
  rewrite sortJobs_datetime_page by exact Hnd2.
  change (policy st2) with "default". simpl.
  change (document st2) with (document st1).
  destruct (document st) as [|j0 d0] eqn:Ed.
  { symmetry in Hperm. apply Permutation_nil in Hperm. by rewrite Hperm. }
  assert (ledgerAtSort st2 = recordFrom 0 (j0 :: d0) (originalOrder st)) as ->.
  { unfold ledgerAtSort. change (originalOrder st2) with (originalOrder st1). rewrite Hl1.
    pose proof (recordFrom_nonempty 0 j0 d0 (originalOrder st)) as Hne.
    by apply Nat.eqb_neq in Hne as ->. }
  apply Array_sort_restores; [|exact Hperm].
  intros i job Hi. rewrite (recordFrom_position 0 _ _ i); [done| |done].
  unfold distinctCards in Hnd. by rewrite Ed in Hnd.
Qed.

Lemma panel_default_restores_witness :
  let st := newExtension [plainA; viewedB; appliedC] None in
  (distinctCards st /\ size (originalOrder st) = 0%nat)
  /\ List.map ref (document (onSortChange sampleParseDate "viewed-first" st)) = [2; 1; 3]%nat
  /\ document (onSortChange sampleParseDate "default"
                 (onSortChange sampleParseDate "viewed-first" st)) = document st.
Proof.
  cbv zeta.
  assert (H1 : distinctCards (newExtension [plainA; viewedB; appliedC] None)) by distinct_refs.
  assert (H2 : size (originalOrder (newExtension [plainA; viewedB; appliedC] None)) = 0%nat)
    by reflexivity.
  split; [auto|]. split; [vm_compute; reflexivity|].
  exact (panel_default_restores sampleParseDate "viewed-first" _ H1 H2).
Defined.

(** X16: in that revision [recent] shows the cards without a time first
    and the dated ones after them, newest first, when every date read
    from a [datetime] attribute is a valid one. *)
Theorem panel_recent_order (parseDate : string -> Date) (st : State) :
  distinctCards st ->
  datesValid_datetime parseDate (document st) ->
  StronglySorted
    (fun x y => recentKey_datetime parseDate y <= recentKey_datetime parseDate x)
    (document (onSortChange parseDate "recent" st)).
Proof.
  intros Hnd Hv. unfold onSortChange.
  set (st0 := saveSettings (set_settings _ st)).
  assert (Hnd0 : distinctCards st0) by exact Hnd.
  rewrite sortJobs_datetime_page by exact Hnd0.
  change (policy st0) with "recent". simpl. change (document st0) with (document st).
  apply sorted_of_before. intros x y Hxy. apply (proj1 (before_rev _ _ _)) in Hxy.
  assert (Hs : StronglySorted
                 (fun a b => recentKey_datetime parseDate a <= recentKey_datetime parseDate b)
                 (Array_sort (compareJobs_datetime parseDate "recent") (document st))).
  { apply Array_sort_sorted. intros a b Ha Hb. apply compareJobs_datetime_recent_key.
    intros job [<- | [<- | []]]; by apply Hv. }
  exact (before_of_sorted (compareJobs_datetime parseDate "recent") _ _ _ _ Hs Hxy).
Qed.

Lemma panel_recent_order_witness :
  let st := newExtension [cardEvening; plainA; cardNight] None in
  (distinctCards st /\ datesValid_datetime sampleParseDate (document st))
  /\ List.map ref (document (onSortChange sampleParseDate "recent" st)) = [1; 22; 21]%nat
  /\ StronglySorted
       (fun x y => recentKey_datetime sampleParseDate y <= recentKey_datetime sampleParseDate x)
       (document (onSortChange sampleParseDate "recent" st)).
Proof.
  cbv zeta.
  assert (H1 : distinctCards (newExtension [cardEvening; plainA; cardNight] None))
    by distinct_refs.
  assert (H2 : datesValid_datetime sampleParseDate
                 (document (newExtension [cardEvening; plainA; cardNight] None))).
  { intros job [<- | [<- | [<- | []]]]; vm_compute; done. }
  split; [auto|]. split; [vm_compute; reflexivity|].
  exact (panel_recent_order sampleParseDate _ H1 H2).
Defined.

(** X17: the radio buttons and the check box of the floating panel take
    effect at once.  Each handler changes its one setting, stores the
    settings and runs a pass: afterwards the stored settings are the
    settings in use, every card carries the markers they ask for, and the
    cards are where they were, since neither handler sorts. *)
Theorem panel_restyles (now : Z) (value : string) (checked : bool) (st : State) :
  let st1 := onAppliedActionChange now value st in
  let st2 := onHighlightChange now checked st in
  (settings st1 = {| sortBy := sortBy (settings st); appliedAction := value;
                     highlightViewed := highlightViewed (settings st) |}
   /\ stored st1 = Some (settings st1)
   /\ List.map ref (document st1) = List.map ref (document st)
   /\ List.map (fun job => List.filter isMarker (classList (node job))) (document st1)
      = List.map (fun job => markersFor (settings st1) (status (getJobStatus now (node job))))
                 (document st))
  /\ (settings st2 = {| sortBy := sortBy (settings st);
                        appliedAction := appliedAction (settings st);
                        highlightViewed := checked |}
      /\ stored st2 = Some (settings st2)
      /\ List.map ref (document st2) = List.map ref (document st)
      /\ List.map (fun job => List.filter isMarker (classList (node job))) (document st2)
         = List.map (fun job => markersFor (settings st2) (status (getJobStatus now (node job))))
                    (document st)).
Proof.
  cbv zeta. unfold onAppliedActionChange, onHighlightChange. split.
  - set (st0 := saveSettings (set_settings _ st)).
    split; [done|]. split; [done|]. split.
    + rewrite processJobs_document. apply map_processJob_ref.
    + by rewrite processJobs_markers.
  - set (st0 := saveSettings (set_settings _ st)).
    split; [done|]. split; [done|]. split.
    + rewrite processJobs_document. apply map_processJob_ref.
    + by rewrite processJobs_markers.
Qed.

(** ** The time element *)

Lemma Descendant_cons d name cl attrs c children :
  Descendant d (ElementNode name cl attrs children) ->
  Descendant d (ElementNode name cl attrs (c :: children)).
Proof.
  inversion 1; subst.
  - apply Descendant_child. simpl. auto.
  - eapply Descendant_deeper; [|eassumption]. simpl. auto.
Qed.

(** What [querySelector] finds is a descendant that matches. *)
Lemma querySelector_Some sel n d :
  querySelector sel n = Some d -> Descendant d n /\ matches sel d = true.
Proof.
  revert d. induction n as [data | name cl attrs children IH] using Node_induction;
    intros d; [done|].
  induction IH as [|c children Hc _ IHchildren]; [done|].
  rewrite querySelector_cons. destruct (matches sel c) eqn:Em.
  - intros [= <-]. split; [|done]. apply Descendant_child. simpl. auto.
  - destruct (querySelector sel c) as [d'|] eqn:Ec.
    + intros [= <-]. destruct (Hc d' eq_refl) as [Hd Hm]. split; [|done].
      eapply Descendant_deeper; [|exact Hd]. simpl. auto.
    + intros H. destruct (IHchildren H) as [Hd Hm]. split; [|done].
      by apply Descendant_cons.
Qed.

(** It finds nothing only when no descendant matches. *)
Lemma querySelector_None sel n :
  querySelector sel n = None -> forall d, Descendant d n -> matches sel d = false.
Proof.
  induction n as [data | name cl attrs children IH] using Node_induction.
  { intros _ d Hd. inversion Hd. }
  induction IH as [|c children Hc _ IHchildren].
  { intros _ d Hd. inversion Hd as [? ? ? ? Hin | ? ? ? ? ? Hin]; destruct Hin. }
  rewrite querySelector_cons. destruct (matches sel c) eqn:Em; [done|].
  destruct (querySelector sel c) as [d'|] eqn:Ec; [done|]. intros H d Hd.
  inversion Hd as [? ? ? ? Hin | ? ? ? ? c' Hin Hd']; subst.
  - destruct Hin as [<- | Hin]; [done|]. apply (IHchildren H). by apply Descendant_child.
  - destruct Hin as [<- | Hin]; [by apply Hc|].
    apply (IHchildren H). eapply Descendant_deeper; eassumption.
Qed.

Lemma Descendant_trans a b c : Descendant a b -> Descendant b c -> Descendant a c.
Proof.
  intros Hab Hbc. induction Hbc as [name cl attrs children Hin | name cl attrs children c' Hin _ IH].
  - eapply Descendant_deeper; eassumption.
  - eapply Descendant_deeper; eassumption.
Qed.

(** X18: of the three places [getJobStatus] looks for the time element,
    the second never decides: a [time] element with a [datetime]
    attribute inside the footer is inside the card, so the first lookup
    has already found one.  The time element is the first [time] element
    of the card that has a [datetime] attribute and, without any, the
    first [time] element of the card. *)
Theorem timeEl_footer_redundant (jobCard : Node) :
  timeEl jobCard
  = orElse (querySelector timeSelector jobCard) (querySelector (ByType "time") jobCard).
Proof.
  unfold timeEl. destruct (querySelector timeSelector jobCard) as [t|] eqn:E1; [done|].
  cbn [orElse]. destruct (querySelector footerSelector jobCard) as [footer|] eqn:E2; [|done].
  destruct (querySelector timeSelector footer) as [t|] eqn:E3; [|done]. exfalso.
  apply querySelector_Some in E2 as [Hf _]. apply querySelector_Some in E3 as [Ht Hm].
  pose proof (querySelector_None _ _ E1 t (Descendant_trans _ _ _ Ht Hf)). congruence.
Qed.

(** ** Passes and sorts together *)

Lemma insertSorted_map {A B : Type} (f : A -> B) (cmpA : A -> A -> Number)
    (cmpB : B -> B -> Number) x l :
  (forall x y, cmpB (f x) (f y) = cmpA x y) ->
  insertSorted cmpB (f x) (List.map f l) = List.map f (insertSorted cmpA x l).
Proof.
  intros H. induction l as [|y l IH]; [done|]. cbn [List.map insertSorted]. rewrite H.
  destruct (Number_pos (cmpA x y)); cbn [List.map]; by rewrite ?IH.
Qed.

Lemma Array_sort_map {A B : Type} (f : A -> B) (cmpA : A -> A -> Number)
    (cmpB : B -> B -> Number) l :
  (forall x y, cmpB (f x) (f y) = cmpA x y) ->
  Array_sort cmpB (List.map f l) = List.map f (Array_sort cmpA l).
Proof.
  intros H. induction l as [|x l IH]; [done|]. cbn [List.map Array_sort].
  by rewrite IH, (insertSorted_map f cmpA cmpB).
Qed.

Lemma recordFrom_refs index l l' (m : gmap ElemRef nat) :
  List.map ref l = List.map ref l' -> recordFrom index l m = recordFrom index l' m.
Proof.
  revert index l' m. induction l as [|x l IH]; intros index [|x' l'] m H; try done.
  cbn [List.map] in H. injection H as Hx H. cbn [recordFrom]. rewrite Hx. by apply IH.
Qed.

Lemma ledgerAtSort_processJobs now st : ledgerAtSort (processJobs now st) = ledgerAtSort st.
Proof.
  unfold ledgerAtSort. change (originalOrder (processJobs now st)) with (originalOrder st).
  destruct (Nat.eqb (size (originalOrder st)) 0); [|done].
  unfold captureOriginalOrder. cbn [originalOrder set_originalOrder].
  change (originalOrder (processJobs now st)) with (originalOrder st).
  apply recordFrom_refs. rewrite processJobs_document. apply map_processJob_ref.
Qed.

Lemma comparator_processJob now now' st x y :
  comparator now' (processJobs now st)
    (processJob (settings st) now x) (processJob (settings st) now y)
  = comparator now' st x y.
Proof.
  unfold comparator. rewrite processJobs_settings, ledgerAtSort_processJobs.
  destruct (String.eqb (sortBy (settings st)) "default"); [done|].
  unfold compareJobs, compareJobsAt, processJob. cbn [node]. by rewrite !getJobStatus_setClassList.
Qed.

(** X19: styling and ordering do not get in each other's way: a pass
    followed by a sort leaves the same page as the sort followed by the
    pass, whatever the policy and the two clock readings. *)
Theorem pass_and_sort_commute (now now' : Z) (st : State) :
  distinctCards st ->
  document (sortJobs now' (processJobs now st))
  = document (processJobs now (sortJobs now' st)).
Proof.
  intros Hnd. rewrite sortJobs_page by (by apply processJobs_distinct).
  rewrite (processJobs_document now (sortJobs now' st)).
  destruct (sortJobs_kept now' st) as (-> & _).
  rewrite (sortJobs_page now' st) by done.
  change (policy (processJobs now st)) with (policy st).
  rewrite processJobs_document.
  rewrite (Array_sort_map (processJob (settings st) now) (comparator now' st))
    by (intros; apply comparator_processJob).
  destruct (String.eqb (policy st) "recent"); [|done]. by rewrite List.map_rev.
Qed.

Lemma pass_and_sort_commute_witness :
  let st := withPolicy "viewed-first" (newExtension [plainA; viewedB; appliedC] None) in
  distinctCards st
  /\ List.map ref (document (sortJobs sampleNow (processJobs sampleNow st))) = [2; 1; 3]%nat
  /\ document (sortJobs sampleNow (processJobs sampleNow st))
     = document (processJobs sampleNow (sortJobs sampleNow st)).
Proof.
  cbv zeta.
  assert (H : distinctCards
                (withPolicy "viewed-first" (newExtension [plainA; viewedB; appliedC] None)))
    by distinct_refs.
  split; [exact H|]. split; [vm_compute; reflexivity|].
  exact (pass_and_sort_commute sampleNow sampleNow _ H).
Defined.

(** ** A page without an observer *)

Lemma appendAll_unobserved jobs st :
  observing st = false -> records (appendAll jobs st) = records st.
Proof.
  revert st. induction jobs as [|job jobs IH]; intros st Hobs; [done|].
  cbn [appendAll fold_left]. fold (appendAll jobs (appendChild job st)).
  rewrite IH.
  - unfold appendChild. cbn [observing set_document]. by rewrite Hobs.
  - by destruct (appendChild_kept job st) as (_ & _ & _ & _ & ->).
Qed.

Lemma sortJobs_unobserved now st :
  observing st = false -> records (sortJobs now st) = records st.
Proof.
  intros Hobs. unfold sortJobs. destruct (document st); [done|].
  set (st' := if Nat.eqb (size (originalOrder st)) 0 then captureOriginalOrder st else st).
  assert (observing st' = false /\ records st' = records st) as [Ho <-].
  { subst st'. by destruct (Nat.eqb _ 0). }
  destruct (String.eqb (sortBy (settings st')) "default");
    [|destruct (String.eqb (sortBy (settings st')) "recent")]; by apply appendAll_unobserved.
Qed.

Lemma step_unobserved now e st :
  observing st = false -> records st = [] -> timers st = [] ->
  observing (step now e st) = false /\ records (step now e st) = []
  /\ timers (step now e st) = []
  /\ ((forall request, e <> MessageArrives request) ->
      sent (step now e st) = sent st
      /\ document (step now e st) = (document st ++ appended e)%list).
Proof.
  intros Hobs Hrec Ht. destruct e as [cards | | request]; cbn [step appended].
  - unfold pageAppends. cbn [observing set_document]. rewrite Hobs.
    unfold notifyObserver. cbn [records set_document]. by rewrite Hrec.
  - unfold fireTimer. rewrite Ht, app_nil_r. done.
  - assert (Hgo : forall st1, observing st1 = false -> records st1 = [] -> timers st1 = [] ->
              observing (notifyObserver now st1) = false
              /\ records (notifyObserver now st1) = []
              /\ timers (notifyObserver now st1) = []).
    { intros st1 H1 H2 H3. unfold notifyObserver. by rewrite H2. }
    assert (Hinv : let st1 := fst (fst (onMessage now request st)) in
              observing st1 = false /\ records st1 = [] /\ timers st1 = []).
    { cbv zeta. unfold onMessage.
      destruct (String.eqb (type request) "applySettings"), (payload request) as [s|];
        cbn [fst]; try done.
      set (st1 := processJobs now (saveSettings (set_settings s st))).
      assert (H1 : observing st1 = false /\ records st1 = [] /\ timers st1 = []) by done.
      destruct H1 as (H1 & H2 & H3).
      destruct (negb (String.eqb (sortBy (settings st1)) "default")); [|done].
      destruct (sortJobs_kept now st1) as (_ & -> & _ & ->).
      by rewrite sortJobs_unobserved. }
    destruct Hinv as (H1 & H2 & H3). destruct (Hgo _ H1 H2 H3) as (-> & -> & ->).
    do 3 (split; [done|]). intros Hno. by destruct (Hno request).
Qed.

(** X20: the observer is attached when the script starts or never.  On a
    page where it is not attached nothing ever schedules a pass: whatever
    the page adds and whatever requests arrive, no timer is pending
    afterwards, and without a request the cards the page adds stay as they
    came, with no counts sent. *)
Theorem unobserved_never_schedules (events : list (Z * Event)) (st : State) :
  observing st = false -> records st = [] -> timers st = [] ->
  timers (run events st) = []
  /\ observing (run events st) = false
  /\ (List.Forall (fun e => forall request, snd e <> MessageArrives request) events ->
      sent (run events st) = sent st
      /\ document (run events st)
         = (document st ++ flat_map (fun e => appended (snd e)) events)%list).
Proof.
  revert st. induction events as [|[now e] events IH]; intros st Hobs Hrec Ht.
  - cbn [run flat_map]. by rewrite app_nil_r.
  - cbn [run flat_map snd].
    destruct (step_unobserved now e st Hobs Hrec Ht) as (Ho1 & Hr1 & Ht1 & Hs1).
    destruct (IH (step now e st) Ho1 Hr1 Ht1) as (-> & -> & Hrest).
    split; [done|]. split; [done|]. intros Hall.
    inversion Hall as [|? ? He Hevents]; subst. cbn [snd] in He.
    destruct (Hs1 He) as [Hsent Hdoc]. destruct (Hrest Hevents) as [-> ->].
    by rewrite Hsent, Hdoc, <- app_assoc.
Qed.

Lemma unobserved_never_schedules_witness :
  let st := init sampleNow false (newExtension [plainA] None) in
  let events := [ (sampleNow + 1000, PageAppends [viewedB]);
                  (sampleNow + 1100, TimerFires) ] in
  (observing st = false /\ records st = [] /\ timers st = [])
  /\ timers (run events st) = []
  /\ List.map (fun job => classList (node job)) (document (run events st))
     = [["job-card"]; ["job-card"]].
Proof.
  cbv zeta.
  set (st := init sampleNow false (newExtension [plainA] None)).
  assert (H1 : observing st = false) by reflexivity.
  assert (H2 : records st = []) by reflexivity.
  assert (H3 : timers st = []) by reflexivity.
  split; [auto|]. split; [|vm_compute; reflexivity].
  apply (proj1 (unobserved_never_schedules _ st H1 H2 H3)).
Defined.

(** ** Cards the page adds *)

Lemma pageAppends_document now cards st :
  document (pageAppends now cards st) = (document st ++ cards)%list.
Proof.
  unfold pageAppends.
  match goal with |- context [notifyObserver now ?s] =>
    destruct (notifyObserver_kept now s) as (_ & -> & _) end.
  by destruct (observing _).
Qed.

(** After a pass, sorted or not, every card carries the markers the
    settings ask for. *)
Lemma reprocess_styled now st :
  distinctCards st ->
  Permutation (List.map ref (document (reprocess now st))) (List.map ref (document st))
  /\ settings (reprocess now st) = settings st
  /\ forall job, In job (document (reprocess now st)) ->
       List.filter isMarker (classList (node job))
       = markersFor (settings st) (status (getJobStatus now (node job))).
Proof.
  intros Hnd. unfold reprocess. rewrite processJobs_settings.
  set (st1 := processJobs now st).
  assert (Hnd1 : distinctCards st1) by (by apply processJobs_distinct).
  assert (Hmark : forall job, In job (document st1) ->
            List.filter isMarker (classList (node job))
            = markersFor (settings st) (status (getJobStatus now (node job)))).
  { intros job Hin. subst st1. rewrite processJobs_document in Hin.
    apply in_map_iff in Hin as (job0 & <- & _).
    rewrite processJob_status, processJob_classList.
    destruct (node job0) as [data | name cl attrs children] eqn:En.
    - by rewrite textNode_status.
    - apply restyle_markers. }
  assert (Href : List.map ref (document st1) = List.map ref (document st)).
  { subst st1. rewrite processJobs_document. apply map_processJob_ref. }
  destruct (negb (String.eqb (sortBy (settings st)) "default")).
  - destruct (sortJobs_kept now st1) as (-> & _). split; [|split; [done|]].
    + rewrite <- Href. apply Permutation_map. by apply sortJobs_Permutation.
    + intros job Hin. apply Hmark.
      eapply Permutation_in; [by apply sortJobs_Permutation | done].
  - split; [by rewrite Href|]. split; [done|]. exact Hmark.
Qed.

(** X21: a card the page adds while the observer is attached is styled
    by the pass its insertion schedules.  Once the timer has run, 100 ms
    or more after the insertion, the page holds the old and the new cards
    and every one of them carries the markers the settings ask for; under
    [default] nothing is pending then, under another policy the next pass
    is. *)
Theorem new_cards_styled (now now' : Z) (cards : list JobCard) (st : State) (job : JobCard) :
  observing st = true -> timers st = [] ->
  List.NoDup (List.map ref (document st ++ cards)) ->
  In job cards -> matches jobCardSelector (node job) = true ->
  now + 100 <= now' ->
  let st' := run [(now, PageAppends cards); (now', TimerFires)] st in
  Permutation (List.map ref (document st')) (List.map ref (document st ++ cards))
  /\ timers st' = (if String.eqb (policy st) "default" then [] else [now' + 100])
  /\ forall j, In j (document st') ->
       List.filter isMarker (classList (node j))
       = markersFor (settings st) (status (getJobStatus now' (node j))).
Proof.
  intros Hobs Ht Hnd Hin Hm Hnow. cbv zeta. cbn [run step].
  destruct (pageAppends_timers now cards st Hobs) as (T1 & O1 & R1 & _ & S1); [eauto|].
  pose proof (pageAppends_document now cards st) as D1.
  set (st1 := pageAppends now cards st) in *. rewrite Ht in T1. cbn [app] in T1.
  assert (Hnd1 : distinctCards st1) by (unfold distinctCards; by rewrite D1).
  assert (Hin1 : In job (document st1)) by (rewrite D1; apply in_app_iff; auto).
  split; [|split].
  - unfold fireTimer. rewrite T1. apply Z.leb_le in Hnow as ->.
    match goal with |- context [notifyObserver now' ?s] =>
      destruct (notifyObserver_kept now' s) as (_ & -> & _) end.
    destruct (reprocess_styled now' (set_timers [] st1)) as (Hp & _); [done|].
    rewrite Hp. cbn [document set_timers]. by rewrite D1.
  - destruct (String.eqb (policy st) "default") eqn:Ep.
    + apply String.eqb_eq in Ep.
      apply (fireTimer_default now' (now + 100) [] st1); try done.
      unfold policy. by rewrite S1.
    + apply String.eqb_neq in Ep.
      apply (sorting_pass_schedules_next now' (now + 100) [] st1 job); try done.
      unfold policy. by rewrite S1.
  - intros j Hj. revert Hj. unfold fireTimer. rewrite T1. apply Z.leb_le in Hnow as ->.
    match goal with |- context [notifyObserver now' ?s] =>
      destruct (notifyObserver_kept now' s) as (_ & -> & _) end.
    destruct (reprocess_styled now' (set_timers [] st1)) as (_ & _ & Hmark); [done|].
    intros Hj. rewrite (Hmark j Hj). cbn [settings set_timers]. by rewrite S1.
Qed.

Lemma new_cards_styled_witness :
  let st := started "default" [plainA] in
  let st' := run [(sampleNow, PageAppends [viewedB]); (sampleNow + 100, TimerFires)] st in
  (observing st = true /\ timers st = []
   /\ List.NoDup (List.map ref (document st ++ [viewedB])%list)
   /\ In viewedB [viewedB] /\ matches jobCardSelector (node viewedB) = true
   /\ sampleNow + 100 <= sampleNow + 100)
  /\ List.map (fun job => classList (node job)) (document st')
     = [["job-card"]; ["job-card"; viewedMarker]]
  /\ timers st' = [].
Proof.
  cbv zeta.
  set (st := started "default" [plainA]).
  assert (H1 : observing st = true) by reflexivity.
  assert (H2 : timers st = []) by reflexivity.
  assert (H3 : List.NoDup (List.map ref (document st ++ [viewedB])%list)).
  { simpl. repeat constructor; simpl; intuition discriminate. }
  assert (H4 : In viewedB [viewedB]) by (left; reflexivity).
  assert (H5 : matches jobCardSelector (node viewedB) = true) by reflexivity.
  assert (H6 : sampleNow + 100 <= sampleNow + 100) by lia.
  split; [auto 10|]. split; [vm_compute; reflexivity|].
  apply (proj1 (proj2 (new_cards_styled sampleNow (sampleNow + 100) [viewedB] st viewedB
                         H1 H2 H3 H4 H5 H6))).
Defined.

(** ** The page after a sort, whatever the engine *)

Lemma distinctCards_NoDup st : distinctCards st -> List.NoDup (document st).
Proof. apply NoDup_map_inv. Qed.

(** What [sortJobs] leaves is one of the states the call may leave. *)
Lemma sortJobs_mayLeave now span st : 0 <= span -> sortJobsMay now span st (sortJobs now st).
Proof.
  intros Hspan. unfold sortJobsMay, sortJobs. destruct (document st) as [|j d]; [done|].
  cbv zeta.
  set (st1 := if Nat.eqb (size (originalOrder st)) 0 then captureOriginalOrder st else st).
  destruct (String.eqb (sortBy (settings st1)) "default").
  - eexists. split; [|reflexivity]. by apply Array_sort_mayReturn.
  - eexists. split; [|reflexivity]. apply Array_sort_mayReturn.
    intros x y. exists now, now. unfold compareJobs. repeat split; lia.
Qed.

(** When the answers of the comparator follow a key, the call leaves
    nothing else. *)
Lemma sortJobsMay_sortJobs now span st st' key :
  0 <= span -> distinctCards st ->
  follows (answersOf now span st) key (document st) ->
  sortJobsMay now span st st' -> st' = sortJobs now st.
Proof.
  intros Hspan Hnd Hkey. apply distinctCards_NoDup in Hnd.
  unfold sortJobsMay, sortJobs, answersOf, ledgerAtSort in *.
  destruct (document st) as [|j d] eqn:Ed; [done|]. cbv zeta.
  set (st1 := if Nat.eqb (size (originalOrder st)) 0 then captureOriginalOrder st else st) in *.
  assert (Hs : settings st1 = settings st) by (subst st1; by destruct (Nat.eqb _ 0)).
  rewrite Hs. destruct (String.eqb (sortBy (settings st)) "default").
  - intros (sortedJobs & Hmay & ->). f_equal.
    by apply (mayReturn_Array_sort
                (fun a b v => v = compareOriginal (originalOrder st1) a b)
                (compareOriginal (originalOrder st1)) (fun a b => eq_refl) key).
  - intros (sortedJobs & Hmay & ->).
    assert (sortedJobs = Array_sort (compareJobs now (sortBy (settings st))) (j :: d)) as ->;
      [|done].
    apply (mayReturn_Array_sort (answersAt now span (sortBy (settings st))) _) with (key := key);
      try done.
    intros x y. exists now, now. unfold compareJobs. repeat split; lia.
Qed.

(** Where no key is followed, every arrangement may be returned. *)
Lemma mayReturn_unconstrained {A : Type} (answers : A -> A -> Number -> Prop) (l l' : list A) :
  (forall key, ~ follows answers key l) -> Permutation l' l -> mayReturn answers l l'.
Proof. intros Hno Hperm. split; [done|]. intros key Hkey. destruct (Hno key Hkey). Qed.

(** ** The comparators and their keys *)

Lemma compareOriginal_neg_key (order : gmap ElemRef nat) (top : Z) x y :
  let key job := match order !! ref job with
                 | Some i => Z.of_nat i
                 | None => top
                 end in
  (forall i, order !! ref x = Some i -> Z.of_nat i < top) ->
  (forall i, order !! ref y = Some i -> Z.of_nat i < top) ->
  Number_neg (compareOriginal order x y) = (key x <? key y).
Proof.
  cbv zeta. unfold compareOriginal, indexOf. intros Hx Hy.
  destruct (order !! ref x) as [i|], (order !! ref y) as [j|]; simpl.
  - destruct (Z.ltb_spec (Z.of_nat i - Z.of_nat j) 0), (Z.ltb_spec (Z.of_nat i) (Z.of_nat j));
      try done; exfalso; lia.
  - symmetry. apply Z.ltb_lt. by apply Hx.
  - symmetry. apply Z.ltb_ge. specialize (Hy j eq_refl). lia.
  - symmetry. apply Z.ltb_irrefl.
Qed.

(** Off [recent] the comparator does not depend on the clock. *)
Lemma compareJobsAt_status nowA nowB now p x y :
  p <> "recent" -> compareJobsAt nowA nowB p x y = compareJobs now p x y.
Proof.
  intros Hp. apply String.eqb_neq in Hp. unfold compareJobs, compareJobsAt. cbv zeta.
  rewrite Hp. by rewrite (status_clock nowA now), (status_clock nowB now).
Qed.

(** Under [default], [viewed-first] and [viewed-last] the answers follow a
    key, whatever the cards and however the clock moves. *)
Lemma status_policies_follow now span st :
  In (policy st) ["default"; "viewed-first"; "viewed-last"] ->
  exists key, follows (answersOf now span st) key (document st).
Proof.
  intros Hp. unfold answersOf. unfold policy in Hp. simpl in Hp.
  destruct Hp as [<- | [<- | [<- | []]]]; simpl.
  - destruct (ledger_top (ledgerAtSort st) (document st)) as [top Htop].
    exists (fun job => match ledgerAtSort st !! ref job with
                       | Some i => Z.of_nat i
                       | None => top
                       end).
    split; [by intros a b v v' _ _ -> ->|].
    intros a b v Ha Hb ->. split.
    + apply (compareOriginal_key (ledgerAtSort st) top); eauto.
    + apply (compareOriginal_neg_key (ledgerAtSort st) top); eauto.
  - exists (fun job => if isViewed now job then 0 else 1).
    split.
    { intros a b v v' _ _ (nowA & nowB & _ & _ & ->) (nowA' & nowB' & _ & _ & ->).
      by rewrite (compareJobsAt_status nowA nowB now),
                 (compareJobsAt_status nowA' nowB' now). }
    intros a b v _ _ (nowA & nowB & _ & _ & ->).
    rewrite (compareJobsAt_status nowA nowB now) by done. rewrite compareJobs_viewed_first.
    by destruct (isViewed now a), (isViewed now b).
  - exists (fun job => if isViewed now job then 1 else 0).
    split.
    { intros a b v v' _ _ (nowA & nowB & _ & _ & ->) (nowA' & nowB' & _ & _ & ->).
      by rewrite (compareJobsAt_status nowA nowB now),
                 (compareJobsAt_status nowA' nowB' now). }
    intros a b v _ _ (nowA & nowB & _ & _ & ->).
    rewrite (compareJobsAt_status nowA nowB now) by done. rewrite compareJobs_viewed_last.
    by destruct (isViewed now a), (isViewed now b).
Qed.

Lemma compareJobs_recent_neg_key now x y :
  time (getJobStatus now (node x)) <> Some InvalidDate ->
  time (getJobStatus now (node y)) <> Some InvalidDate ->
  Number_neg (compareJobs now "recent" x y) = (recentKey now x <? recentKey now y).
Proof.
  intros Hx Hy. unfold compareJobs, compareJobsAt, recentKey. cbv zeta.
  change (String.eqb "recent" "recent") with true. cbv iota.
  pose proof (time_bound now x) as Bx. pose proof (time_bound now y) as By.
  destruct (time (getJobStatus now (node x))) as [[tx|]|];
    destruct (time (getJobStatus now (node y))) as [[ty|]|]; try done; simpl.
  - destruct (Z.ltb_spec (tx - ty) 0), (Z.ltb_spec tx ty); try done; exfalso; lia.
  - specialize (Bx tx eq_refl). symmetry. apply Z.ltb_ge. unfold maxTimeValue in *. lia.
  - specialize (By ty eq_refl). symmetry. apply Z.ltb_lt. unfold maxTimeValue in *. lia.
Qed.

(** Under [recent] the answers follow [recentKey] when no date is invalid
    and the clock stands still during the sort. *)
Lemma recent_follows now st :
  datesValid now (document st) ->
  follows (answersAt now 0 "recent") (recentKey now) (document st).
Proof.
  intros Hv. split.
  { intros a b v v' _ _ (nowA & nowB & HA & HB & ->) (nowA' & nowB' & HA' & HB' & ->).
    assert (nowA = now) as -> by lia. assert (nowB = now) as -> by lia.
    assert (nowA' = now) as -> by lia. by assert (nowB' = now) as -> by lia. }
  intros a b v Ha Hb (nowA & nowB & HA & HB & ->).
  assert (nowA = now) as -> by lia. assert (nowB = now) as -> by lia.
  fold (compareJobs now "recent" a b).
  split; [apply compareJobs_recent_key | apply compareJobs_recent_neg_key]; by apply Hv.
Qed.

(** ** Stability of the policies *)

(** C2, the part that fails: under [recent] two cards of equal rank (here
    two cards without a time) leave the sort in their order and reach the
    page in the opposite one. *)
Lemma recent_reverses_ties :
  let st := started "recent" [plainA; plainB] in
  distinctCards st
  /\ before plainA plainB (document st)
  /\ equalRank sampleNow st plainA plainB
  /\ document (sortJobs sampleNow st) = [plainB; plainA]
  /\ ~ before plainA plainB (document (sortJobs sampleNow st)).
Proof.
  cbv zeta. split; [distinct_refs|]. split; [vm_compute; auto|].
  split; [split; vm_compute; reflexivity|].
  assert (document (sortJobs sampleNow (started "recent" [plainA; plainB])) = [plainB; plainA])
    as -> by (vm_compute; reflexivity).
  split; [done|]. simpl. intros [[E _] | [[_ []] | []]]. discriminate E.
Qed.

(** C2 as it holds.  Under [default], [viewed-first] and [viewed-last]
    two cards of equal rank keep their relative order on the page, with
    [Array_sort] at a standing clock and with the sort of any engine on a
    moving one.  Under [recent], when the answers of the comparator follow
    one key throughout the sort (no invalid date among cards of different
    dates, no reading of the clock that changes an answer), two cards of
    equal rank reach the page in the opposite order, because the sorted
    array is applied in reverse. *)
Theorem equal_rank_order (now : Z) (st : State) (a b : JobCard) :
  distinctCards st ->
  before a b (document st) ->
  equalRank now st a b ->
  (In (policy st) ["default"; "viewed-first"; "viewed-last"] ->
   before a b (document (sortJobs now st))
   /\ forall span st', 0 <= span -> sortJobsMay now span st st' ->
                       before a b (document st'))
  /\ (policy st = "recent" ->
      forall span, 0 <= span ->
      (exists key, follows (answersAt now span "recent") key (document st)) ->
      before b a (document (sortJobs now st))
      /\ forall st', sortJobsMay now span st st' -> before b a (document st')).
Proof.
  intros Hnd Hab [Hpos _].
  pose proof (Array_sort_stable (comparator now st) a b (document st) Hab Hpos) as Hs.
  assert (Hfun : if String.eqb (policy st) "recent"
                 then before b a (document (sortJobs now st))
                 else before a b (document (sortJobs now st))).
  { rewrite sortJobs_page by done.
    destruct (String.eqb (policy st) "recent"); [by apply before_rev | done]. }
  split.
  - intros Hp.
    assert (E : String.eqb (policy st) "recent" = false).
    { simpl in Hp. destruct Hp as [<- | [<- | [<- | []]]]; reflexivity. }
    rewrite E in Hfun. split; [done|]. intros span st' Hspan Hmay.
    destruct (status_policies_follow now span st Hp) as [key Hkey].
    by rewrite (sortJobsMay_sortJobs now span st st' key Hspan Hnd Hkey Hmay).
  - intros Hp span Hspan [key Hkey]. rewrite Hp in Hfun. simpl in Hfun.
    split; [done|]. intros st' Hmay.
    assert (Hkey' : follows (answersOf now span st) key (document st)).
    { unfold answersOf. unfold policy in Hp. by rewrite Hp. }
    by rewrite (sortJobsMay_sortJobs now span st st' key Hspan Hnd Hkey' Hmay).
Qed.

Lemma equal_rank_order_witness :
  let st := started "viewed-first" [plainA; viewedB; lateD] in
  let st2 := started "recent" [plainA; plainB] in
  (distinctCards st
   /\ before plainA lateD (document st)
   /\ equalRank sampleNow st plainA lateD
   /\ before plainA lateD (document (sortJobs sampleNow st)))
  /\ (distinctCards st2
      /\ before plainA plainB (document st2)
      /\ equalRank sampleNow st2 plainA plainB
      /\ follows (answersAt sampleNow 1000 "recent") (fun _ => 0) (document st2)
      /\ before plainB plainA (document (sortJobs sampleNow st2))).
Proof.
  cbv zeta. split.
  - assert (H1 : distinctCards (started "viewed-first" [plainA; viewedB; lateD]))
      by distinct_refs.
    assert (H2 : before plainA lateD
                   (document (started "viewed-first" [plainA; viewedB; lateD])))
      by (vm_compute; auto).
    assert (H3 : equalRank sampleNow (started "viewed-first" [plainA; viewedB; lateD])
                   plainA lateD)
      by (split; vm_compute; reflexivity).
    split; [exact H1|]. split; [exact H2|]. split; [exact H3|].
    apply (proj1 (equal_rank_order sampleNow _ plainA lateD H1 H2 H3)).
    right; left. reflexivity.
  - assert (H1 : distinctCards (started "recent" [plainA; plainB])) by distinct_refs.
    assert (H2 : before plainA plainB (document (started "recent" [plainA; plainB])))
      by (vm_compute; auto).
    assert (H3 : equalRank sampleNow (started "recent" [plainA; plainB]) plainA plainB)
      by (split; vm_compute; reflexivity).
    assert (H4 : follows (answersAt sampleNow 1000 "recent") (fun _ => 0)
                   (document (started "recent" [plainA; plainB]))).
    { split.
      - intros x y v v' [<- | [<- | []]] [<- | [<- | []]]
               (nowA & nowB & _ & _ & ->) (nowA' & nowB' & _ & _ & ->); reflexivity.
      - intros x y v [<- | [<- | []]] [<- | [<- | []]] (nowA & nowB & _ & _ & ->);
          split; reflexivity. }
    split; [exact H1|]. split; [exact H2|]. split; [exact H3|]. split; [exact H4|].
    apply (proj1 (proj2 (equal_rank_order sampleNow _ plainA plainB H1 H2 H3)
                    eq_refl 1000 ltac:(lia)
                    (ex_intro (fun key => follows _ key _) (fun _ => 0) H4))).
Defined.

(** Why [recent] needs the condition.  Two cards read "2 hours ago"; the
    clock ticks once during the sort.  The comparator answers 0 on them
    when its two readings agree and -1 when the second is a millisecond
    later: no key is followed, and the sort may as well return the two in
    the order that leaves them on the page as they stood. *)
Lemma ticking_clock_frees_ties :
  let st := started "recent" [card2h; card2hToo] in
  equalRank sampleNow st card2h card2hToo
  /\ compareJobsAt sampleNow (sampleNow + 1) "recent" card2h card2hToo = Num (-1)
  /\ (forall key, ~ follows (answersAt sampleNow 1 "recent") key (document st))
  /\ exists st', sortJobsMay sampleNow 1 st st' /\ document st' = [card2h; card2hToo].
Proof.
  cbv zeta.
  assert (Hno : forall key, ~ follows (answersAt sampleNow 1 "recent") key
                              (document (started "recent" [card2h; card2hToo]))).
  { intros key H.
    destruct (proj2 H card2h card2hToo (Num 0)) as [_ E0];
      [left; reflexivity | right; left; reflexivity | |].
    { exists sampleNow, sampleNow. repeat split; try (unfold sampleNow; lia). }
    destruct (proj2 H card2h card2hToo (Num (-1))) as [_ E1];
      [left; reflexivity | right; left; reflexivity | |].
    { exists sampleNow, (sampleNow + 1). repeat split; try (unfold sampleNow; lia). }
    simpl in E0, E1. change (0 <? 0) with false in E0. change (-1 <? 0) with true in E1.
    congruence. }
  split; [split; vm_compute; reflexivity|]. split; [vm_compute; reflexivity|].
  split; [exact Hno|].
  eexists. split.
  - unfold sortJobsMay. simpl. exists [card2hToo; card2h]. split; [|reflexivity].
    apply mayReturn_unconstrained; [exact Hno|]. apply perm_swap.
  - vm_compute. reflexivity.
Qed.

(** The same with a date out of range.  The comparator answers NaN on the
    card of that date against either of two cards of different dates, and
    "greater" on those two: no key is followed, and the sort may return
    the cards in the order that leaves the page as it stood, the card out
    of range still ahead of a card of equal rank. *)
Lemma invalid_date_frees_ties :
  let st := started "recent" [cardOutOfRange; card10min; card2h] in
  time (getJobStatus sampleNow (node cardOutOfRange)) = Some InvalidDate
  /\ equalRank sampleNow st cardOutOfRange card10min
  /\ (forall span key, 0 <= span ->
        ~ follows (answersAt sampleNow span "recent") key (document st))
  /\ exists st', sortJobsMay sampleNow 0 st st'
                 /\ document st' = [cardOutOfRange; card10min; card2h].
Proof.
  cbv zeta.
  assert (Hno : forall span key, 0 <= span ->
            ~ follows (answersAt sampleNow span "recent") key
                (document (started "recent" [cardOutOfRange; card10min; card2h]))).
  { intros span key Hspan H.
    assert (Hat : forall x y, answersAt sampleNow span "recent" x y
                                (compareJobs sampleNow "recent" x y)).
    { intros x y. exists sampleNow, sampleNow. unfold compareJobs. repeat split; lia. }
    destruct (proj2 H cardOutOfRange card10min _ ltac:(simpl; auto) ltac:(simpl; auto)
                (Hat _ _)) as [A1 A2].
    destruct (proj2 H cardOutOfRange card2h _ ltac:(simpl; auto) ltac:(simpl; auto)
                (Hat _ _)) as [B1 B2].
    destruct (proj2 H card10min card2h _ ltac:(simpl; auto) ltac:(simpl; auto)
                (Hat _ _)) as [C1 _].
    vm_compute in A1, A2, B1, B2, C1.
    revert A1 A2 B1 B2 C1.
    generalize (key cardOutOfRange), (key card10min), (key card2h). intros k0 k1 k2.
    fold (Z.ltb k1 k0) (Z.ltb k0 k1) (Z.ltb k2 k0) (Z.ltb k0 k2) (Z.ltb k2 k1).
    intros A1 A2 B1 B2 C1. symmetry in A1, A2, B1, B2, C1.
    apply Z.ltb_ge in A1, A2, B1, B2. apply Z.ltb_lt in C1. lia. }
  split; [vm_compute; reflexivity|]. split; [split; vm_compute; reflexivity|].
  split; [exact Hno|].
  eexists. split.
  - unfold sortJobsMay. simpl. exists [card2h; card10min; cardOutOfRange].
    split; [|reflexivity].
    apply mayReturn_unconstrained; [intros key; apply Hno; lia|].
    change [card2h; card10min; cardOutOfRange] with (rev [cardOutOfRange; card10min; card2h]).
    symmetry. apply Permutation_rev.
  - vm_compute. reflexivity.
Qed.

(** ** The example page under [recent], in both revisions *)

(** In the revision that parses the relative time: the four cards at a
    standing clock. *)
Lemma recent_example_sorted now st a b c d :
  0 <= now <= maxTimeValue ->
  policy st = "recent" ->
  distinctCards st ->
  Permutation (document st) [a; b; c; d] ->
  timeText (node a) = Some "10 minutes ago" ->
  timeText (node b) = Some "2 hours ago" ->
  timeText (node c) = Some "4 hours ago" ->
  timeEl (node d) = None ->
  datesValid now (document st) /\ document (sortJobs now st) = [a; b; c; d].
Proof.
  intros Hnow Hp Hnd Hperm Ha Hb Hc Hd.
  assert (Ta : time (getJobStatus now (node a)) = Some (ValidDate (now - 600000))).
  { eapply time_of_text; [exact Ha | reflexivity | unfold maxTimeValue in *; lia]. }
  assert (Tb : time (getJobStatus now (node b)) = Some (ValidDate (now - 7200000))).
  { eapply time_of_text; [exact Hb | reflexivity | unfold maxTimeValue in *; lia]. }
  assert (Tc : time (getJobStatus now (node c)) = Some (ValidDate (now - 14400000))).
  { eapply time_of_text; [exact Hc | reflexivity | unfold maxTimeValue in *; lia]. }
  assert (Td : time (getJobStatus now (node d)) = None) by by apply time_of_none.
  assert (Ka : recentKey now a = now - 600000) by (unfold recentKey; by rewrite Ta).
  assert (Kb : recentKey now b = now - 7200000) by (unfold recentKey; by rewrite Tb).
  assert (Kc : recentKey now c = now - 14400000) by (unfold recentKey; by rewrite Tc).
  assert (Kd : recentKey now d = - maxTimeValue - 1) by (unfold recentKey; by rewrite Td).
  assert (Hin : forall x, In x (document st) -> x = a \/ x = b \/ x = c \/ x = d).
  { intros x Hx. eapply Permutation_in in Hx; [|exact Hperm]. simpl in Hx. intuition auto. }
  assert (Hvalid : datesValid now (document st)).
  { intros x Hx. destruct (Hin x Hx) as [-> | [-> | [-> | ->]]]; congruence. }
  split; [exact Hvalid|].
  rewrite sortJobs_page by done. rewrite Hp. simpl.
  unfold comparator. replace (sortBy (settings st)) with "recent" by done. simpl.
  set (sorted := Array_sort (compareJobs now "recent") (document st)).
  assert (sorted = [d; c; b; a]) as ->; [|done].
  apply (StronglySorted_unique_strong (fun x y => recentKey now x <= recentKey now y)).
  - intros x y Hx Hy Hxy Hyx. apply list_elem_of_In in Hx, Hy.
    apply (proj1 (Array_sort_In _ _ _)) in Hx. apply Hin in Hx. simpl in Hy.
    unfold maxTimeValue in *.
    destruct Hx as [-> | [-> | [-> | ->]]];
      destruct Hy as [<- | [<- | [<- | [<- | []]]]]; try done; lia.
  - apply Array_sort_sorted. intros x y Hx Hy. apply compareJobs_recent_key; auto.
  - unfold maxTimeValue in *.
    repeat (constructor; [|repeat (constructor; try lia)]). constructor.
  - subst sorted. rewrite Array_sort_Permutation, Hperm.
    change [a; b; c; d] with (rev [d; c; b; a]). symmetry. apply Permutation_rev.
Qed.

(** In the revision that reads the [datetime] attribute: under [recent]
    the page is in the order of [recentKey_datetime], newest first. *)
Lemma sortJobs_datetime_recent_sorted parseDate st :
  distinctCards st ->
  policy st = "recent" ->
  datesValid_datetime parseDate (document st) ->
  StronglySorted
    (fun x y => recentKey_datetime parseDate y <= recentKey_datetime parseDate x)
    (document (sortJobs_datetime parseDate st)).
Proof.
  intros Hnd Hp Hv. rewrite sortJobs_datetime_page by done. rewrite Hp. simpl.
  apply sorted_of_before. intros x y Hxy. apply (proj1 (before_rev _ _ _)) in Hxy.
  assert (Hs : StronglySorted
                 (fun a b => recentKey_datetime parseDate a <= recentKey_datetime parseDate b)
                 (Array_sort (compareJobs_datetime parseDate "recent") (document st))).
  { apply Array_sort_sorted. intros a b Ha Hb. apply compareJobs_datetime_recent_key.
    intros job [<- | [<- | []]]; by apply Hv. }
  exact (before_of_sorted (compareJobs_datetime parseDate "recent") _ _ _ _ Hs Hxy).
Qed.

(** C1, where it fails: the revision that reads the [datetime] attribute.
    Cards that carry the relative times as text only have no time there,
    and the page is turned upside down; cards that carry them with a
    [datetime] attribute are shown newest first, below the card without a
    time. *)
Lemma datetime_revision_example_order :
  let st := started "recent" [card10min; card2h; card4h; cardNoTime] in
  let st2 := started "recent" [cardNoTime; stamped4h; stamped10min; stamped2h] in
  (timeText (node card10min) = Some "10 minutes ago"
   /\ timeText (node card2h) = Some "2 hours ago"
   /\ timeText (node card4h) = Some "4 hours ago"
   /\ timeEl (node cardNoTime) = None
   /\ document (sortJobs_datetime parseStamp st) = [cardNoTime; card4h; card2h; card10min]
   /\ document (sortJobs_datetime parseStamp st) <> [card10min; card2h; card4h; cardNoTime])
  /\ (timeText (node stamped10min) = Some "10 minutes ago"
      /\ timeText (node stamped2h) = Some "2 hours ago"
      /\ timeText (node stamped4h) = Some "4 hours ago"
      /\ document (sortJobs_datetime parseStamp st2)
         = [cardNoTime; stamped10min; stamped2h; stamped4h]
      /\ document (sortJobs_datetime parseStamp st2)
         <> [stamped10min; stamped2h; stamped4h; cardNoTime]).
Proof.
  cbv zeta. split.
  - do 4 (split; [reflexivity|]).
    assert (document (sortJobs_datetime parseStamp
                        (started "recent" [card10min; card2h; card4h; cardNoTime]))
            = [cardNoTime; card4h; card2h; card10min]) as -> by (vm_compute; reflexivity).
    split; [done | discriminate].
  - do 3 (split; [reflexivity|]).
    assert (document (sortJobs_datetime parseStamp
                        (started "recent" [cardNoTime; stamped4h; stamped10min; stamped2h]))
            = [cardNoTime; stamped10min; stamped2h; stamped4h]) as ->
      by (vm_compute; reflexivity).
    split; [done | discriminate].
Qed.

(** C1 as it holds.  In the revision that parses the relative time, a
    page holding, in any order, a card reading "10 minutes ago", one
    reading "2 hours ago", one reading "4 hours ago" and one without a time
    fragment shows them in that order after [sortJobs] under [recent]:
    with [Array_sort], and with the sort of any engine while the clock
    stands still.  The revision that reads the [datetime] attribute does
    not consult the text: a card whose time element has no such attribute
    has no time, and under [recent], when every date read from an
    attribute is a valid one, the dated cards stand newest first. *)
Theorem recent_example_order
    (now : Z) (parseDate : string -> Date) (st : State) (a b c d : JobCard) :
  policy st = "recent" ->
  distinctCards st ->
  (0 <= now <= maxTimeValue ->
   Permutation (document st) [a; b; c; d] ->
   timeText (node a) = Some "10 minutes ago" ->
   timeText (node b) = Some "2 hours ago" ->
   timeText (node c) = Some "4 hours ago" ->
   timeEl (node d) = None ->
   document (sortJobs now st) = [a; b; c; d]
   /\ forall st', sortJobsMay now 0 st st' -> document st' = [a; b; c; d])
  /\ (forall job el,
        timeEl (node job) = Some el -> getAttribute "datetime" el = None ->
        time (getJobStatus_datetime parseDate (node job)) = None)
  /\ (datesValid_datetime parseDate (document st) ->
      forall x y tx ty,
        before x y (document (sortJobs_datetime parseDate st)) ->
        time (getJobStatus_datetime parseDate (node x)) = Some (ValidDate tx) ->
        time (getJobStatus_datetime parseDate (node y)) = Some (ValidDate ty) ->
        ty <= tx).
Proof.
  intros Hp Hnd. split; [|split].
  - intros Hnow Hperm Ha Hb Hc Hd.
    destruct (recent_example_sorted now st a b c d Hnow Hp Hnd Hperm Ha Hb Hc Hd)
      as [Hv Hdoc].
    split; [exact Hdoc|]. intros st' Hmay.
    assert (Hkey : follows (answersOf now 0 st) (recentKey now) (document st)).
    { unfold answersOf. unfold policy in Hp. rewrite Hp. by apply recent_follows. }
    by rewrite (sortJobsMay_sortJobs now 0 st st' (recentKey now) ltac:(lia) Hnd Hkey Hmay).
  - intros job el Hel Hattr. unfold getJobStatus_datetime. simpl. by rewrite Hel, Hattr.
  - intros Hv x y tx ty Hxy Tx Ty.
    pose proof (before_of_sorted (compareJobs_datetime parseDate "recent") _ _ _ _
                  (sortJobs_datetime_recent_sorted parseDate st Hnd Hp Hv) Hxy) as H.
    cbv beta in H. unfold recentKey_datetime in H. by rewrite Tx, Ty in H.
Qed.

Lemma recent_example_order_witness :
  let st := started "recent" [cardNoTime; card4h; card10min; card2h] in
  let st2 := started "recent" [cardNoTime; stamped4h; stamped10min; stamped2h] in
  ((policy st = "recent" /\ distinctCards st
    /\ 0 <= sampleNow <= maxTimeValue
    /\ Permutation (document st) [card10min; card2h; card4h; cardNoTime])
   /\ (timeText (node card10min) = Some "10 minutes ago"
       /\ timeText (node card2h) = Some "2 hours ago"
       /\ timeText (node card4h) = Some "4 hours ago"
       /\ timeEl (node cardNoTime) = None)
   /\ document (sortJobs sampleNow st) = [card10min; card2h; card4h; cardNoTime])
  /\ ((policy st2 = "recent" /\ distinctCards st2
       /\ datesValid_datetime parseStamp (document st2))
      /\ (before stamped10min stamped4h (document (sortJobs_datetime parseStamp st2))
          /\ time (getJobStatus_datetime parseStamp (node stamped10min))
             = Some (ValidDate 1699999400000)
          /\ time (getJobStatus_datetime parseStamp (node stamped4h))
             = Some (ValidDate 1699985600000))
      /\ 1699985600000 <= 1699999400000).
Proof.
  cbv zeta. split.
  - assert (H0 : 0 <= sampleNow <= maxTimeValue) by (unfold sampleNow, maxTimeValue; lia).
    assert (H1 : policy (started "recent" [cardNoTime; card4h; card10min; card2h]) = "recent")
      by reflexivity.
    assert (H2 : distinctCards (started "recent" [cardNoTime; card4h; card10min; card2h]))
      by distinct_refs.
    assert (H3 : Permutation
                   (document (started "recent" [cardNoTime; card4h; card10min; card2h]))
                   [card10min; card2h; card4h; cardNoTime]).
    { change (document (started "recent" [cardNoTime; card4h; card10min; card2h]))
        with [cardNoTime; card4h; card10min; card2h].
      apply (Permutation_cons_app [card10min; card2h; card4h] []). simpl.
      apply (Permutation_cons_app [card10min; card2h] []). simpl. reflexivity. }
    assert (H4 : timeText (node card10min) = Some "10 minutes ago") by reflexivity.
    assert (H5 : timeText (node card2h) = Some "2 hours ago") by reflexivity.
    assert (H6 : timeText (node card4h) = Some "4 hours ago") by reflexivity.
    assert (H7 : timeEl (node cardNoTime) = None) by reflexivity.
    split; [auto|]. split; [auto|].
    exact (proj1 (proj1 (recent_example_order sampleNow parseStamp _ _ _ _ _ H1 H2)
                    H0 H3 H4 H5 H6 H7)).
  - assert (H1 : policy (started "recent" [cardNoTime; stamped4h; stamped10min; stamped2h])
                 = "recent") by reflexivity.
    assert (H2 : distinctCards
                   (started "recent" [cardNoTime; stamped4h; stamped10min; stamped2h]))
      by distinct_refs.
    assert (H3 : datesValid_datetime parseStamp
                   (document (started "recent"
                                [cardNoTime; stamped4h; stamped10min; stamped2h]))).
    { intros job [<- | [<- | [<- | [<- | []]]]]; vm_compute; done. }
    assert (H4 : before stamped10min stamped4h
                   (document (sortJobs_datetime parseStamp
                                (started "recent"
                                   [cardNoTime; stamped4h; stamped10min; stamped2h])))).
    { assert (document (sortJobs_datetime parseStamp
                          (started "recent"
                             [cardNoTime; stamped4h; stamped10min; stamped2h]))
              = [cardNoTime; stamped10min; stamped2h; stamped4h]) as ->
        by (vm_compute; reflexivity).
      simpl. right. left. split; [reflexivity|]. right; left; reflexivity. }
    assert (H5 : time (getJobStatus_datetime parseStamp (node stamped10min))
                 = Some (ValidDate 1699999400000)) by reflexivity.
    assert (H6 : time (getJobStatus_datetime parseStamp (node stamped4h))
                 = Some (ValidDate 1699985600000)) by reflexivity.
    split; [auto|]. split; [auto|].
    exact (proj2 (proj2 (recent_example_order sampleNow parseStamp _
                           cardNoTime cardNoTime cardNoTime cardNoTime H1 H2))
             H3 _ _ _ _ H4 H5 H6).
Defined.

(** * Properties of the popup *)

(** ** [JSON.stringify] tells settings apart *)

Lemma unescapeChar_escapeChar c r :
  Popup.unescapeChar (Popup.escapeChar c ++ r) = Some (c, r).
Proof. destruct c as [[] [] [] [] [] [] [] []]; reflexivity. Qed.

Lemma unescapeChar_quotationMark r :
  Popup.unescapeChar (String Popup.quotationMark r) = None.
Proof. reflexivity. Qed.

Lemma escapeString_inj s1 s2 r1 r2 :
  Popup.escapeString s1 ++ String Popup.quotationMark r1
  = Popup.escapeString s2 ++ String Popup.quotationMark r2 ->
  s1 = s2 /\ r1 = r2.
Proof.
  revert s2. induction s1 as [|c1 s1 IH]; intros [|c2 s2] H; cbn [Popup.escapeString] in H.
  - change (String Popup.quotationMark r1 = String Popup.quotationMark r2) in H.
    by injection H as ->.
  - change (String Popup.quotationMark r1 = (Popup.escapeChar c2 ++ Popup.escapeString s2)
                                           ++ String Popup.quotationMark r2) in H.
    rewrite append_assoc in H. apply (f_equal Popup.unescapeChar) in H.
    by rewrite unescapeChar_quotationMark, unescapeChar_escapeChar in H.
  - change ((Popup.escapeChar c1 ++ Popup.escapeString s1) ++ String Popup.quotationMark r1
            = String Popup.quotationMark r2) in H.
    rewrite append_assoc in H. apply (f_equal Popup.unescapeChar) in H.
    by rewrite unescapeChar_quotationMark, unescapeChar_escapeChar in H.
  - rewrite !append_assoc in H. apply (f_equal Popup.unescapeChar) in H.
    rewrite !unescapeChar_escapeChar in H. injection H as -> H.
    by destruct (IH s2 H) as [-> ->].
Qed.

Lemma quoteJSONString_inj s1 s2 r1 r2 :
  Popup.quoteJSONString s1 ++ r1 = Popup.quoteJSONString s2 ++ r2 -> s1 = s2 /\ r1 = r2.
Proof.
  unfold Popup.quoteJSONString. rewrite !append_cons, !append_assoc.
  intros [= H]. by apply escapeString_inj.
Qed.

Lemma JSON_stringify_inj a b : Popup.JSON_stringify a = Popup.JSON_stringify b -> a = b.
Proof.
  unfold Popup.JSON_stringify. intros H.
  apply append_inv_l, append_inv_l, append_inv_l in H.
  apply quoteJSONString_inj in H as [H1 H].
  apply append_inv_l, append_inv_l, append_inv_l in H.
  apply quoteJSONString_inj in H as [H2 H].
  apply append_inv_l, append_inv_l, append_inv_l in H.
  destruct a as [s1 a1 h1], b as [s2 a2 h2]. cbn [sortBy appliedAction highlightViewed] in *.
  subst. f_equal. destruct h1, h2; try done; by cbv in H.
Qed.

(** ** Pending changes *)

Lemma updateStateIndicator_kept p :
  Popup.currentSettings (Popup.updateStateIndicator p) = Popup.currentSettings p
  /\ Popup.savedSettings (Popup.updateStateIndicator p) = Popup.savedSettings p
  /\ Popup.hasChanges (Popup.updateStateIndicator p) = Popup.hasChanges p
  /\ Popup.applyBtn (Popup.updateStateIndicator p) = Popup.applyBtn p
  /\ Popup.timeouts (Popup.updateStateIndicator p) = Popup.timeouts p
  /\ Popup.shownCounts (Popup.updateStateIndicator p) = Popup.shownCounts p.
Proof.
  unfold Popup.updateStateIndicator.
  destruct (Popup.indicator p), (Popup.stateText p); try done.
  destruct (Popup.hasChanges p) eqn:E; cbn; by rewrite ?E.
Qed.

(** X22: after [updateSettingsFromUI] the current settings are those the
    form shows, the saved ones are untouched, and [hasChanges] is false
    exactly when the two agree: the comparison of the two
    [JSON.stringify] texts never takes different settings for equal. *)
Theorem pending_iff_changed (form : Popup.Form) (p p' : Popup.Page) :
  Popup.updateSettingsFromUI form p = Some p' ->
  Popup.formSettings form = Some (Popup.currentSettings p')
  /\ Popup.savedSettings p' = Popup.savedSettings p
  /\ (Popup.hasChanges p' = false <-> Popup.currentSettings p' = Popup.savedSettings p).
Proof.
  unfold Popup.updateSettingsFromUI, Popup.formSettings.
  destruct (Popup.sortBySelect form) as [value|]; [|done].
  destruct (Popup.highlightViewedCheckbox form) as [checked|]; [|done].
  cbv zeta. intros [= <-].
  set (s := {| sortBy := value;
               appliedAction := Popup.selectedAppliedAction (Popup.appliedActionRadios form);
               highlightViewed := checked |}).
  set (q := Popup.set_hasChanges _ _).
  assert (Hq : Popup.currentSettings q = s /\ Popup.savedSettings q = Popup.savedSettings p
               /\ Popup.hasChanges q
                  = negb (String.eqb (Popup.JSON_stringify s)
                                     (Popup.JSON_stringify (Popup.savedSettings p))))
    by done.
  destruct (updateStateIndicator_kept q) as (-> & -> & -> & _).
  destruct Hq as (-> & -> & ->).
  split; [done|]. split; [done|]. rewrite negb_false_iff, String.eqb_eq. split.
  - apply JSON_stringify_inj.
  - by intros ->.
Qed.

Lemma pending_iff_changed_witness :
  let p' := Popup.updateStateIndicator
              (Popup.set_hasChanges true
                 (Popup.set_currentSettings
                    {| sortBy := "viewed-first"; appliedAction := "hide";
                       highlightViewed := false |}
                    Popup.samplePage)) in
  Popup.updateSettingsFromUI Popup.sampleForm Popup.samplePage = Some p'
  /\ Popup.formSettings Popup.sampleForm = Some (Popup.currentSettings p')
  /\ Popup.savedSettings p' = Popup.savedSettings Popup.samplePage.
Proof.
  cbv zeta.
  assert (H : Popup.updateSettingsFromUI Popup.sampleForm Popup.samplePage
              = Some (Popup.updateStateIndicator
                        (Popup.set_hasChanges true
                           (Popup.set_currentSettings
                              {| sortBy := "viewed-first"; appliedAction := "hide";
                                 highlightViewed := false |}
                              Popup.samplePage)))) by reflexivity.
  split; [exact H|].
  destruct (pending_iff_changed _ _ _ H) as (H1 & H2 & _). by split.
Defined.

(** ** The state indicator *)

Lemma filter_single {A : Type} (f : A -> bool) (c : A) (l : list A) :
  List.NoDup l -> In c l -> f c = true ->
  (forall x, In x l -> f x = true -> x = c) ->
  List.filter f l = [c].
Proof.
  intros Hnd Hin Hc Hall. induction Hnd as [|x l Hx Hnd IH]; [done|].
  cbn [List.filter]. destruct Hin as [-> | Hin].
  - rewrite Hc. f_equal. apply filter_none. intros y Hy.
    destruct (f y) eqn:E; [|done]. assert (y = c) by (apply Hall; simpl; auto). by subst.
  - destruct (f x) eqn:E.
    + assert (x = c) by (apply Hall; simpl; auto). by subst.
    + apply IH; [done|]. intros; apply Hall; simpl; auto.
Qed.

(** Removing the other state classes and adding [c] leaves [c] as the
    only state class. *)
Lemma shownStates_set (c : string) (others cl : list string) :
  List.NoDup cl ->
  hasToken c Popup.stateClasses = true ->
  (forall t, hasToken t Popup.stateClasses = true -> t = c \/ In t others) ->
  Popup.shownStates (classList_add c (classList_remove others cl)) = [c].
Proof.
  intros Hnd Hc Hall. set (cl1 := classList_remove others cl).
  assert (Hnd1 : List.NoDup cl1) by (by apply List.NoDup_filter).
  assert (H1 : forall x, In x cl1 -> hasToken x Popup.stateClasses = true -> x = c).
  { intros x Hx Hs. apply classList_remove_In in Hx as [_ Hx].
    destruct (Hall x Hs); [done | tauto]. }
  unfold classList_add, Popup.shownStates. destruct (hasToken c cl1) eqn:E.
  - apply hasToken_In in E. by apply filter_single.
  - rewrite List.filter_app. cbn [List.filter]. rewrite Hc.
    rewrite filter_none; [done|]. intros x Hx.
    destruct (hasToken x Popup.stateClasses) eqn:Es; [|done].
    rewrite (H1 x Hx Es) in Hx. apply hasToken_In in Hx. congruence.
Qed.

(** X23: the indicator shows one state at a time.  When the indicator
    and its text exist, each of the three functions that set the state
    leaves exactly one of the four state classes on the indicator, with
    the matching text: pending or active by [hasChanges], error, and
    inactive. *)
Theorem indicator_one_state (p : Popup.Page) (cl : list string) (text : string) :
  Popup.indicator p = Some cl -> Popup.stateText p = Some text -> List.NoDup cl ->
  Popup.shownState (Popup.updateStateIndicator p)
  = Some (if Popup.hasChanges p then (["pending"], "Pending") else (["active"], "Active"))
  /\ Popup.shownState (Popup.setErrorState p) = Some (["error"], "Error")
  /\ Popup.shownState (Popup.setInactiveState p) = Some (["inactive"], "Inactive").
Proof.
  intros Hi Ht Hnd.
  assert (Hstate : forall t, hasToken t Popup.stateClasses = true ->
            t = "active" \/ t = "pending" \/ t = "error" \/ t = "inactive").
  { intros t H. apply hasToken_In in H. simpl in H. intuition auto. }
  unfold Popup.updateStateIndicator, Popup.setErrorState, Popup.setInactiveState.
  rewrite Hi, Ht. cbv zeta. split; [|split].
  - destruct (Popup.hasChanges p); unfold Popup.shownState;
      cbn [Popup.indicator Popup.stateText Popup.set_state];
      rewrite shownStates_set; try done;
      intros t H; destruct (Hstate t H) as [-> | [-> | [-> | ->]]]; simpl; tauto.
  - unfold Popup.shownState. cbn [Popup.indicator Popup.stateText Popup.set_state].
    rewrite shownStates_set; try done.
    intros t H; destruct (Hstate t H) as [-> | [-> | [-> | ->]]]; simpl; tauto.
  - unfold Popup.shownState. cbn [Popup.indicator Popup.stateText Popup.set_state].
    rewrite shownStates_set; try done.
    intros t H; destruct (Hstate t H) as [-> | [-> | [-> | ->]]]; simpl; tauto.
Qed.

Lemma indicator_one_state_witness :
  let p := Popup.setErrorState Popup.samplePage in
  (Popup.indicator p = Some ["state-indicator"; "error"]
   /\ Popup.stateText p = Some "Error"
   /\ List.NoDup ["state-indicator"; "error"])
  /\ Popup.shownState (Popup.setErrorState p) = Some (["error"], "Error")
  /\ Popup.shownState (Popup.setInactiveState p) = Some (["inactive"], "Inactive").
Proof.
  cbv zeta.
  assert (H1 : Popup.indicator (Popup.setErrorState Popup.samplePage)
               = Some ["state-indicator"; "error"]) by reflexivity.
  assert (H2 : Popup.stateText (Popup.setErrorState Popup.samplePage) = Some "Error")
    by reflexivity.
  assert (H3 : List.NoDup ["state-indicator"; "error"]).
  { repeat constructor; simpl; intuition discriminate. }
  split; [auto|].
  apply (proj2 (indicator_one_state _ _ _ H1 H2 H3)).
Defined.

(** ** Applying the settings *)

Lemma sortJobs_stored now st : stored (sortJobs now st) = stored st.
Proof.
  assert (Hall : forall jobs st, stored (appendAll jobs st) = stored st).
  { clear. induction jobs as [|j jobs IH]; intros st; [done|]. cbn [appendAll fold_left].
    fold (appendAll jobs (appendChild j st)). rewrite IH. unfold appendChild.
    cbn [observing set_document]. by destruct (observing st). }
  unfold sortJobs. destruct (document st); [done|].
  set (st2 := if Nat.eqb (size (originalOrder st)) 0 then captureOriginalOrder st else st).
  assert (stored st2 = stored st) as <- by (subst st2; by destruct (Nat.eqb _ 0)).
  destruct (String.eqb (sortBy (settings st2)) "default");
    [|destruct (String.eqb (sortBy (settings st2)) "recent")]; by rewrite Hall.
Qed.

Lemma onMessage_apply_kept now s st :
  let st' := notifyObserver now (fst (fst (onMessage now (applyRequest s) st))) in
  settings st' = s /\ stored st' = Some s /\ records st' = []
  /\ sent st' = (sent st ++ [StatsMessage (jobStats now (document st))])%list.
Proof.
  cbv zeta. rewrite onMessage_apply. cbn [fst].
  match goal with |- context [notifyObserver now ?x] =>
    destruct (notifyObserver_kept now x) as (-> & _ & -> & _ & -> & ->) end.
  set (st1 := processJobs now (saveSettings (set_settings s st))).
  assert (H1 : settings st1 = s /\ stored st1 = Some s
               /\ sent st1 = (sent st ++ [StatsMessage (jobStats now (document st))])%list).
  { subst st1. unfold processJobs, updateStats.
    cbn [settings stored sent set_sent set_document set_processedJobs saveSettings
         set_stored set_settings document].
    by rewrite jobStats_processed. }
  destruct H1 as (H1 & H2 & H3).
  destruct (negb (String.eqb (sortBy s) "default")); [|done].
  destruct (sortJobs_kept now st1) as (-> & _ & -> & _). by rewrite sortJobs_stored.
Qed.

Lemma sendMessage_apply now s b st :
  Popup.contentScript b = Some st ->
  exists st1,
    Popup.sendMessage now (applyRequest s) b
    = ({| Popup.popup :=
            Popup.onRuntimeMessage (StatsMessage (jobStats now (document st))) (Popup.popup b);
          Popup.tabs := Popup.tabs b; Popup.storage := Some s;
          Popup.contentScript := Some st1 |},
       Some (SuccessResponse true))
    /\ settings st1 = s /\ stored st1 = Some s /\ records st1 = [].
Proof.
  intros Hc. unfold Popup.sendMessage. rewrite Hc.
  destruct (onMessage_apply_kept now s st) as (H1 & H2 & H3 & H4). cbv zeta in *.
  rewrite onMessage_apply in *. cbn [fst] in *.
  eexists. split; [|split; [exact H1|split; [exact H2|exact H3]]].
  rewrite H2, H4, drop_app_length. reflexivity.
Qed.

Lemma sendMessage_stats now b st :
  Popup.contentScript b = Some st -> records st = [] ->
  Popup.sendMessage now statsRequest b
  = ({| Popup.popup := Popup.popup b; Popup.tabs := Popup.tabs b;
        Popup.storage := stored st; Popup.contentScript := Some st |},
     Some (StatsResponse (jobStats now (document st)))).
Proof.
  intros Hc Hr. unfold Popup.sendMessage. rewrite Hc.
  assert (onMessage now statsRequest st
          = (st, [StatsResponse (jobStats now (document st))], true)) as -> by reflexivity.
  assert (notifyObserver now st = st) as -> by (unfold notifyObserver; by rewrite Hr).
  by rewrite drop_all.
Qed.

Lemma updateSettingsFromUI_some form p p1 :
  Popup.updateSettingsFromUI form p = Some p1 ->
  exists s,
    Popup.formSettings form = Some s
    /\ p1 = Popup.updateStateIndicator
              (Popup.set_hasChanges
                 (negb (String.eqb (Popup.JSON_stringify s)
                                   (Popup.JSON_stringify (Popup.savedSettings p))))
                 (Popup.set_currentSettings s p)).
Proof.
  unfold Popup.updateSettingsFromUI, Popup.formSettings.
  destruct (Popup.sortBySelect form) as [value|]; [|done].
  destruct (Popup.highlightViewedCheckbox form) as [checked|]; [|done].
  intros [= <-]. eexists. split; reflexivity.
Qed.

Lemma shownStates_fresh (c : string) (cl : list string) :
  hasToken c Popup.stateClasses = true ->
  Popup.shownStates (classList_add c (classList_remove Popup.stateClasses cl)) = [c].
Proof.
  intros Hc. set (cl1 := classList_remove Popup.stateClasses cl).
  assert (H1 : forall x, In x cl1 -> hasToken x Popup.stateClasses = false).
  { intros x Hx. apply classList_remove_In in Hx as [_ Hx].
    destruct (hasToken x Popup.stateClasses) eqn:E; [|done]. by apply hasToken_In in E. }
  assert (Hn : ~ In c cl1) by (intros Hin; apply H1 in Hin; congruence).
  rewrite classList_add_fresh by done. unfold Popup.shownStates.
  rewrite List.filter_app, filter_none by done. cbn [List.filter app]. by rewrite Hc.
Qed.

(** After [updateStateIndicator] without pending changes the indicator,
    when it exists with its text, shows active. *)
Lemma updateStateIndicator_active p :
  Popup.hasChanges p = false ->
  Popup.shownState p <> None ->
  Popup.shownState (Popup.updateStateIndicator p) = Some (["active"], "Active").
Proof.
  intros Hh. unfold Popup.shownState, Popup.updateStateIndicator.
  destruct (Popup.indicator p) as [cl|], (Popup.stateText p) as [text|]; try done.
  rewrite Hh. cbn [Popup.indicator Popup.stateText Popup.set_state]. intros _.
  change ["active"; "pending"; "error"; "inactive"] with Popup.stateClasses.
  by rewrite shownStates_fresh.
Qed.

Lemma showSuccessFeedback_kept now p :
  Popup.currentSettings (Popup.showSuccessFeedback now p) = Popup.currentSettings p
  /\ Popup.savedSettings (Popup.showSuccessFeedback now p) = Popup.savedSettings p
  /\ Popup.hasChanges (Popup.showSuccessFeedback now p) = Popup.hasChanges p
  /\ Popup.shownState (Popup.showSuccessFeedback now p) = Popup.shownState p
  /\ Popup.shownCounts (Popup.showSuccessFeedback now p) = Popup.shownCounts p.
Proof. unfold Popup.showSuccessFeedback. by destruct (Popup.applyBtn p). Qed.

Lemma showStats_kept response p :
  Popup.currentSettings (Popup.showStats response p) = Popup.currentSettings p
  /\ Popup.savedSettings (Popup.showStats response p) = Popup.savedSettings p
  /\ Popup.hasChanges (Popup.showStats response p) = Popup.hasChanges p
  /\ Popup.shownState (Popup.showStats response p) = Popup.shownState p
  /\ Popup.applyBtn (Popup.showStats response p) = Popup.applyBtn p
  /\ Popup.timeouts (Popup.showStats response p) = Popup.timeouts p.
Proof. by destruct response as [[]|]. Qed.

Lemma setText_setText el t1 t2 : Popup.setText (Popup.setText el t1) t2 = Popup.setText el t2.
Proof. by destruct el. Qed.

(** X24: a click on the apply button, on a jobs tab with the content
    script running, leaves the popup, the storage and the content script
    in step: the settings the form shows are the current and the saved
    settings of the popup, the stored settings and the settings of the
    content script; no change is pending, the indicator shows active, and
    the counters show the counts of the page as the content script left
    it. *)
Theorem apply_in_sync (now : Z) (form : Popup.Form) (b b' : Popup.Browser) (st : State) :
  Popup.idAndUrlOnJobs (Popup.tabs b) = true ->
  Popup.contentScript b = Some st ->
  Popup.applySettings now form b = Some b' ->
  exists s st',
    Popup.formSettings form = Some s
    /\ Popup.contentScript b' = Some st'
    /\ settings st' = s
    /\ Popup.storage b' = Some s
    /\ Popup.currentSettings (Popup.popup b') = s
    /\ Popup.savedSettings (Popup.popup b') = s
    /\ Popup.hasChanges (Popup.popup b') = false
    /\ (Popup.shownState (Popup.popup b) <> None ->
        Popup.shownState (Popup.popup b') = Some (["active"], "Active"))
    /\ Popup.shownCounts (Popup.popup b')
       = Popup.statsShown (jobStats now (document st')) (Popup.popup b).
Proof.
  intros Htab Hc H. unfold Popup.applySettings in H.
  destruct (Popup.updateSettingsFromUI form (Popup.popup b)) as [p1|] eqn:E1; [|done].
  apply updateSettingsFromUI_some in E1 as (s & Hform & Hp1).
  cbv zeta in H.
  change (Popup.tabs (Popup.storageSet (Popup.currentSettings p1) (Popup.set_popup p1 b)))
    with (Popup.tabs b) in H.
  rewrite Htab in H.
  assert (Hs : Popup.currentSettings p1 = s).
  { rewrite Hp1. by destruct (updateStateIndicator_kept
      (Popup.set_hasChanges
         (negb (String.eqb (Popup.JSON_stringify s)
                  (Popup.JSON_stringify (Popup.savedSettings (Popup.popup b)))))
         (Popup.set_currentSettings s (Popup.popup b)))) as (-> & _). }
  rewrite Hs in H.
  destruct (sendMessage_apply now s
              (Popup.storageSet s (Popup.set_popup p1 b)) (set_stored (Some s) st))
    as (st1 & E2 & Hset & Hsto & Hrec).
  { unfold Popup.storageSet. cbn [Popup.contentScript Popup.set_popup]. by rewrite Hc. }
  rewrite E2 in H. injection H as <-.
  unfold Popup.onApplyResponse. cbn [Popup.succeeded]. cbv zeta.
  unfold Popup.loadStats. cbn [Popup.tabs Popup.set_popup]. rewrite Htab.
  erewrite sendMessage_stats; [|reflexivity|exact Hrec].
  exists s, st1. cbn [Popup.contentScript Popup.storage Popup.popup Popup.set_popup].
  split; [done|]. split; [done|]. split; [done|]. split; [done|].
  set (p2 := Popup.set_counts _ _ _ p1).
  assert (H2 : Popup.currentSettings p2 = s /\ Popup.shownState p2 = Popup.shownState p1
               /\ Popup.shownCounts p2
                  = Popup.shownCounts
                      (Popup.onRuntimeMessage (StatsMessage (jobStats now (document st)))
                                              (Popup.popup b))).
  { subst p2. split; [exact Hs|]. split; [done|]. rewrite Hp1.
    unfold Popup.updateStateIndicator.
    repeat match goal with |- context [match ?x with _ => _ end] => destruct x end; done. }
  destruct H2 as (Hc2 & Hi2 & Hn2). rewrite Hc2.
  set (p3 := Popup.set_hasChanges false (Popup.set_savedSettings s p2)).
  assert (H3 : Popup.currentSettings p3 = s /\ Popup.savedSettings p3 = s
               /\ Popup.hasChanges p3 = false /\ Popup.shownState p3 = Popup.shownState p2
               /\ Popup.shownCounts p3 = Popup.shownCounts p2) by done.
  destruct H3 as (Hc3 & Hs3 & Hh3 & Hi3 & Hn3).
  destruct (showSuccessFeedback_kept now p3) as (Hc4 & Hs4 & Hh4 & Hi4 & Hn4).
  destruct (updateStateIndicator_kept (Popup.showSuccessFeedback now p3))
    as (Hc5 & Hs5 & Hh5 & _ & _ & Hn5).
  match goal with |- context [Popup.showStats ?r ?p] =>
    destruct (showStats_kept r p) as (-> & -> & -> & -> & _) end.
  rewrite Hc5, Hs5, Hh5, Hc4, Hs4, Hh4. repeat split; try done.
  - intros Hex. apply updateStateIndicator_active; [by rewrite Hh4|].
    rewrite Hi4, Hi3, Hi2, Hp1. revert Hex. unfold Popup.shownState, Popup.updateStateIndicator.
    cbn [Popup.indicator Popup.stateText Popup.set_hasChanges Popup.set_currentSettings
         Popup.hasChanges].
    destruct (Popup.indicator (Popup.popup b)), (Popup.stateText (Popup.popup b)); try done.
    by destruct (negb _).
  - cbn [Popup.showStats]. unfold Popup.shownCounts, Popup.statsShown in *.
    cbn [Popup.totalEl Popup.viewedEl Popup.appliedEl Popup.set_counts Popup.onRuntimeMessage]
      in *.
    injection Hn5 as -> -> ->. injection Hn4 as -> -> ->. clear Hn3. subst p3.
    cbn [Popup.totalEl Popup.viewedEl Popup.appliedEl Popup.set_hasChanges
         Popup.set_savedSettings].
    injection Hn2 as -> -> ->. by rewrite !setText_setText.
Qed.

Lemma apply_in_sync_witness :
  let b := sampleBrowser Popup.jobsTab (Some (started "default" [plainA; viewedB; appliedC])) in
  let b' := match Popup.applySettings sampleNow Popup.sampleForm b with
            | Some b' => b'
            | None => b
            end in
  (Popup.idAndUrlOnJobs (Popup.tabs b) = true
   /\ Popup.contentScript b = Some (started "default" [plainA; viewedB; appliedC])
   /\ Popup.applySettings sampleNow Popup.sampleForm b = Some b')
  /\ Popup.shownCounts (Popup.popup b') = [Some "3"; Some "1"; Some "1"]
  /\ exists s st',
       Popup.formSettings Popup.sampleForm = Some s
       /\ Popup.contentScript b' = Some st'
       /\ settings st' = s
       /\ Popup.storage b' = Some s.
Proof.
  cbv zeta.
  set (b := sampleBrowser Popup.jobsTab (Some (started "default" [plainA; viewedB; appliedC]))).
  set (b' := match Popup.applySettings sampleNow Popup.sampleForm b with
             | Some b' => b'
             | None => b
             end).
  assert (H1 : Popup.idAndUrlOnJobs (Popup.tabs b) = true) by reflexivity.
  assert (H2 : Popup.contentScript b = Some (started "default" [plainA; viewedB; appliedC]))
    by reflexivity.
  assert (H3 : Popup.applySettings sampleNow Popup.sampleForm b = Some b')
    by (vm_compute; reflexivity).
  split; [auto|]. split; [vm_compute; reflexivity|].
  destruct (apply_in_sync sampleNow Popup.sampleForm b b' _ H1 H2 H3)
    as (s & st' & Hf & Hc & Hs & Hsto & _).
  exists s, st'. auto.
Defined.

(** Removing [others] and adding [c] leaves [c] as the only state class
    when [others] holds every state class the element carries. *)
Lemma shownStates_replace (c : string) (others cl : list string) :
  hasToken c Popup.stateClasses = true ->
  (forall t, In t cl -> hasToken t Popup.stateClasses = true -> In t others) ->
  Popup.shownStates (classList_add c (classList_remove others cl)) = [c].
Proof.
  intros Hc Hall. set (cl1 := classList_remove others cl).
  assert (H1 : forall x, In x cl1 -> hasToken x Popup.stateClasses = false).
  { intros x Hx. apply classList_remove_In in Hx as [Hin Hx].
    destruct (hasToken x Popup.stateClasses) eqn:E; [|done]. destruct Hx. by apply Hall. }
  assert (Hn : ~ In c cl1) by (intros Hin; apply H1 in Hin; congruence).
  rewrite classList_add_fresh by done. unfold Popup.shownStates.
  rewrite List.filter_app, filter_none by done. cbn [List.filter app]. by rewrite Hc.
Qed.

(** The state classes an element carries after [updateStateIndicator]. *)
Lemma updateStateIndicator_classes p cl text t :
  Popup.indicator p = Some cl -> Popup.stateText p = Some text ->
  forall cl', Popup.indicator (Popup.updateStateIndicator p) = Some cl' ->
  In t cl' -> hasToken t Popup.stateClasses = true -> t = "pending" \/ t = "active".
Proof.
  intros Hi Ht cl'. unfold Popup.updateStateIndicator. rewrite Hi, Ht. cbv zeta.
  assert (Hgo : forall c, In t (classList_add c
                  (classList_remove ["active"; "pending"; "error"; "inactive"] cl)) ->
                hasToken t Popup.stateClasses = true -> t = c).
  { intros c Hin Hs. unfold classList_add in Hin.
    destruct (hasToken c _); [|apply in_app_iff in Hin as [Hin | [<- | []]]; [|done]];
      apply classList_remove_In in Hin as [_ Hin]; apply hasToken_In in Hs; tauto. }
  destruct (Popup.hasChanges p); cbn [Popup.indicator Popup.set_state];
    intros [= <-] Hin Hs; [left | right]; by apply Hgo.
Qed.

Lemma setState_kept p :
  Popup.currentSettings (Popup.setErrorState p) = Popup.currentSettings p
  /\ Popup.savedSettings (Popup.setErrorState p) = Popup.savedSettings p
  /\ Popup.currentSettings (Popup.setInactiveState p) = Popup.currentSettings p
  /\ Popup.savedSettings (Popup.setInactiveState p) = Popup.savedSettings p.
Proof.
  unfold Popup.setErrorState, Popup.setInactiveState.
  by destruct (Popup.indicator p), (Popup.stateText p).
Qed.

(** X25: a click on the apply button that does not reach a content
    script, because the active tab is no jobs page or because no content
    script answers, still writes the settings of the form to the storage.
    The popup does not take them for saved: the saved settings are as
    before, and the indicator shows inactive in the first case and error
    in the second. *)
Theorem apply_unreached (now : Z) (form : Popup.Form) (b b' : Popup.Browser) :
  Popup.idAndUrlOnJobs (Popup.tabs b) = false \/ Popup.contentScript b = None ->
  Popup.applySettings now form b = Some b' ->
  Popup.storage b' = Popup.formSettings form
  /\ Popup.formSettings form = Some (Popup.currentSettings (Popup.popup b'))
  /\ Popup.savedSettings (Popup.popup b') = Popup.savedSettings (Popup.popup b)
  /\ Popup.contentScript b'
     = option_map (set_stored (Popup.formSettings form)) (Popup.contentScript b)
  /\ (Popup.shownState (Popup.popup b) <> None ->
      Popup.shownState (Popup.popup b')
      = Some (if Popup.idAndUrlOnJobs (Popup.tabs b)
              then (["error"], "Error") else (["inactive"], "Inactive"))).
Proof.
  intros Hcase H. unfold Popup.applySettings in H.
  destruct (Popup.updateSettingsFromUI form (Popup.popup b)) as [p1|] eqn:E1; [|done].
  apply updateSettingsFromUI_some in E1 as (s & Hform & Hp1). cbv zeta in H.
  change (Popup.tabs (Popup.storageSet (Popup.currentSettings p1) (Popup.set_popup p1 b)))
    with (Popup.tabs b) in H.
  set (q := Popup.set_hasChanges _ _) in Hp1.
  destruct (updateStateIndicator_kept q) as (Hc1 & Hs1 & _). rewrite <- Hp1 in Hc1, Hs1.
  assert (Hcur : Popup.currentSettings p1 = s) by (by rewrite Hc1).
  assert (Hsav : Popup.savedSettings p1 = Popup.savedSettings (Popup.popup b))
    by (by rewrite Hs1).
  assert (Hshown : forall c text others,
            hasToken c Popup.stateClasses = true ->
            In "pending" others -> In "active" others ->
            Popup.shownState (Popup.popup b) <> None ->
            Popup.shownState
              match Popup.indicator p1, Popup.stateText p1 with
              | Some cl, Some _ =>
                  Popup.set_state (classList_add c (classList_remove others cl)) text p1
              | _, _ => p1
              end = Some ([c], text)).
  { intros c text others Hc Hp Ha Hex. unfold Popup.shownState in Hex.
    destruct (Popup.indicator (Popup.popup b)) as [cl|] eqn:Ei; [|done].
    destruct (Popup.stateText (Popup.popup b)) as [t0|] eqn:Et; [|done].
    assert (Hi1 : exists cl1, Popup.indicator p1 = Some cl1).
    { rewrite Hp1. unfold Popup.updateStateIndicator.
      change (Popup.indicator q) with (Popup.indicator (Popup.popup b)).
      change (Popup.stateText q) with (Popup.stateText (Popup.popup b)).
      rewrite Ei, Et. destruct (Popup.hasChanges q); eexists; reflexivity. }
    assert (Ht1 : exists t1, Popup.stateText p1 = Some t1).
    { rewrite Hp1. unfold Popup.updateStateIndicator.
      change (Popup.indicator q) with (Popup.indicator (Popup.popup b)).
      change (Popup.stateText q) with (Popup.stateText (Popup.popup b)).
      rewrite Ei, Et. destruct (Popup.hasChanges q); eexists; reflexivity. }
    destruct Hi1 as [cl1 Hi1], Ht1 as [t1 Ht1]. rewrite Hi1, Ht1.
    unfold Popup.shownState. cbn [Popup.indicator Popup.stateText Popup.set_state].
    rewrite shownStates_replace; [done | done |].
    intros t Hin Hs. rewrite Hp1 in Hi1.
    destruct (updateStateIndicator_classes q cl t0 t Ei Et cl1 Hi1 Hin Hs) as [-> | ->]; done. }
  destruct (Popup.idAndUrlOnJobs (Popup.tabs b)) eqn:Etab.
  - destruct Hcase as [? | Hnone]; [done|].
    unfold Popup.sendMessage, Popup.storageSet in H.
    cbn [Popup.contentScript Popup.set_popup] in H. rewrite Hnone in H. cbn [option_map] in H.
    injection H as <-. unfold Popup.onApplyResponse. cbn [Popup.succeeded].
    cbn [Popup.storage Popup.popup Popup.set_popup Popup.contentScript].
    destruct (setState_kept p1) as (-> & -> & _).
    rewrite Hcur, Hform, Hnone. split; [done|]. split; [done|]. split; [done|].
    split; [done|]. intros Hex. unfold Popup.setErrorState. cbv zeta.
    apply Hshown; simpl; auto.
  - injection H as <-.
    cbn [Popup.storage Popup.popup Popup.set_popup Popup.contentScript Popup.storageSet].
    destruct (setState_kept p1) as (_ & _ & -> & ->).
    rewrite Hcur, Hform. split; [done|]. split; [done|]. split; [done|].
    split; [done|]. intros Hex. unfold Popup.setInactiveState. cbv zeta.
    apply Hshown; simpl; auto.
Qed.

Lemma apply_unreached_witness :
  let b := sampleBrowser Popup.otherTab None in
  let b' := match Popup.applySettings sampleNow Popup.sampleForm b with
            | Some b' => b'
            | None => b
            end in
  (Popup.idAndUrlOnJobs (Popup.tabs b) = false
   /\ Popup.applySettings sampleNow Popup.sampleForm b = Some b')
  /\ Popup.storage b' = Popup.formSettings Popup.sampleForm
  /\ Popup.savedSettings (Popup.popup b') = defaultSettings.
Proof.
  cbv zeta.
  set (b := sampleBrowser Popup.otherTab None).
  set (b' := match Popup.applySettings sampleNow Popup.sampleForm b with
             | Some b' => b'
             | None => b
             end).
  assert (H1 : Popup.idAndUrlOnJobs (Popup.tabs b) = false) by reflexivity.
  assert (H2 : Popup.applySettings sampleNow Popup.sampleForm b = Some b') by reflexivity.
  split; [auto|].
  destruct (apply_unreached sampleNow Popup.sampleForm b b' (or_introl H1) H2)
    as (Hs & _ & Hsaved & _).
  split; [exact Hs | exact Hsaved].
Defined.

(** ** Feedback on the button *)

(** X26: after a success the button reads "Applied!" until 1.5 s have
    passed; then it gets back the text it had, when it had one, and an
    empty background.  A timer task before that changes nothing. *)
Theorem feedback_restores (now now' : Z) (p : Popup.Page) (btn : Popup.Button) :
  Popup.applyBtn p = Some btn ->
  Popup.timeouts p = [] ->
  Popup.buttonText btn <> EmptyString ->
  let p1 := Popup.showSuccessFeedback now p in
  Popup.applyBtn p1 = Some {| Popup.buttonText := "Applied!"; Popup.background := "#10b981" |}
  /\ (now' < now + 1500 -> Popup.fireTimeout now' p1 = p1)
  /\ (now + 1500 <= now' ->
      Popup.applyBtn (Popup.fireTimeout now' p1)
      = Some {| Popup.buttonText := Popup.buttonText btn; Popup.background := EmptyString |}
      /\ Popup.timeouts (Popup.fireTimeout now' p1) = []).
Proof.
  intros Hb Ht Htext. cbv zeta. unfold Popup.showSuccessFeedback. rewrite Hb, Ht.
  apply String.eqb_neq in Htext. rewrite Htext.
  unfold Popup.fireTimeout. cbn [Popup.applyBtn Popup.timeouts Popup.set_applyBtn app].
  split; [done|]. split; intros Hnow.
  - apply Z.leb_gt in Hnow. by rewrite Hnow.
  - apply Z.leb_le in Hnow. by rewrite Hnow.
Qed.

Lemma feedback_restores_witness :
  (Popup.applyBtn Popup.samplePage
   = Some {| Popup.buttonText := "Apply Filters"; Popup.background := EmptyString |}
   /\ Popup.timeouts Popup.samplePage = []
   /\ "Apply Filters" <> EmptyString)
  /\ Popup.applyBtn (Popup.showSuccessFeedback sampleNow Popup.samplePage)
     = Some {| Popup.buttonText := "Applied!"; Popup.background := "#10b981" |}.
Proof.
  assert (H1 : Popup.applyBtn Popup.samplePage
               = Some {| Popup.buttonText := "Apply Filters";
                         Popup.background := EmptyString |}) by reflexivity.
  assert (H2 : Popup.timeouts Popup.samplePage = []) by reflexivity.
  assert (H3 : "Apply Filters" <> EmptyString) by discriminate.
  split; [auto|].
  apply (proj1 (feedback_restores sampleNow sampleNow Popup.samplePage _ H1 H2 H3)).
Defined.

(** X27: a second success before the first 1.5 s are over takes
    "Applied!" for the text of the button: once both timers have run the
    button still reads "Applied!", with nothing pending to change it. *)
Theorem feedback_twice_sticks (now1 now2 t1 t2 : Z) (p : Popup.Page) (btn : Popup.Button) :
  Popup.applyBtn p = Some btn ->
  Popup.timeouts p = [] ->
  now1 <= now2 < now1 + 1500 ->
  now1 + 1500 <= t1 -> now2 + 1500 <= t2 ->
  let p' := Popup.fireTimeout t2
              (Popup.fireTimeout t1
                 (Popup.showSuccessFeedback now2 (Popup.showSuccessFeedback now1 p))) in
  Popup.applyBtn p'
  = Some {| Popup.buttonText := "Applied!"; Popup.background := EmptyString |}
  /\ Popup.timeouts p' = [].
Proof.
  intros Hb Ht Hnow H1 H2. cbv zeta.
  destruct p as [cs ss hc ind stx ab te ve ae tos]. cbn in Hb, Ht. subst ab tos.
  apply Z.leb_le in H1, H2. unfold Popup.showSuccessFeedback, Popup.fireTimeout.
  cbn -[Z.add Z.leb]. rewrite H1. cbn -[Z.add Z.leb]. by rewrite H2.
Qed.

Lemma feedback_twice_sticks_witness :
  let p' := Popup.fireTimeout (sampleNow + 2000)
              (Popup.fireTimeout (sampleNow + 1500)
                 (Popup.showSuccessFeedback (sampleNow + 500)
                    (Popup.showSuccessFeedback sampleNow Popup.samplePage))) in
  (Popup.applyBtn Popup.samplePage
   = Some {| Popup.buttonText := "Apply Filters"; Popup.background := EmptyString |}
   /\ Popup.timeouts Popup.samplePage = []
   /\ sampleNow <= sampleNow + 500 < sampleNow + 1500
   /\ sampleNow + 1500 <= sampleNow + 1500 /\ sampleNow + 500 + 1500 <= sampleNow + 2000)
  /\ Popup.applyBtn p'
     = Some {| Popup.buttonText := "Applied!"; Popup.background := EmptyString |}.
Proof.
  cbv zeta.
  assert (H1 : Popup.applyBtn Popup.samplePage
               = Some {| Popup.buttonText := "Apply Filters";
                         Popup.background := EmptyString |}) by reflexivity.
  assert (H2 : Popup.timeouts Popup.samplePage = []) by reflexivity.
  assert (H3 : sampleNow <= sampleNow + 500 < sampleNow + 1500) by lia.
  assert (H4 : sampleNow + 1500 <= sampleNow + 1500) by lia.
  assert (H5 : sampleNow + 500 + 1500 <= sampleNow + 2000) by lia.
  split; [auto 10|].
  apply (proj1 (feedback_twice_sticks sampleNow (sampleNow + 500) (sampleNow + 1500)
                  (sampleNow + 2000) Popup.samplePage _ H1 H2 H3 H4 H5)).
Defined.

(** ** The popup opens *)

Lemma onRuntimeMessages_kept messages p :
  let p' := fold_left (fun p m => Popup.onRuntimeMessage m p) messages p in
  Popup.currentSettings p' = Popup.currentSettings p
  /\ Popup.savedSettings p' = Popup.savedSettings p
  /\ Popup.hasChanges p' = Popup.hasChanges p
  /\ Popup.indicator p' = Popup.indicator p
  /\ Popup.stateText p' = Popup.stateText p.
Proof.
  cbv zeta. revert p. induction messages as [|[stats] messages IH]; intros p; [done|].
  cbn [fold_left]. by destruct (IH (Popup.onRuntimeMessage (StatsMessage stats) p))
    as (-> & -> & -> & -> & ->).
Qed.

Lemma loadStats_kept now b :
  let p' := Popup.popup (Popup.loadStats now b) in
  Popup.currentSettings p' = Popup.currentSettings (Popup.popup b)
  /\ Popup.savedSettings p' = Popup.savedSettings (Popup.popup b)
  /\ Popup.hasChanges p' = Popup.hasChanges (Popup.popup b)
  /\ Popup.indicator p' = Popup.indicator (Popup.popup b)
  /\ Popup.stateText p' = Popup.stateText (Popup.popup b)
  /\ Popup.tabs (Popup.loadStats now b) = Popup.tabs b.
Proof.
  cbv zeta. unfold Popup.loadStats. destruct (Popup.idAndUrlOnJobs (Popup.tabs b)); [|done].
  unfold Popup.sendMessage. destruct (Popup.contentScript b) as [st|]; [|done].
  destruct (onMessage now statsRequest st) as [[st' responses] k].
  cbn [Popup.popup Popup.set_popup Popup.tabs].
  match goal with |- context [Popup.showStats ?r ?p] =>
    assert (Hk : Popup.currentSettings (Popup.showStats r p) = Popup.currentSettings p
                 /\ Popup.savedSettings (Popup.showStats r p) = Popup.savedSettings p
                 /\ Popup.hasChanges (Popup.showStats r p) = Popup.hasChanges p
                 /\ Popup.indicator (Popup.showStats r p) = Popup.indicator p
                 /\ Popup.stateText (Popup.showStats r p) = Popup.stateText p)
      by (by destruct r as [[]|]);
    destruct Hk as (-> & -> & -> & -> & ->) end.
  match goal with |- context [fold_left _ ?ms ?p] =>
    destruct (onRuntimeMessages_kept ms p) as (-> & -> & -> & -> & ->) end.
  done.
Qed.

(** X28: when the popup opens it takes the stored settings, if there are
    any, for its current and its saved settings.  The indicator then
    shows active on a tab whose address is a jobs page and inactive
    elsewhere; it looks at the address only, so it shows active also when
    no content script runs in the tab.  The counters show the counts of
    the page when the content script answers and are left as they are
    otherwise. *)
Theorem popup_opens (now : Z) (b : Popup.Browser) (cl : list string) (text : string) :
  Popup.hasChanges (Popup.popup b) = false ->
  Popup.indicator (Popup.popup b) = Some cl ->
  Popup.stateText (Popup.popup b) = Some text ->
  List.NoDup cl ->
  let p' := Popup.popup (Popup.opened now b) in
  (forall s, Popup.storage b = Some s ->
             Popup.currentSettings p' = s /\ Popup.savedSettings p' = s)
  /\ Popup.shownState p'
     = Some (if Popup.urlOnJobs (Popup.tabs b)
             then (["active"], "Active") else (["inactive"], "Inactive"))
  /\ (forall st, Popup.idAndUrlOnJobs (Popup.tabs b) = true ->
                 Popup.contentScript b = Some st -> records st = [] ->
                 Popup.shownCounts p'
                 = Popup.statsShown (jobStats now (document st)) (Popup.popup b))
  /\ (Popup.idAndUrlOnJobs (Popup.tabs b) = false \/ Popup.contentScript b = None ->
      Popup.shownCounts p' = Popup.shownCounts (Popup.popup b)).
Proof.
  intros Hh Hi Ht Hnd. cbv zeta. unfold Popup.opened.
  set (b1 := Popup.onSettingsLoaded b).
  assert (H1 : Popup.tabs b1 = Popup.tabs b /\ Popup.contentScript b1 = Popup.contentScript b
               /\ Popup.hasChanges (Popup.popup b1) = false
               /\ Popup.indicator (Popup.popup b1) = Some cl
               /\ Popup.stateText (Popup.popup b1) = Some text
               /\ Popup.shownCounts (Popup.popup b1) = Popup.shownCounts (Popup.popup b)
               /\ forall s, Popup.storage b = Some s ->
                    Popup.currentSettings (Popup.popup b1) = s
                    /\ Popup.savedSettings (Popup.popup b1) = s).
  { subst b1. unfold Popup.onSettingsLoaded. destruct (Popup.storage b) as [s0|]; [|done].
    do 6 (split; [done|]). by intros ? [= <-]. }
  destruct H1 as (Htabs1 & Hcs1 & Hh1 & Hi1 & Ht1 & Hn1 & Hset1).
  destruct (loadStats_kept now b1) as (Hc2 & Hs2 & Hh2 & Hi2 & Ht2 & Htabs2).
  set (b2 := Popup.loadStats now b1) in *.
  assert (Hkept : forall q,
            Popup.currentSettings (Popup.popup (Popup.checkTabStatus q))
            = Popup.currentSettings (Popup.popup q)
            /\ Popup.savedSettings (Popup.popup (Popup.checkTabStatus q))
               = Popup.savedSettings (Popup.popup q)
            /\ Popup.shownCounts (Popup.popup (Popup.checkTabStatus q))
               = Popup.shownCounts (Popup.popup q)).
  { intros q. unfold Popup.checkTabStatus.
    destruct (Popup.urlOnJobs (Popup.tabs q)); cbn [Popup.popup Popup.set_popup].
    - by destruct (updateStateIndicator_kept (Popup.popup q)) as (-> & -> & _ & _ & _ & ->).
    - unfold Popup.setInactiveState.
      by destruct (Popup.indicator (Popup.popup q)), (Popup.stateText (Popup.popup q)). }
  destruct (Hkept b2) as (-> & -> & ->). rewrite Hc2, Hs2.
  split; [exact Hset1|]. split; [|split].
  - unfold Popup.checkTabStatus. rewrite Htabs2, Htabs1.
    assert (Hstate : forall t, hasToken t Popup.stateClasses = true ->
              t = "active" \/ t = "pending" \/ t = "error" \/ t = "inactive").
    { intros t H. apply hasToken_In in H. simpl in H. intuition auto. }
    destruct (Popup.urlOnJobs (Popup.tabs b)); cbn [Popup.popup Popup.set_popup].
    + apply updateStateIndicator_active; [by rewrite Hh2|].
      unfold Popup.shownState. by rewrite Hi2, Ht2, Hi1, Ht1.
    + unfold Popup.setInactiveState, Popup.shownState. rewrite Hi2, Ht2, Hi1, Ht1.
      cbn [Popup.indicator Popup.stateText Popup.set_state].
      rewrite shownStates_set; try done.
      intros t H; destruct (Hstate t H) as [-> | [-> | [-> | ->]]]; simpl; tauto.
  - intros st Htab Hcs Hrec. subst b2. unfold Popup.loadStats. rewrite Htabs1, Htab.
    rewrite (sendMessage_stats now b1 st) by (by rewrite ?Hcs1). cbn [Popup.popup Popup.set_popup].
    cbn [Popup.showStats]. unfold Popup.shownCounts, Popup.statsShown in *.
    cbn [Popup.totalEl Popup.viewedEl Popup.appliedEl Popup.set_counts Popup.onRuntimeMessage].
    by injection Hn1 as -> -> ->.
  - intros Hcase. subst b2. unfold Popup.loadStats. rewrite Htabs1.
    destruct (Popup.idAndUrlOnJobs (Popup.tabs b)); [|done].
    destruct Hcase as [? | Hnone]; [done|]. unfold Popup.sendMessage. rewrite Hcs1, Hnone.
    done.
Qed.

Lemma popup_opens_witness :
  let b := sampleBrowser Popup.jobsTab None in
  (Popup.hasChanges (Popup.popup b) = false
   /\ Popup.indicator (Popup.popup b) = Some ["state-indicator"; "inactive"]
   /\ Popup.stateText (Popup.popup b) = Some "Inactive"
   /\ List.NoDup ["state-indicator"; "inactive"])
  /\ Popup.contentScript b = None
  /\ Popup.shownState (Popup.popup (Popup.opened sampleNow b)) = Some (["active"], "Active").
Proof.
  cbv zeta.
  set (b := sampleBrowser Popup.jobsTab None).
  assert (H1 : Popup.hasChanges (Popup.popup b) = false) by reflexivity.
  assert (H2 : Popup.indicator (Popup.popup b) = Some ["state-indicator"; "inactive"])
    by reflexivity.
  assert (H3 : Popup.stateText (Popup.popup b) = Some "Inactive") by reflexivity.
  assert (H4 : List.NoDup ["state-indicator"; "inactive"]).
  { repeat constructor; simpl; intuition discriminate. }
  split; [auto|]. split; [reflexivity|].
  apply (proj1 (proj2 (popup_opens sampleNow b _ _ H1 H2 H3 H4))).
Defined.
